(** * APR dataset collector: a shallow embedding and its checked properties

    The development follows [collect_apr_dataset_auto_date.py] and
    [reset_tracker_files.py].

    Conventions.
    - A Python [str] is a [string]; a character is read as the code point
      of the same number, so the model covers the texts whose code points
      are below 256.  On that range [\d] is exactly [0-9], and the line
      boundaries and white space are the ones listed below.
    - A Python [int] is a [Z].
    - An exception is a [Raise] in the [result] monad.
    - A [set] of strings is a [gset string], a directory of files a
      [gmap string string]. *)

From Stdlib Require Import ZArith List String Ascii Bool Lia.
From stdpp Require Import base option list strings gmap.
Import ListNotations.

Local Open Scope string_scope.
Local Open Scope list_scope.
Local Open Scope Z_scope.

#[local] Set Warnings "-clear-no-such-hyp".

(** ** Exceptions *)

Inductive exn : Type :=
  | ValueError
  | OverflowError
  | IndexError.

Inductive result (A : Type) : Type :=
  | Ok (a : A)
  | Raise (e : exn).

Arguments Ok {A} a.
Arguments Raise {A} e.

#[global] Instance result_ret : MRet result := fun A a => Ok a.
#[global] Instance result_bind : MBind result := fun A B f m =>
  match m with
  | Ok a => f a
  | Raise e => Raise e
  end.
#[global] Instance result_fmap : FMap result := fun A B f m =>
  match m with
  | Ok a => Ok (f a)
  | Raise e => Raise e
  end.

(** ** Python string primitives *)

Module Py.

Definition code (c : ascii) : N := N_of_ascii c.

(** [str.splitlines] boundaries: LF, VT, FF, CR, FS, GS, RS, NEL. *)
Definition is_linebreak (c : ascii) : bool :=
  let n := code c in
  ((10 <=? n) && (n <=? 13) || (28 <=? n) && (n <=? 30) || (n =? 133))%N.

(** [str.isspace]: TAB..CR, FS..US, SPACE, NEL, NBSP. *)
Definition is_space (c : ascii) : bool :=
  let n := code c in
  ((9 <=? n) && (n <=? 13) || (28 <=? n) && (n <=? 32)
   || (n =? 133) || (n =? 160))%N.

Definition is_digit (c : ascii) : bool :=
  let n := code c in ((48 <=? n) && (n <=? 57))%N.

Definition digit_value (c : ascii) : Z := Z.of_N (code c) - 48.

Definition LF : ascii := ascii_of_N 10.
Definition CR : ascii := ascii_of_N 13.
Definition NL : string := String LF "".

(** The lines of [s] for the boundaries [brk]: a CR LF pair is one
    boundary, and a final boundary opens no further line. *)
Fixpoint split_at (brk : ascii -> bool) (s : string) : list string :=
  match s with
  | "" => []
  | String c s' =>
      if brk c then
        match s' with
        | String d s'' =>
            if Ascii.eqb c CR && Ascii.eqb d LF
            then "" :: split_at brk s''
            else "" :: split_at brk s'
        | "" => [""]
        end
      else
        match split_at brk s' with
        | [] => [String c ""]
        | l :: ls => String c l :: ls
        end
  end.

(** [s.splitlines()] *)
Definition splitlines (s : string) : list string :=
  split_at is_linebreak s.

(** The lines that iterating over a text file yields, without their
    terminator: only LF, CR and CR LF end a line there. *)
Definition file_lines (s : string) : list string :=
  split_at (fun c => Ascii.eqb c LF || Ascii.eqb c CR) s.

(** [sep.join(l)] *)
Definition join (sep : string) (l : list string) : string :=
  String.concat sep l.

(** [s.startswith(p)] *)
Definition startswith (p s : string) : bool := String.prefix p s.

Definition rev_string (s : string) : string :=
  string_of_list_ascii (rev (list_ascii_of_string s)).

(** [s.endswith(p)] *)
Definition endswith (p s : string) : bool :=
  String.prefix (rev_string p) (rev_string s).

Fixpoint lstrip (s : string) : string :=
  match s with
  | String c s' => if is_space c then lstrip s' else s
  | "" => ""
  end.

Definition rstrip (s : string) : string :=
  rev_string (lstrip (rev_string s)).

(** [s.strip()] *)
Definition strip (s : string) : string := rstrip (lstrip s).

(** [s.replace("\n", " ")] *)
Fixpoint replace_newlines (s : string) : string :=
  match s with
  | "" => ""
  | String c s' =>
      String (if Ascii.eqb c LF then " "%char else c) (replace_newlines s')
  end.

Definition lower_char (c : ascii) : ascii :=
  let n := code c in
  if ((65 <=? n) && (n <=? 90)
      || (192 <=? n) && (n <=? 222) && negb (n =? 215))%N
  then ascii_of_N (n + 32) else c.

(** [s.lower()] *)
Fixpoint lower (s : string) : string :=
  match s with
  | "" => ""
  | String c s' => String (lower_char c) (lower s')
  end.

(** Truth value of a string: non-empty. *)
Definition truthy (s : string) : bool :=
  match s with "" => false | _ => true end.

(** Longest prefix of decimal digits, and what follows it. *)
Fixpoint span_digits (s : string) : string * string :=
  match s with
  | String c s' =>
      if is_digit c then
        let '(d, r) := span_digits s' in (String c d, r)
      else ("", s)
  | "" => ("", "")
  end.

(** [expect p s] removes the literal [p] from the front of [s]. *)
Fixpoint expect (p s : string) : option string :=
  match p with
  | "" => Some s
  | String a p' =>
      match s with
      | String b s' => if Ascii.eqb a b then expect p' s' else None
      | "" => None
      end
  end.

Fixpoint digits_value (acc : Z) (s : string) : Z :=
  match s with
  | "" => acc
  | String c s' => digits_value (10 * acc + digit_value c) s'
  end.

(** CPython refuses to convert more than this many digits
    ([sys.int_info.default_max_str_digits]). *)
Definition int_max_str_digits : nat := 4300.

(** [int(s)] for a non-empty string of decimal digits, as the groups of
    the header pattern are. *)
Definition int (s : string) : result Z :=
  if (int_max_str_digits <? String.length s)%nat then Raise ValueError
  else Ok (digits_value 0 s).

(** [l[lo:hi]] with Python's clamping of both bounds. *)
Definition clamp_index {A} (l : list A) (i : Z) : nat :=
  let n := Z.of_nat (length l) in
  Z.to_nat (if i <? 0 then Z.max 0 (i + n) else Z.min i n).

Definition slice {A} (l : list A) (lo hi : Z) : list A :=
  let a := clamp_index l lo in
  let b := clamp_index l hi in
  firstn (b - a) (skipn a l).

Definition slice_to {A} (l : list A) (hi : Z) : list A :=
  firstn (clamp_index l hi) l.

Definition slice_from {A} (l : list A) (lo : Z) : list A :=
  skipn (clamp_index l lo) l.

(** [l[i]], a negative [i] counting from the end. *)
Definition index {A} (l : list A) (i : Z) : result A :=
  let n := Z.of_nat (length l) in
  let j := if i <? 0 then i + n else i in
  if (j <? 0) || (n <=? j) then Raise IndexError
  else match nth_error l (Z.to_nat j) with
       | Some x => Ok x
       | None => Raise IndexError
       end.

(** [s[1:]] *)
Definition tail (s : string) : string :=
  match s with
  | String _ s' => s'
  | "" => ""
  end.

(** [min(l)] and [max(l)]: an empty argument is a [ValueError]. *)
Definition min (l : list Z) : result Z :=
  match l with
  | [] => Raise ValueError
  | x :: l' => Ok (fold_left Z.min l' x)
  end.

Definition max (l : list Z) : result Z :=
  match l with
  | [] => Raise ValueError
  | x :: l' => Ok (fold_left Z.max l' x)
  end.

End Py.

(** ** Diff hunk parser *)

Record hunk : Type := mk_hunk {
  o_start : Z;
  o_len : Z;
  n_start : Z;
  n_len : Z;
  lines : list string
}.

(** The groups of
    [^@@ -(\d+)(?:,(\d+))? \+(\d+)(?:,(\d+))? @@].
    Every decision of the pattern is forced by the next character: a
    [\d+] followed by [,] or a space takes the whole run of digits, and
    an optional [,(\d+)] that is skipped leaves a [,] where a space is
    required.  So matching is a left-to-right scan without choice. *)
Definition optional_length (s : string) : option string * string :=
  match s with
  | String c s' =>
      if Ascii.eqb c ","%char then
        let '(d, r) := Py.span_digits s' in
        if Py.truthy d then (Some d, r) else (None, s)
      else (None, s)
  | "" => (None, s)
  end.

Definition header_re_match (line : string)
  : option (string * option string * string * option string) :=
  s ← Py.expect "@@ -" line;
  let '(g1, s) := Py.span_digits s in
  if negb (Py.truthy g1) then None else
  let '(g2, s) := optional_length s in
  s ← Py.expect " +" s;
  let '(g3, s) := Py.span_digits s in
  if negb (Py.truthy g3) then None else
  let '(g4, s) := optional_length s in
  _ ← Py.expect " @@" s;
  Some (g1, g2, g3, g4).

(** [int(m.group(k)) if m.group(k) else 1] *)
Definition int_or_1 (g : option string) : result Z :=
  match g with
  | Some d => Py.int d
  | None => Ok 1
  end.

(** The four numbers of a header, converted in the order of the code. *)
Definition header_fields
    (g : string * option string * string * option string)
  : result (Z * Z * Z * Z) :=
  let '(g1, g2, g3, g4) := g in
  os ← Py.int g1;
  ol ← int_or_1 g2;
  ns ← Py.int g3;
  nl ← int_or_1 g4;
  Ok (os, ol, ns, nl).

(** The inner loop: the lines up to the first one that starts with
    ["@@ "], and the lines from there on. *)
Fixpoint take_hunk_lines (ls : list string) : list string * list string :=
  match ls with
  | [] => ([], [])
  | l :: ls' =>
      if Py.startswith "@@ " l then ([], ls)
      else let '(b, r) := take_hunk_lines ls' in (l :: b, r)
  end.

(** The outer loop from index [i], on the lines [ls] that remain from
    there.  Each turn consumes at least one line, so [length ls] turns
    are enough; [fuel] counts them. *)
Fixpoint parse_from (fuel : nat) (ls : list string) : result (list hunk) :=
  match fuel with
  | O => Ok []
  | S fuel' =>
      match ls with
      | [] => Ok []
      | l :: ls' =>
          match header_re_match l with
          | Some g =>
              '(os, ol, ns, nl) ← header_fields g;
              let '(body, rest) := take_hunk_lines ls' in
              hs ← parse_from fuel' rest;
              Ok (mk_hunk os ol ns nl body :: hs)
          | None => parse_from fuel' ls'
          end
      end
  end.

Definition parse_patch_hunks (patch : string) : result (list hunk) :=
  let ls := Py.splitlines patch in
  parse_from (length ls) ls.

(** A text from its lines. *)
Definition lines_of (ls : list string) : string := Py.join Py.NL ls.

(** ** Pair builder *)

Definition FILL_ME : string := "<FILL_ME>".

(** [ln.startswith("+") and not ln.startswith("+++")] *)
Definition is_added (ln : string) : bool :=
  Py.startswith "+" ln && negb (Py.startswith "+++" ln).

(** The comprehension that collects the added lines, hunk by hunk. *)
Definition added_lines (hunks : list hunk) : list string :=
  flat_map (fun h => map Py.tail (List.filter is_added (lines h))) hunks.

(** ["# " + l if l.strip() else "#"] *)
Definition comment_line (l : string) : string :=
  if Py.truthy (Py.strip l) then "# " +:+ l else "#".

(** [start_idx] and [end_idx]: the 0-indexed bounds, clamped to the
    file, of the span from the least [o_start] to the greatest
    [o_start + o_len - 1]. *)
Definition envelope (buggy_lines_all : list string) (hunks : list hunk)
  : result (Z * Z) :=
  let o_starts := map o_start hunks in
  let o_ends := map (fun h => o_start h + o_len h - 1) hunks in
  lo ← Py.min o_starts;
  hi ← Py.max o_ends;
  Ok (Z.max 0 (lo - 1),
      Z.min (Z.of_nat (length buggy_lines_all) - 1) (hi - 1)).

(** The body of [build_ir4_or2] after the call of the parser.  The pair
    [(None, None)] is [None]. *)
Definition build_from_hunks (buggy_code fixed_code : string)
    (hunks : list hunk) : result (option (string * string)) :=
  match hunks with
  | [] => Ok None
  | _ :: _ =>
      let buggy_lines_all := Py.splitlines buggy_code in
      '(start_idx, end_idx) ← envelope buggy_lines_all hunks;
      if end_idx <? start_idx then Ok None else
      let buggy_snippet := Py.slice buggy_lines_all start_idx (end_idx + 1) in
      let fixed_snippet_lines := added_lines hunks in
      match fixed_snippet_lines with
      | [] => Ok None
      | _ :: _ =>
          let commented := Py.join Py.NL (map comment_line buggy_snippet) in
          let ir4 :=
            Py.join Py.NL
              (Py.slice_to buggy_lines_all start_idx
               ++ [commented; FILL_ME]
               ++ Py.slice_from buggy_lines_all (end_idx + 1)) in
          let or2 := Py.join Py.NL fixed_snippet_lines in
          Ok (Some (ir4, or2))
      end
  end.

Definition build_ir4_or2 (buggy_code fixed_code patch : string)
  : result (option (string * string)) :=
  hunks ← parse_patch_hunks patch;
  build_from_hunks buggy_code fixed_code hunks.

(** ** Credential rotator *)

Definition RATE_LIMIT_SLEEP : Z := 3600.
Definition REQUEST_RETRY_SLEEP : Z := 3.

(** What the process does to the outside, in order: a GET sent with a
    credential, and a [time.sleep]. *)
Inductive event : Type :=
  | EvGet (index : Z) (token : string)
  | EvSleep (seconds : Z).

(** The global [token_index] and the events so far. *)
Record client : Type := mk_client {
  token_index : Z;
  trace : list event
}.

Definition emit (e : event) (c : client) : client :=
  mk_client (token_index c) (trace c ++ [e]).

Section Rotator.

(** The pool [GITHUB_TOKENS]. *)
Variable GITHUB_TOKENS : list string.

(** The decoded body of a response. *)
Context {Json : Type}.

Definition pool_size : Z := Z.of_nat (length GITHUB_TOKENS).

(** The credential [get_headers] sends. *)
Definition get_headers (c : client) : result string :=
  Py.index GITHUB_TOKENS (token_index c).

Definition switch_token (c : client) : client :=
  emit (EvSleep 1)
    (mk_client ((token_index c + 1) mod pool_size) (trace c)).

(** The branch of [github_get] for status 403. *)
Definition rate_limited (c : client) : client :=
  let prev := token_index c in
  let c := switch_token c in
  if (token_index c =? 0) && (prev =? pool_size - 1)
  then emit (EvSleep RATE_LIMIT_SLEEP) c
  else c.

(** [github_get] against a server that answers the successive requests
    with [responses] (status and decoded body).  [Some r] is the value
    returned; [None] means that the loop is still waiting for a
    response when the answers run out. *)
Fixpoint github_get_from (responses : list (Z * Json)) (attempts : Z)
    (c : client) : result (option (option Json)) * client :=
  match responses with
  | [] => (Ok None, c)
  | (status_code, body) :: rest =>
      match get_headers c with
      | Raise e => (Raise e, c)
      | Ok token =>
          let c := emit (EvGet (token_index c) token) c in
          if status_code =? 200 then (Ok (Some (Some body)), c)
          else if status_code =? 403 then
            github_get_from rest attempts (rate_limited c)
          else
            let attempts := attempts + 1 in
            if 3 <? attempts then (Ok (Some None), c)
            else github_get_from rest attempts
                   (emit (EvSleep REQUEST_RETRY_SLEEP) c)
      end
  end.

Definition github_get (responses : list (Z * Json)) (c : client)
  : result (option (option Json)) * client :=
  github_get_from responses 0 c.

End Rotator.

Definition is_cooldown (e : event) : bool :=
  match e with
  | EvSleep n => n =? RATE_LIMIT_SLEEP
  | EvGet _ _ => false
  end.

(** The long sleeps of a trace. *)
Definition cooldowns (t : list event) : list event :=
  List.filter is_cooldown t.

(** The credentials of the requests sent before the first long sleep. *)
Fixpoint tried_before_cooldown (t : list event) : list Z :=
  match t with
  | [] => []
  | EvGet k _ :: t' => k :: tried_before_cooldown t'
  | e :: t' => if is_cooldown e then [] else tried_before_cooldown t'
  end.

(** The events after the first long sleep. *)
Fixpoint after_cooldown (t : list event) : option (list event) :=
  match t with
  | [] => None
  | e :: t' => if is_cooldown e then Some t' else after_cooldown t'
  end.

(** ** Calendar dates

    [datetime.date] with the proleptic Gregorian ordinal, after the
    reference implementation of the [datetime] module. *)

Module Date.

Record date : Type := mk_date { year : Z; month : Z; day : Z }.

Definition MINYEAR : Z := 1.
Definition MAXYEAR : Z := 9999.
Definition MAXORDINAL : Z := 3652059.

Definition DAYS_IN_MONTH : list Z :=
  [-1; 31; 28; 31; 30; 31; 30; 31; 31; 30; 31; 30; 31].
Definition DAYS_BEFORE_MONTH : list Z :=
  [-1; 0; 31; 59; 90; 120; 151; 181; 212; 243; 273; 304; 334].

Definition table (t : list Z) (i : Z) : Z := nth (Z.to_nat i) t 0.

Definition is_leap (y : Z) : bool :=
  (y mod 4 =? 0) && (negb (y mod 100 =? 0) || (y mod 400 =? 0)).

Definition days_before_year (y : Z) : Z :=
  let y := y - 1 in y * 365 + y / 4 - y / 100 + y / 400.

Definition days_in_month (y m : Z) : Z :=
  if (m =? 2) && is_leap y then 29 else table DAYS_IN_MONTH m.

Definition days_before_month (y m : Z) : Z :=
  table DAYS_BEFORE_MONTH m + Z.b2z ((2 <? m) && is_leap y).

Definition ymd2ord (y m d : Z) : Z :=
  days_before_year y + days_before_month y m + d.

Definition DI400Y : Z := 146097.
Definition DI100Y : Z := 36524.
Definition DI4Y : Z := 1461.

(** Month and day of the [n]-th day (from 0) of a year. *)
Definition month_day (leapyear : bool) (n : Z) : Z * Z :=
  let month := Z.shiftr (n + 50) 5 in
  let preceding :=
    table DAYS_BEFORE_MONTH month + Z.b2z ((2 <? month) && leapyear) in
  if n <? preceding then
    let month := month - 1 in
    let preceding :=
      preceding
      - (table DAYS_IN_MONTH month + Z.b2z ((month =? 2) && leapyear)) in
    (month, n - preceding + 1)
  else (month, n - preceding + 1).

Definition ord2ymd (n : Z) : date :=
  let n := n - 1 in
  let n400 := n / DI400Y in
  let n := n mod DI400Y in
  let y := n400 * 400 + 1 in
  let n100 := n / DI100Y in
  let n := n mod DI100Y in
  let n4 := n / DI4Y in
  let n := n mod DI4Y in
  let n1 := n / 365 in
  let n := n mod 365 in
  let y := y + (n100 * 100 + n4 * 4 + n1) in
  if (n1 =? 4) || (n100 =? 4) then mk_date (y - 1) 12 31
  else
    let leapyear := (n1 =? 3) && (negb (n4 =? 24) || (n100 =? 3)) in
    let '(m, d) := month_day leapyear n in
    mk_date y m d.

Definition toordinal (d : date) : Z := ymd2ord (year d) (month d) (day d).

(** The check of the [date] constructor. *)
Definition valid (d : date) : bool :=
  (MINYEAR <=? year d) && (year d <=? MAXYEAR)
  && (1 <=? month d) && (month d <=? 12)
  && (1 <=? day d) && (day d <=? days_in_month (year d) (month d)).

(** [timedelta(days=k)] *)
Definition timedelta (k : Z) : result Z :=
  if (-999999999 <=? k) && (k <=? 999999999) then Ok k
  else Raise OverflowError.

(** [d - delta] *)
Definition sub (d : date) (delta : Z) : result date :=
  let o := toordinal d + - delta in
  if (0 <? o) && (o <=? MAXORDINAL) then Ok (ord2ymd o)
  else Raise OverflowError.

Definition digit_char (d : Z) : ascii := ascii_of_N (Z.to_N (48 + d)).

Definition pad2 (n : Z) : string :=
  String (digit_char (n / 10)) (String (digit_char (n mod 10)) "").

(** [%Y] as the C library prints it: the year in decimal, which is
    four digits from the year 1000 on. *)
Definition year_str (y : Z) : string :=
  let d3 := digit_char (y / 1000) in
  let d2 := digit_char (y / 100 mod 10) in
  let d1 := digit_char (y / 10 mod 10) in
  let d0 := digit_char (y mod 10) in
  if y <? 10 then String d0 ""
  else if y <? 100 then String d1 (String d0 "")
  else if y <? 1000 then String d2 (String d1 (String d0 ""))
  else String d3 (String d2 (String d1 (String d0 ""))).

(** [d.strftime("%Y-%m-%d")] *)
Definition strftime (d : date) : string :=
  year_str (year d) +:+ "-" +:+ pad2 (month d) +:+ "-" +:+ pad2 (day d).

(** Pieces of the pattern that [strptime] builds from the format: a
    group and the text after it. *)
Definition chars2 (p q : ascii -> bool) (s : string)
  : option (string * string) :=
  match s with
  | String a (String b r) =>
      if p a && q b then Some (String a (String b ""), r) else None
  | _ => None
  end.

Definition chars1 (p : ascii -> bool) (s : string)
  : option (string * string) :=
  match s with
  | String a r => if p a then Some (String a "", r) else None
  | "" => None
  end.

Definition orelse {A} (x y : option A) : option A :=
  match x with
  | Some _ => x
  | None => y
  end.

Definition between (lo hi : ascii) (c : ascii) : bool :=
  ((Py.code lo <=? Py.code c) && (Py.code c <=? Py.code hi))%N.

(** [%Y] is [\d\d\d\d]. *)
Definition group_Y (s : string) : option (string * string) :=
  '(a, r) ← chars2 Py.is_digit Py.is_digit s;
  '(b, r) ← chars2 Py.is_digit Py.is_digit r;
  Some (a +:+ b, r).

(** [%m] is [1[0-2]|0[1-9]|[1-9]]. *)
Definition group_m (s : string) : option (string * string) :=
  orelse (chars2 (between "1" "1") (between "0" "2") s)
 (orelse (chars2 (between "0" "0") (between "1" "9") s)
         (chars1 (between "1" "9") s)).

(** [%d] is [3[0-1]|[1-2]\d|0[1-9]|[1-9]| [1-9]]. *)
Definition group_d (s : string) : option (string * string) :=
  orelse (chars2 (between "3" "3") (between "0" "1") s)
 (orelse (chars2 (between "1" "2") Py.is_digit s)
 (orelse (chars2 (between "0" "0") (between "1" "9") s)
 (orelse (chars1 (between "1" "9") s)
         (chars2 (between " " " ") (between "1" "9") s)))).

(** [int] of a group: white space around the digits is ignored. *)
Definition group_int (g : string) : Z := Py.digits_value 0 (Py.strip g).

(** [datetime.strptime(s, "%Y-%m-%d").date()]: the text has to match
    the pattern, nothing may follow the match, and the fields have to
    be a date. *)
Definition strptime (s : string) : result date :=
  let m :=
    '(gY, r) ← group_Y s;
    r ← Py.expect "-" r;
    '(gm, r) ← group_m r;
    r ← Py.expect "-" r;
    '(gd, r) ← group_d r;
    Some (gY, gm, gd, r) in
  match m with
  | None => Raise ValueError
  | Some (gY, gm, gd, r) =>
      if Py.truthy r then Raise ValueError
      else
        let d := mk_date (group_int gY) (group_int gm) (group_int gd) in
        if valid d then Ok d else Raise ValueError
  end.

End Date.

(** [advance_date(end_date_str, days)] *)
Definition advance_date (end_date_str : string) (days : Z) : result string :=
  end_date ← Date.strptime end_date_str;
  delta ← Date.timedelta days;
  new_end ← Date.sub end_date delta;
  Ok (Date.strftime new_end).

(** ** Collector *)

Definition OUTPUT_FILE : string := "python_repairllama_dataset.csv".
Definition SEEN_FILE : string := "seen_commits.txt".
Definition STATE_FILE : string := "collector_state.json".

Definition MAX_COMMITS : Z := 3000.
Definition FILES_LIMIT : Z := 3.
Definition DAYS_PER_RANGE : Z := 7.
Definition MAX_PAGES_PER_QUERY : Z := 10.
Definition KEYWORDS : list string :=
  ["fix"; "bug"; "error"; "issue"; "exception"; "crash"; "typo"].

(** The checkpoint kept in [STATE_FILE]. *)
Record crawl_state : Type := mk_state {
  keyword_index : Z;
  date_end : string;
  page : Z
}.

(** An entry of a search page, a changed file of a commit, and the
    detail of a commit, with the fields the collector reads. *)
Record item : Type := mk_item { item_repo : string; item_sha : string }.

Record file_entry : Type := mk_file {
  filename : string;
  patch : option string
}.

Record commit : Type := mk_commit {
  parents : list string;
  files : list file_entry;
  message : string
}.

(** The calls to the outside. *)
Inductive request : Type :=
  | ReqSearch (query : string) (page : Z)
  | ReqCommit (repo sha : string)
  | ReqFile (repo sha path : string).

(** A computation that stops at an exception keeps the state it had
    reached: what was written stays written. *)
Inductive run (S : Type) : Type :=
  | Running (s : S)
  | Crashed (e : exn) (s : S).

Arguments Running {S} s.
Arguments Crashed {S} e s.

Definition state_of {S} (r : run S) : S :=
  match r with
  | Running s => s
  | Crashed _ s => s
  end.

Definition and_then {S} (r : run S) (k : S -> run S) : run S :=
  match r with
  | Running s => k s
  | Crashed e s => Crashed e s
  end.

Notation "'do' s <- r ; k" := (and_then r (fun s => k))
  (at level 10, s name, r at level 100, k at level 200).

(** The columns of a data row, by position. *)
Definition row_commit_sha (r : list string) : string := nth 2 r "".
Definition row_output_representation (r : list string) : string :=
  nth 5 r "".

Definition HEADER_ROW : list string :=
  ["repo"; "file_path"; "commit_sha"; "commit_message";
   "input_representation"; "output_representation";
   "buggy_code"; "fixed_code"].

Section Collector.

(** The outside world: the three fetch helpers answer from it and may
    change it. *)
Context {World : Type}.
Variable search_commits_query :
  string -> Z -> World -> option (list item) * World.
Variable get_commit_details :
  string -> string -> World -> option commit * World.
Variable fetch_file :
  string -> string -> string -> World -> option string * World.

(** The state of [main]: the world, the calls made, the set
    [seen_commits], the contents of [SEEN_FILE] and of [OUTPUT_FILE],
    the counter [collected], the contents of [STATE_FILE], and the
    variables [keyword_index], [date_end] and [page]. *)
Record process : Type := mk_process {
  world : World;
  requests : list request;
  seen_commits : gset string;
  seen_file : string;
  csv_rows : list (list string);
  collected : Z;
  checkpoint : crawl_state;
  locals : crawl_state
}.

Definition call (r : request) (w : World) (st : process) : process :=
  mk_process w (requests st ++ [r]) (seen_commits st) (seen_file st)
    (csv_rows st) (collected st) (checkpoint st) (locals st).

Definition call_search (query : string) (pg : Z) (st : process)
  : option (list item) * process :=
  let '(r, w) := search_commits_query query pg (world st) in
  (r, call (ReqSearch query pg) w st).

Definition call_commit (repo sha : string) (st : process)
  : option commit * process :=
  let '(r, w) := get_commit_details repo sha (world st) in
  (r, call (ReqCommit repo sha) w st).

Definition call_file (repo sha path : string) (st : process)
  : option string * process :=
  let '(r, w) := fetch_file repo sha path (world st) in
  (r, call (ReqFile repo sha path) w st).

(** Lines 246-254: the row is written, the commit is added to
    [seen_commits] and appended to [SEEN_FILE], and [collected] grows
    by one. *)
Definition record_pair (row : list string) (sha : string) (st : process)
  : process :=
  mk_process (world st) (requests st)
    ({[ sha ]} ∪ seen_commits st)
    (seen_file st +:+ sha +:+ Py.NL)
    (csv_rows st ++ [row])
    (collected st + 1)
    (checkpoint st) (locals st).

(** The body of [for f in files]. *)
Definition process_file (repo sha parent_sha msg : string)
    (f : file_entry) (st : process) : run process :=
  match patch f with
  | None => Running st
  | Some p =>
      if negb (Py.endswith ".py" (filename f)) then Running st else
      let '(buggy, st) := call_file repo parent_sha (filename f) st in
      let '(fixed, st) := call_file repo sha (filename f) st in
      match buggy, fixed with
      | Some buggy, Some fixed =>
          if negb (Py.truthy buggy) || negb (Py.truthy fixed)
             || String.eqb (Py.strip buggy) (Py.strip fixed)
          then Running st
          else
            match build_ir4_or2 buggy fixed p with
            | Raise e => Crashed e st
            | Ok None => Running st
            | Ok (Some (ir4, or2)) =>
                if negb (Py.truthy ir4) || negb (Py.truthy or2)
                then Running st
                else
                  Running
                    (record_pair
                       [repo; filename f; sha; Py.replace_newlines msg;
                        ir4; or2; buggy; fixed] sha st)
            end
      | _, _ => Running st
      end
  end.

Fixpoint process_files (repo sha parent_sha msg : string)
    (fs : list file_entry) (st : process) : run process :=
  match fs with
  | [] => Running st
  | f :: fs' =>
      do st <- process_file repo sha parent_sha msg f st;
      process_files repo sha parent_sha msg fs' st
  end.

(** The body of [for item in res["items"]] after the test of
    [collected]. *)
Definition process_item (it : item) (st : process) : run process :=
  let repo := item_repo it in
  let sha := item_sha it in
  if decide (sha ∈ seen_commits st) then Running st else
  let '(c, st) := call_commit repo sha st in
  match c with
  | None => Running st
  | Some c =>
      match parents c with
      | [] => Running st
      | parent_sha :: _ =>
          match files c with
          | [] => Running st
          | _ :: _ =>
              if FILES_LIMIT <? Z.of_nat (length (files c))
              then Running st
              else process_files repo sha parent_sha (message c)
                     (files c) st
          end
      end
  end.

Fixpoint process_items (items : list item) (st : process) : run process :=
  match items with
  | [] => Running st
  | it :: items' =>
      if MAX_COMMITS <=? collected st then Running st else
      do st <- process_item it st;
      process_items items' st
  end.

(** [save_state] *)
Definition save_state (s : crawl_state) (st : process) : process :=
  mk_process (world st) (requests st) (seen_commits st) (seen_file st)
    (csv_rows st) (collected st) s (locals st).

Definition set_locals (s : crawl_state) (st : process) : process :=
  mk_process (world st) (requests st) (seen_commits st) (seen_file st)
    (csv_rows st) (collected st) (checkpoint st) s.

(** The loop over the pages of one query; [remaining] is
    [MAX_PAGES_PER_QUERY - pages_used]. *)
Fixpoint pages_loop (remaining : nat) (query : string) (st : process)
  : run process :=
  match remaining with
  | O => Running st
  | S remaining' =>
      if MAX_COMMITS <=? collected st then Running st else
      let '(res, st) := call_search query (page (locals st)) st in
      match res with
      | None => Running st
      | Some [] => Running st
      | Some items =>
          do st <- process_items items st;
          let l := locals st in
          let l := mk_state (keyword_index l) (date_end l) (page l + 1) in
          let st := set_locals l st in
          pages_loop remaining' query (save_state l st)
      end
  end.

(** The query of a window: a keyword and the [DAYS_PER_RANGE] days that
    end at [date_end]. *)
Definition window_query (l : crawl_state) : result string :=
  keyword ← Py.index KEYWORDS
              (keyword_index l mod Z.of_nat (length KEYWORDS));
  end_date ← Date.strptime (date_end l);
  delta ← Date.timedelta (DAYS_PER_RANGE - 1);
  start_date ← Date.sub end_date delta;
  let date_range :=
    Date.strftime start_date +:+ ".." +:+ Date.strftime end_date in
  Ok (keyword +:+ "+language:Python+committer-date:" +:+ date_range).

(** One turn of [while collected < MAX_COMMITS]: the pages of the
    window, then the step to the next window and keyword. *)
Definition window_turn (st : process) : run process :=
  match window_query (locals st) with
  | Raise e => Crashed e st
  | Ok query =>
      do st <- pages_loop (Z.to_nat MAX_PAGES_PER_QUERY) query st;
      match advance_date (date_end (locals st)) DAYS_PER_RANGE with
      | Raise e => Crashed e st
      | Ok d =>
          let l := mk_state (keyword_index (locals st) + 1) d 1 in
          Running (save_state l (set_locals l st))
      end
  end.

(** The outer loop.  [fuel] bounds the number of turns: the loop has
    run to its end when the state returned has
    [MAX_COMMITS <= collected] or is [Crashed]. *)
Fixpoint main_loop (fuel : nat) (st : process) : run process :=
  if MAX_COMMITS <=? collected st then Running st else
  match fuel with
  | O => Running st
  | S fuel' =>
      do st <- window_turn st;
      main_loop fuel' st
  end.

(** [load_state]: the checkpoint of the file, or a fresh one that ends
    today. *)
Definition load_state (today : Date.date) (file : option crawl_state)
  : crawl_state :=
  match file with
  | Some s => s
  | None => mk_state 0 (Date.strftime today) 1
  end.

(** [{line.strip() for line in f if line.strip()}] *)
Definition load_seen (content : string) : gset string :=
  list_to_set
    (List.filter Py.truthy (map Py.strip (Py.file_lines content))).

(** [main], from the three files as they are found and the date of
    the day.  An absent file is [None]. *)
Definition main (fuel : nat) (GITHUB_TOKENS : list string)
    (today : Date.date) (state_file : option crawl_state)
    (seen : option string) (output : option (list (list string)))
    (w : World) : result (run process) :=
  match GITHUB_TOKENS with
  | [] => Raise ValueError
  | _ :: _ =>
      let state := load_state today state_file in
      let seen_set :=
        match seen with
        | Some content => load_seen content
        | None => ∅
        end in
      let rows :=
        match output with
        | Some rows => rows
        | None => [HEADER_ROW]
        end in
      Ok (main_loop fuel
            (mk_process w [] seen_set (default "" seen) rows 0
               state state))
  end.

End Collector.

(** ** Reset script *)

Definition TRACKER_FILES : list string := ["seen_commits.txt"; "last_date.txt"].
Definition BACKUP_DIR : string := "backups".

(** [os.path.join] of a directory and a relative name. *)
Definition path_join (dir name : string) : string := dir +:+ "/" +:+ name.

(** The body of the loop of [backup_and_reset] for one name: a file
    that exists is copied under [backup_subdir] and removed. *)
Definition backup_one (backup_subdir : string) (fs : gmap string string)
    (file : string) : gmap string string :=
  match fs !! file with
  | Some content =>
      delete file (<[path_join backup_subdir file := content]> fs)
  | None => fs
  end.

(** [backup_and_reset] on the files [fs] of the working directory, a
    map from path to contents; [timestamp] is the formatted time of the
    call. *)
Definition backup_and_reset (timestamp : string) (fs : gmap string string)
  : gmap string string :=
  let backup_subdir := path_join BACKUP_DIR ("backup_" +:+ timestamp) in
  fold_left (backup_one backup_subdir) TRACKER_FILES fs.

(** The script: the reset runs when the answer, stripped and in lower
    case, is [yes]. *)
Definition reset_tracker_files (answer timestamp : string)
    (fs : gmap string string) : gmap string string :=
  let confirm := Py.lower (Py.strip answer) in
  if String.eqb confirm "yes" then backup_and_reset timestamp fs else fs.

(* ================================================================== *)
(** * Properties *)

(** ** Diff hunk parser and pair builder *)

(** C7: the header [@@ -10,3 +10,5 @@] gives a hunk with [o_start = 10],
    [o_len = 3], [n_start = 10], [n_len = 5], and the header
    [@@ -4 +4 @@], which omits both lengths, gives a hunk in which both
    lengths are 1.  Whatever follows the header on its line does not
    change the groups. *)
Theorem C7_header_fields :
  parse_patch_hunks "@@ -10,3 +10,5 @@" = Ok [mk_hunk 10 3 10 5 []]
  /\ parse_patch_hunks "@@ -4 +4 @@" = Ok [mk_hunk 4 1 4 1 []]
  /\ (forall tail : string,
        header_re_match ("@@ -10,3 +10,5 @@" +:+ tail)
          = Some ("10", Some "3", "10", Some "5")
        /\ header_re_match ("@@ -4 +4 @@" +:+ tail)
          = Some ("4", None, "4", None))
  /\ int_or_1 None = Ok 1.
Proof.
  repeat split; reflexivity.
Qed.

Lemma build_ir4_or2_parsed (buggy fixed patch : string) (hunks : list hunk) :
  parse_patch_hunks patch = Ok hunks ->
  build_ir4_or2 buggy fixed patch = build_from_hunks buggy fixed hunks.
Proof.
  intros H. unfold build_ir4_or2. rewrite H. reflexivity.
Qed.

Lemma added_lines_single (h : hunk) :
  added_lines [h] = map Py.tail (List.filter is_added (lines h)).
Proof.
  unfold added_lines. simpl. apply app_nil_r.
Qed.

(** C1: for a buggy file with the lines a, b, c, d, e and a patch with
    one hunk over the original lines 2-3 whose only added line is B2,
    the output representation is [B2] and the input representation has
    the lines a, the comments of b and c, the placeholder, d and e. *)
Theorem C1_pair_example (buggy fixed patch : string) (h : hunk) :
  Py.splitlines buggy = ["a"; "b"; "c"; "d"; "e"] ->
  parse_patch_hunks patch = Ok [h] ->
  o_start h = 2 ->
  o_len h = 2 ->
  added_lines [h] = ["B2"] ->
  exists ir4 : string,
    build_ir4_or2 buggy fixed patch = Ok (Some (ir4, "B2"))
    /\ Py.splitlines ir4 = ["a"; "# b"; "# c"; FILL_ME; "d"; "e"].
Proof.
  intros Hb Hp Hs Hl Ha.
  rewrite (build_ir4_or2_parsed _ _ _ _ Hp).
  unfold build_from_hunks, envelope.
  rewrite Hb, Ha. simpl. rewrite Hs, Hl. simpl.
  eexists. split; [reflexivity | vm_compute; reflexivity].
Qed.

Lemma C1_pair_example_witness :
  exists ir4 : string,
    build_ir4_or2 (lines_of ["a"; "b"; "c"; "d"; "e"]) "a"
      (lines_of ["@@ -2,2 +2,1 @@"; "-b"; "-c"; "+B2"])
    = Ok (Some (ir4, "B2"))
    /\ Py.splitlines ir4 = ["a"; "# b"; "# c"; FILL_ME; "d"; "e"].
Proof.
  apply (C1_pair_example _ _ _ (mk_hunk 2 2 2 1 ["-b"; "-c"; "+B2"]));
    reflexivity.
Defined.

(** C8: when the parsed hunks of a patch have no added line, the pair
    builder returns no pair, whatever the buggy and the fixed text. *)
Theorem C8_no_added_lines (buggy fixed patch : string) (hunks : list hunk) :
  parse_patch_hunks patch = Ok hunks ->
  added_lines hunks = [] ->
  build_ir4_or2 buggy fixed patch = Ok None.
Proof.
  intros Hp Ha.
  rewrite (build_ir4_or2_parsed _ _ _ _ Hp).
  unfold build_from_hunks.
  destruct hunks as [|h hs]; [reflexivity|].
  rewrite Ha.
  destruct (envelope (Py.splitlines buggy) (h :: hs)) as [[s e]|x] eqn:He.
  - simpl. destruct (e <? s); reflexivity.
  - unfold envelope in He. simpl in He. discriminate.
Qed.

Lemma C8_no_added_lines_witness :
  build_ir4_or2 (lines_of ["a"; "b"; "c"]) (lines_of ["a"; "c"])
    (lines_of ["--- a/f.py"; "+++ b/f.py"; "@@ -1,3 +1,2 @@"; " a"; "-b"; " c"])
  = Ok None.
Proof.
  apply (C8_no_added_lines _ _ _ [mk_hunk 1 3 1 2 [" a"; "-b"; " c"]]);
    reflexivity.
Defined.

(** ** Credential rotator *)

(** The indices of the credentials that the requests of a trace used. *)
Definition tried (t : list event) : list Z :=
  flat_map (fun e => match e with EvGet k _ => [k] | EvSleep _ => [] end) t.

(** The reading of the rotation that lets the long sleep follow a full
    tour of the pool from the index [start] on: against a server that
    answers every request with 403, a long sleep has happened exactly
    when every credential has been tried, and right after a long sleep
    the index is [start] again. *)
Definition wrap_after_full_tour (pool : list string) (start : Z) : Prop :=
  forall n : nat,
    let c := snd (github_get pool (repeat (403, tt) n) (mk_client start [])) in
    (cooldowns (trace c) <> []
     <-> forall k, 0 <= k < pool_size pool -> In k (tried (trace c)))
    /\ (last (trace c) = Some (EvSleep RATE_LIMIT_SLEEP) ->
        token_index c = start).

Lemma rate_limited_spec (pool : list string) (c : client) :
  token_index (rate_limited pool c) = (token_index c + 1) mod pool_size pool
  /\ trace (rate_limited pool c)
     = trace c ++ EvSleep 1 ::
         (if token_index c =? pool_size pool - 1
          then [EvSleep RATE_LIMIT_SLEEP] else []).
Proof.
  unfold rate_limited, switch_token, emit. simpl.
  destruct (token_index c =? pool_size pool - 1) eqn:E.
  - apply Z.eqb_eq in E.
    assert (H : (token_index c + 1) mod pool_size pool = 0).
    { rewrite E. replace (pool_size pool - 1 + 1) with (pool_size pool) by lia.
      destruct (Z.eq_dec (pool_size pool) 0) as [H0|H0].
      - rewrite H0. reflexivity.
      - apply Z.mod_same. exact H0. }
    rewrite H. simpl. split; [reflexivity|].
    rewrite <- app_assoc. reflexivity.
  - rewrite andb_false_r. simpl. split; reflexivity.
Qed.

(** C3, as the code has it: in a pool of three credentials, three
    rate-limited requests in a row (one tour of the pool) contain exactly
    one long sleep and leave the index where the tour began, from every
    starting index; the long sleep is the one that follows the step from
    the last credential to the first, so the index right after it is 0. *)
Theorem C3_rotation_cycle {Json : Type} (t0 t1 t2 : string)
    (b1 b2 b3 : Json) (i : Z) (tr : list event) :
  0 <= i < 3 ->
  let pool := [t0; t1; t2] in
  let rc := github_get pool [(403, b1); (403, b2); (403, b3)]
              (mk_client i tr) in
  fst rc = Ok None
  /\ token_index (snd rc) = i
  /\ (exists new,
        trace (snd rc) = tr ++ new
        /\ length (cooldowns new) = 1%nat
        /\ tried new = [i; (i + 1) mod 3; (i + 2) mod 3])
  /\ (forall c : client,
        token_index (rate_limited pool c) = (token_index c + 1) mod 3
        /\ trace (rate_limited pool c)
           = trace c ++ EvSleep 1 ::
               (if token_index c =? 2
                then [EvSleep RATE_LIMIT_SLEEP] else [])).
Proof.
  intros Hi pool rc.
  assert (Hc : i = 0 \/ i = 1 \/ i = 2) by lia.
  split; [|split; [|split]].
  - destruct Hc as [->|[->| ->]]; reflexivity.
  - destruct Hc as [->|[->| ->]]; reflexivity.
  - destruct Hc as [->|[->| ->]]; subst rc pool; cbv -[app];
      repeat rewrite <- app_assoc; simpl;
      eexists; (split; [reflexivity|]); split; reflexivity.
  - intros c. apply (rate_limited_spec pool c).
Qed.

Lemma C3_rotation_cycle_witness :
  let rc := github_get ["k0"; "k1"; "k2"] [(403, tt); (403, tt); (403, tt)]
              (mk_client 1 []) in
  fst rc = Ok None
  /\ token_index (snd rc) = 1
  /\ trace (snd rc)
     = [EvGet 1 "k1"; EvSleep 1; EvGet 2 "k2"; EvSleep 1;
        EvSleep RATE_LIMIT_SLEEP; EvGet 0 "k0"; EvSleep 1].
Proof.
  pose proof (C3_rotation_cycle "k0" "k1" "k2" tt tt tt 1 []
                ltac:(lia)) as H.
  cbv zeta in H. destruct H as (H1 & H2 & _ & _).
  split; [exact H1|]. split; [exact H2|]. reflexivity.
Defined.

(** C3 as stated fails from the index 1: after two rate-limited
    requests the long sleep has happened although the credential 0 has
    not been tried, and the index after it is 0, not 1. *)
Lemma C3_counterexample : ~ wrap_after_full_tour ["k0"; "k1"; "k2"] 1.
Proof.
  intros H. specialize (H 2%nat). cbv zeta in H.
  destruct H as [_ H]. specialize (H eq_refl). discriminate H.
Qed.

(** ** Reset script *)

Lemma backup_one_other (sub : string) (fs : gmap string string)
    (file k : string) :
  file <> k ->
  path_join sub file <> k ->
  backup_one sub fs file !! k = fs !! k.
Proof.
  intros H1 H2. unfold backup_one.
  destruct (fs !! file) as [content|]; [|reflexivity].
  rewrite lookup_delete_ne by exact H1.
  rewrite lookup_insert_ne by exact H2.
  reflexivity.
Qed.

Lemma backup_one_removed (sub : string) (fs : gmap string string)
    (file : string) :
  backup_one sub fs file !! file = None.
Proof.
  unfold backup_one.
  destruct (fs !! file) as [content|] eqn:E; [|exact E].
  apply lookup_delete_eq.
Qed.

Lemma path_join_inj (dir a b : string) :
  path_join dir a = path_join dir b -> a = b.
Proof.
  unfold path_join. induction dir as [|c dir IH]; intros E.
  - injection E as E. exact E.
  - injection E as E. apply IH. exact E.
Qed.

Lemma backup_path_not_plain (ts file k : string) :
  Py.startswith "b" k = false ->
  path_join (path_join BACKUP_DIR ("backup_" +:+ ts)) file <> k.
Proof.
  intros H E. rewrite <- E in H. vm_compute in H. discriminate H.
Qed.

(** C9, what the script does: it backs up and removes [seen_commits.txt]
    (and [last_date.txt]), and leaves both the dataset and the
    checkpoint file [collector_state.json] of the collector in place, so
    the next [load_state] returns the old checkpoint. *)
Theorem C9_reset_keeps_collector_state (ts : string)
    (fs : gmap string string) :
  backup_and_reset ts fs !! STATE_FILE = fs !! STATE_FILE
  /\ backup_and_reset ts fs !! OUTPUT_FILE = fs !! OUTPUT_FILE
  /\ backup_and_reset ts fs !! SEEN_FILE = None
  /\ backup_and_reset ts fs
       !! path_join (path_join BACKUP_DIR ("backup_" +:+ ts)) SEEN_FILE
     = match fs !! SEEN_FILE with
       | Some content => Some content
       | None =>
           fs !! path_join (path_join BACKUP_DIR ("backup_" +:+ ts)) SEEN_FILE
       end
  /\ (forall (decode : string -> crawl_state) (today : Date.date),
        load_state today (decode <$> backup_and_reset ts fs !! STATE_FILE)
        = load_state today (decode <$> fs !! STATE_FILE)).
Proof.
  assert (HS : backup_and_reset ts fs !! STATE_FILE = fs !! STATE_FILE).
  { unfold backup_and_reset. simpl.
    rewrite !backup_one_other;
      try reflexivity; try discriminate;
      apply backup_path_not_plain; reflexivity. }
  split; [exact HS|]. split; [|split; [|split]].
  - unfold backup_and_reset. simpl.
    rewrite !backup_one_other;
      try reflexivity; try discriminate;
      apply backup_path_not_plain; reflexivity.
  - unfold backup_and_reset. simpl.
    rewrite backup_one_other;
      [apply backup_one_removed | discriminate
      | apply backup_path_not_plain; reflexivity].
  - unfold backup_and_reset. simpl.
    rewrite backup_one_other.
    + unfold backup_one, SEEN_FILE.
      destruct (fs !! "seen_commits.txt") as [content|]; [|reflexivity].
      rewrite lookup_delete_ne.
      * apply lookup_insert_eq.
      * intros E. symmetry in E. revert E.
        apply backup_path_not_plain. reflexivity.
    + intros E. symmetry in E. revert E.
      apply backup_path_not_plain. reflexivity.
    + intros E. apply path_join_inj in E. discriminate E.
  - intros decode today. rewrite HS. reflexivity.
Qed.

(** ** The body of a hunk *)

Definition is_hunk_header (l : string) : bool :=
  match header_re_match l with
  | Some _ => true
  | None => false
  end.

Definition is_marker (l : string) : bool := Py.startswith "@@ " l.

(** The reading in which a body runs to the next hunk header: the lines
    after a header up to the next line that matches the header pattern,
    or to the end. *)
Fixpoint lines_to_next_header (ls : list string) : list string :=
  match ls with
  | [] => []
  | l :: ls' => if is_hunk_header l then [] else l :: lines_to_next_header ls'
  end.

Fixpoint bodies_to_next_header (ls : list string) : list (list string) :=
  match ls with
  | [] => []
  | l :: ls' =>
      if is_hunk_header l
      then lines_to_next_header ls' :: bodies_to_next_header ls'
      else bodies_to_next_header ls'
  end.

Definition bodies_span_to_next_header (patch : string) : Prop :=
  forall hs : list hunk,
    parse_patch_hunks patch = Ok hs ->
    map lines hs = bodies_to_next_header (Py.splitlines patch).

(** The parser by recursion on the lines: after a header the scan can
    go on at the very next line, because no line of the body is a
    header. *)
Fixpoint hunks_of (ls : list string) : result (list hunk) :=
  match ls with
  | [] => Ok []
  | l :: ls' =>
      match header_re_match l with
      | Some g =>
          '(os, ol, ns, nl) ← header_fields g;
          hs ← hunks_of ls';
          Ok (mk_hunk os ol ns nl (fst (take_hunk_lines ls')) :: hs)
      | None => hunks_of ls'
      end
  end.

Lemma expect_Some (p l s : string) :
  Py.expect p l = Some s -> l = String.append p s.
Proof.
  revert l. induction p as [|a p IH]; intros l H; cbn [Py.expect] in H.
  - injection H as ->. reflexivity.
  - destruct l as [|b l]; [discriminate H|].
    destruct (Ascii.eqb_spec a b) as [<-|]; [|discriminate H].
    change (String a p +:+ s) with (String a (p +:+ s)).
    f_equal. apply IH. exact H.
Qed.

Lemma header_is_marker (l : string) :
  is_hunk_header l = true -> is_marker l = true.
Proof.
  unfold is_hunk_header, header_re_match.
  destruct (Py.expect "@@ -" l) as [s|] eqn:E; [|discriminate].
  intros _. apply expect_Some in E. subst l. reflexivity.
Qed.

Lemma take_hunk_lines_split (ls : list string) :
  ls = fst (take_hunk_lines ls) ++ snd (take_hunk_lines ls)
  /\ Forall (fun l => is_marker l = false) (fst (take_hunk_lines ls))
  /\ (snd (take_hunk_lines ls) = []
      \/ exists m post,
           snd (take_hunk_lines ls) = m :: post /\ is_marker m = true).
Proof.
  induction ls as [|l ls IH]; simpl.
  - repeat split; [constructor | left; reflexivity].
  - fold (is_marker l). destruct (is_marker l) eqn:E; simpl.
    + repeat split; [constructor | right; eauto].
    + destruct (take_hunk_lines ls) as [b r]. simpl in *.
      destruct IH as (H1 & H2 & H3).
      repeat split; [congruence | constructor; assumption | exact H3].
Qed.

Lemma hunks_of_skip_body (ls : list string) :
  hunks_of (snd (take_hunk_lines ls)) = hunks_of ls.
Proof.
  induction ls as [|l ls IH]; simpl; [reflexivity|].
  fold (is_marker l). destruct (is_marker l) eqn:E; simpl; [reflexivity|].
  destruct (take_hunk_lines ls) as [b r]. simpl in *.
  rewrite IH.
  destruct (header_re_match l) as [g|] eqn:Eh; [|reflexivity].
  assert (is_marker l = true).
  { apply header_is_marker. unfold is_hunk_header. rewrite Eh. reflexivity. }
  congruence.
Qed.

Lemma take_hunk_lines_length (ls : list string) :
  (length (snd (take_hunk_lines ls)) <= length ls)%nat.
Proof.
  induction ls as [|l ls IH]; simpl; [lia|].
  destruct (Py.startswith "@@ " l); simpl; [lia|].
  destruct (take_hunk_lines ls) as [b r]. simpl in *. lia.
Qed.

Lemma parse_from_hunks_of (fuel : nat) (ls : list string) :
  (length ls <= fuel)%nat -> parse_from fuel ls = hunks_of ls.
Proof.
  revert ls. induction fuel as [|fuel IH]; intros ls Hl.
  - destruct ls; [reflexivity | simpl in Hl; lia].
  - destruct ls as [|l ls]; [reflexivity|]. simpl in Hl. simpl.
    destruct (header_re_match l) as [g|]; [|apply IH; lia].
    destruct (header_fields g) as [[[[os ol] ns] nl]|e]; [|reflexivity].
    simpl.
    pose proof (take_hunk_lines_length ls) as Hr.
    pose proof (hunks_of_skip_body ls) as Hs.
    destruct (take_hunk_lines ls) as [b r]. simpl in *.
    rewrite IH by lia. rewrite Hs. reflexivity.
Qed.

Lemma parse_patch_hunks_hunks_of (patch : string) :
  parse_patch_hunks patch = hunks_of (Py.splitlines patch).
Proof.
  unfold parse_patch_hunks. apply parse_from_hunks_of. lia.
Qed.

Lemma hunks_of_lookup (ls : list string) :
  forall (hs : list hunk) (k : nat) (h : hunk),
    hunks_of ls = Ok hs ->
    hs !! k = Some h ->
    exists pre hd post,
      ls = pre ++ hd :: lines h ++ post
      /\ (exists g, header_re_match hd = Some g
                    /\ header_fields g
                       = Ok (o_start h, o_len h, n_start h, n_len h))
      /\ length (List.filter is_hunk_header pre) = k
      /\ Forall (fun l => is_marker l = false) (lines h)
      /\ (post = []
          \/ exists m post', post = m :: post' /\ is_marker m = true).
Proof.
  induction ls as [|l ls IH]; intros hs k h Hp Hk.
  - simpl in Hp. injection Hp as <-. discriminate Hk.
  - simpl in Hp. destruct (header_re_match l) as [g|] eqn:Eh.
    + destruct (header_fields g) as [[[[os ol] ns] nl]|e] eqn:Ef;
        [|discriminate Hp].
      simpl in Hp.
      destruct (hunks_of ls) as [hs'|e] eqn:Er; [|discriminate Hp].
      simpl in Hp. injection Hp as <-.
      destruct k as [|k].
      * simpl in Hk. injection Hk as <-. simpl.
        destruct (take_hunk_lines_split ls) as (H1 & H2 & H3).
        exists [], l, (snd (take_hunk_lines ls)). simpl.
        repeat split; try assumption.
        -- f_equal. exact H1.
        -- exists g. split; assumption.
      * simpl in Hk.
        destruct (IH hs' k h eq_refl Hk)
          as (pre & hd & post & H1 & H2 & H3 & H4 & H5).
        exists (l :: pre), hd, post. simpl.
        repeat split; try assumption.
        -- f_equal. exact H1.
        -- unfold is_hunk_header at 1. rewrite Eh. simpl. f_equal. exact H3.
    + destruct (IH hs k h Hp Hk)
        as (pre & hd & post & H1 & H2 & H3 & H4 & H5).
      exists (l :: pre), hd, post. simpl.
      repeat split; try assumption.
      * f_equal. exact H1.
      * unfold is_hunk_header at 1. rewrite Eh. exact H3.
Qed.

Lemma hunks_of_length (ls : list string) (hs : list hunk) :
  hunks_of ls = Ok hs ->
  length hs = length (List.filter is_hunk_header ls).
Proof.
  revert hs. induction ls as [|l ls IH]; intros hs Hp; simpl in Hp.
  - injection Hp as <-. reflexivity.
  - simpl. unfold is_hunk_header at 1.
    destruct (header_re_match l) as [g|].
    + destruct (header_fields g) as [[[[os ol] ns] nl]|e];
        [|discriminate Hp].
      simpl in Hp.
      destruct (hunks_of ls) as [hs'|e]; [|discriminate Hp].
      simpl in Hp. injection Hp as <-. simpl. f_equal. apply IH.
      reflexivity.
    + apply IH. exact Hp.
Qed.

(** C6, as the code has it: the hunk number [k] of a patch comes from
    the header line number [k], and its body is exactly the lines
    between that header and the next line that starts with ["@@ "],
    whether that line is a header or not, or the end of the text; there
    is one hunk for each header line. *)
Theorem C6_hunk_body (patch : string) (hs : list hunk) (k : nat) (h : hunk) :
  parse_patch_hunks patch = Ok hs ->
  hs !! k = Some h ->
  length hs = length (List.filter is_hunk_header (Py.splitlines patch))
  /\ exists pre hd post,
       Py.splitlines patch = pre ++ hd :: lines h ++ post
       /\ (exists g, header_re_match hd = Some g
                     /\ header_fields g
                        = Ok (o_start h, o_len h, n_start h, n_len h))
       /\ length (List.filter is_hunk_header pre) = k
       /\ Forall (fun l => Py.startswith "@@ " l = false) (lines h)
       /\ (post = []
           \/ exists m post',
                post = m :: post' /\ Py.startswith "@@ " m = true).
Proof.
  intros Hp Hk. rewrite parse_patch_hunks_hunks_of in Hp.
  split.
  - apply hunks_of_length. exact Hp.
  - apply (hunks_of_lookup _ hs k h Hp Hk).
Qed.

Lemma C6_hunk_body_witness :
  let patch :=
    lines_of ["@@ -1 +1 @@"; "+x"; "@@ bogus"; "+y"; "@@ -7,2 +7 @@"; "-z"] in
  exists pre hd post,
    Py.splitlines patch = pre ++ hd :: ["-z"] ++ post
    /\ length (List.filter is_hunk_header pre) = 1%nat.
Proof.
  intros patch.
  destruct (C6_hunk_body patch
              [mk_hunk 1 1 1 1 ["+x"]; mk_hunk 7 2 7 1 ["-z"]] 1
              (mk_hunk 7 2 7 1 ["-z"]) eq_refl eq_refl)
    as (_ & pre & hd & post & H1 & _ & H3 & _).
  exists pre, hd, post. split; [exact H1 | exact H3].
Defined.

(** C6 as stated fails: a line that starts with ["@@ "] and is not a
    header ends the body, so the lines after it up to the next header
    belong to no hunk. *)
Lemma C6_counterexample :
  ~ bodies_span_to_next_header
      (lines_of ["@@ -1 +1 @@"; "+x"; "@@ bogus"; "+y"]).
Proof.
  intros H.
  specialize (H [mk_hunk 1 1 1 1 ["+x"]] eq_refl).
  vm_compute in H. discriminate H.
Qed.

(** ** Collector: what a run adds *)

Lemma append_assoc (a b c : string) : (a +:+ b) +:+ c = a +:+ (b +:+ c).
Proof.
  induction a as [|x a IH]; [reflexivity|].
  change (String x ((a +:+ b) +:+ c) = String x (a +:+ (b +:+ c))).
  f_equal. exact IH.
Qed.

Lemma append_nil_r (a : string) : a +:+ "" = a.
Proof.
  induction a as [|x a IH]; [reflexivity|].
  change (String x (a +:+ "") = String x a). f_equal. exact IH.
Qed.

(** The text that the rows [new] add to [SEEN_FILE]: the commit of each
    row on a line of its own. *)
Fixpoint sha_lines (new : list (list string)) : string :=
  match new with
  | [] => ""
  | r :: new' => row_commit_sha r +:+ Py.NL +:+ sha_lines new'
  end.

Lemma sha_lines_app (a b : list (list string)) :
  sha_lines (a ++ b) = sha_lines a +:+ sha_lines b.
Proof.
  induction a as [|r a IH]; [reflexivity|].
  simpl. rewrite IH. rewrite !append_assoc. reflexivity.
Qed.

(** [effects P Q st st']: from [st] to [st'] the rows [new], all with
    [P], were appended to the dataset, the calls [reqs], all with [Q],
    were made, and the set and the file of seen commits and the counter
    grew by exactly the commits of [new]. *)
Definition effects {World : Type} (P : list string -> Prop)
    (Q : request -> Prop) (st st' : @process World) : Prop :=
  exists (new : list (list string)) (reqs : list request),
    csv_rows st' = csv_rows st ++ new
    /\ requests st' = requests st ++ reqs
    /\ seen_commits st'
       = list_to_set (map row_commit_sha new) ∪ seen_commits st
    /\ seen_file st' = seen_file st +:+ sha_lines new
    /\ collected st' = collected st + Z.of_nat (length new)
    /\ Forall P new
    /\ Forall Q reqs.

(** The rows and the calls that belong to the commit [sha]. *)
Definition row_of (sha : string) (r : list string) : Prop :=
  row_commit_sha r = sha /\ row_output_representation r <> "".

Definition req_of_item (sha : string) (q : request) : Prop :=
  match q with
  | ReqCommit _ s => s = sha
  | ReqFile _ _ _ => True
  | ReqSearch _ _ => False
  end.

(** The rows and the calls that do not concern a commit of [base]: no
    row of such a commit, no fetch of its detail. *)
Definition row_fresh (base : gset string) (r : list string) : Prop :=
  (row_commit_sha r ∉ base) /\ row_output_representation r <> "".

Definition req_fresh (base : gset string) (q : request) : Prop :=
  match q with
  | ReqCommit _ s => s ∉ base
  | _ => True
  end.

(** The two tests of line 237: the name and the presence of a patch. *)
Definition skipped_by_name_or_patch (f : file_entry) : bool :=
  match patch f with
  | None => true
  | Some _ => negb (Py.endswith ".py" (filename f))
  end.

(** The test of line 241,
    [not buggy or not fixed or buggy.strip() == fixed.strip()], on what
    the two calls of [fetch_file] returned; [None] is false. *)
Definition texts_rejected (buggy fixed : option string) : bool :=
  match buggy, fixed with
  | Some b, Some fx =>
      negb (Py.truthy b) || negb (Py.truthy fx)
      || String.eqb (Py.strip b) (Py.strip fx)
  | _, _ => true
  end.

(** The test of line 244, [not ir4 or not or2], on what [build_ir4_or2]
    returned; the pair [(None, None)] is [None]. *)
Definition pair_rejected (built : option (string * string)) : bool :=
  match built with
  | Some (ir4, or2) => negb (Py.truthy ir4) || negb (Py.truthy or2)
  | None => true
  end.

(** The reading in which a commit whose files were all gone through is
    seen afterwards: the detail was fetched, the commit has a parent and
    between one and [FILES_LIMIT] files, and the loop over the files ran
    to its end. *)
Definition marks_attempted_commits_seen : Prop :=
  forall (World : Type)
    (get_commit_details : string -> string -> World -> option commit * World)
    (fetch_file :
       string -> string -> string -> World -> option string * World)
    (it : item) (st st' : @process World) (c : commit) (w : World),
    item_sha it ∉ seen_commits st ->
    get_commit_details (item_repo it) (item_sha it) (world st) = (Some c, w) ->
    parents c <> [] ->
    files c <> [] ->
    Z.of_nat (length (files c)) <= FILES_LIMIT ->
    process_item get_commit_details fetch_file it st = Running st' ->
    item_sha it ∈ seen_commits st'.

Section CollectorFacts.

Context {World : Type}.
Variable search_commits_query :
  string -> Z -> World -> option (list item) * World.
Variable get_commit_details :
  string -> string -> World -> option commit * World.
Variable fetch_file :
  string -> string -> string -> World -> option string * World.

Implicit Types st : @process World.

Lemma effects_refl P Q st : effects P Q st st.
Proof.
  exists [], []. rewrite !app_nil_r. simpl. rewrite append_nil_r.
  repeat split; try constructor. set_solver. lia.
Qed.

Lemma effects_trans P Q st1 st2 st3 :
  effects P Q st1 st2 -> effects P Q st2 st3 -> effects P Q st1 st3.
Proof.
  intros (n1 & r1 & A1 & A2 & A3 & A4 & A5 & A6 & A7)
         (n2 & r2 & B1 & B2 & B3 & B4 & B5 & B6 & B7).
  exists (n1 ++ n2), (r1 ++ r2).
  rewrite B1, B2, B3, B4, B5, A1, A2, A3, A4, A5.
  rewrite !app_assoc, map_app, sha_lines_app, append_assoc, length_app.
  repeat split.
  - rewrite list_to_set_app_L. set_solver.
  - lia.
  - apply Forall_app. split; assumption.
  - apply Forall_app. split; assumption.
Qed.

Lemma effects_weaken (P P' : list string -> Prop) (Q Q' : request -> Prop)
    st st' :
  (forall r, P r -> P' r) -> (forall q, Q q -> Q' q) ->
  effects P Q st st' -> effects P' Q' st st'.
Proof.
  intros HP HQ (n & r & A1 & A2 & A3 & A4 & A5 & A6 & A7).
  exists n, r. repeat split; try assumption.
  - eapply Forall_impl; [exact A6 | exact HP].
  - eapply Forall_impl; [exact A7 | exact HQ].
Qed.

Lemma effects_call P (Q : request -> Prop) (q : request) (w : World) st :
  Q q -> effects P Q st (call q w st).
Proof.
  intros Hq. exists [], [q]. simpl. rewrite app_nil_r, append_nil_r.
  repeat split; try constructor; try assumption; try constructor.
  set_solver. lia.
Qed.

Lemma effects_record_pair (P : list string -> Prop) Q
    (row : list string) st :
  P row -> effects P Q st (record_pair row (row_commit_sha row) st).
Proof.
  intros Hp. exists [row], []. simpl. rewrite app_nil_r, append_nil_r.
  repeat split; try constructor; try assumption; try constructor.
  set_solver.
Qed.

Lemma effects_save_state P Q (s : crawl_state) st :
  effects P Q st (save_state s st).
Proof.
  exists [], []. simpl. rewrite !app_nil_r, append_nil_r.
  repeat split; try constructor. set_solver. lia.
Qed.

Lemma effects_set_locals P Q (s : crawl_state) st :
  effects P Q st (set_locals s st).
Proof.
  exists [], []. simpl. rewrite !app_nil_r, append_nil_r.
  repeat split; try constructor. set_solver. lia.
Qed.

Lemma effects_seen_mono P Q st st' :
  effects P Q st st' -> seen_commits st ⊆ seen_commits st'.
Proof.
  intros (n & r & _ & _ & A3 & _). rewrite A3. set_solver.
Qed.

Lemma effects_and_then P Q st (r : run (@process World))
    (k : @process World -> run (@process World)) :
  effects P Q st (state_of r) ->
  (forall s, r = Running s -> effects P Q s (state_of (k s))) ->
  effects P Q st (state_of (and_then r k)).
Proof.
  intros H1 H2. destruct r as [s|e s]; simpl in *.
  - eapply effects_trans; [exact H1 | apply H2; reflexivity].
  - exact H1.
Qed.

Lemma truthy_nonempty (s : string) : Py.truthy s = true -> s <> "".
Proof. destruct s; [discriminate | intros _ H; discriminate H]. Qed.

Lemma process_file_effects (repo sha parent_sha msg : string)
    (f : file_entry) st :
  effects (row_of sha) (req_of_item sha) st
    (state_of (process_file fetch_file repo sha parent_sha msg f st)).
Proof.
  unfold process_file.
  destruct (patch f) as [p|]; [|apply effects_refl].
  destruct (negb (Py.endswith ".py" (filename f))); [apply effects_refl|].
  unfold call_file.
  destruct (fetch_file repo parent_sha (filename f) (world st))
    as [buggy w1].
  cbn [world call].
  destruct (fetch_file repo sha (filename f) w1) as [fixed w2].
  set (st2 := call (ReqFile repo sha (filename f)) w2
                (call (ReqFile repo parent_sha (filename f)) w1 st)).
  assert (H2 : effects (row_of sha) (req_of_item sha) st st2).
  { eapply effects_trans; apply effects_call; exact I. }
  destruct buggy as [buggy|]; [|exact H2].
  destruct fixed as [fixed|]; [|exact H2].
  destruct (negb (Py.truthy buggy) || negb (Py.truthy fixed)
            || String.eqb (Py.strip buggy) (Py.strip fixed));
    [exact H2|].
  destruct (build_ir4_or2 buggy fixed p) as [[[ir4 or2]|]|e];
    [|exact H2|exact H2].
  destruct (negb (Py.truthy ir4) || negb (Py.truthy or2)) eqn:Et;
    [exact H2|].
  apply orb_false_elim in Et. destruct Et as [_ Et].
  apply negb_false_iff in Et.
  eapply effects_trans; [exact H2|]. simpl.
  apply (effects_record_pair (row_of sha) (req_of_item sha)
           [repo; filename f; sha; Py.replace_newlines msg;
            ir4; or2; buggy; fixed] st2).
  split; [reflexivity | apply truthy_nonempty; exact Et].
Qed.

Lemma process_files_effects (repo sha parent_sha msg : string)
    (fs : list file_entry) st :
  effects (row_of sha) (req_of_item sha) st
    (state_of (process_files fetch_file repo sha parent_sha msg fs st)).
Proof.
  revert st. induction fs as [|f fs IH]; intros st.
  - apply effects_refl.
  - cbn [process_files]. apply effects_and_then.
    + apply process_file_effects.
    + intros s _. apply IH.
Qed.

Lemma process_item_effects (it : item) st :
  effects (row_of (item_sha it)) (req_of_item (item_sha it)) st
    (state_of (process_item get_commit_details fetch_file it st)).
Proof.
  unfold process_item.
  destruct (decide (item_sha it ∈ seen_commits st)); [apply effects_refl|].
  unfold call_commit.
  destruct (get_commit_details (item_repo it) (item_sha it) (world st))
    as [c w1].
  set (st1 := call (ReqCommit (item_repo it) (item_sha it)) w1 st).
  assert (H1 : effects (row_of (item_sha it)) (req_of_item (item_sha it))
                 st st1).
  { apply effects_call. reflexivity. }
  destruct c as [c|]; [|exact H1].
  destruct (parents c) as [|parent_sha ps]; [exact H1|].
  destruct (files c) as [|f0 fs0] eqn:Ef; [exact H1|].
  destruct (FILES_LIMIT <? Z.of_nat (length (f0 :: fs0))); [exact H1|].
  eapply effects_trans; [exact H1 | apply process_files_effects].
Qed.

Lemma process_item_fresh (base : gset string) (it : item) st :
  base ⊆ seen_commits st ->
  effects (row_fresh base) (req_fresh base) st
    (state_of (process_item get_commit_details fetch_file it st)).
Proof.
  intros Hb.
  destruct (decide (item_sha it ∈ seen_commits st)) as [Hin|Hout].
  - unfold process_item.
    destruct (decide (item_sha it ∈ seen_commits st));
      [apply effects_refl | contradiction].
  - eapply effects_weaken; [| |apply process_item_effects].
    + intros r [H1 H2]. split; [|exact H2]. rewrite H1. set_solver.
    + intros [q pg|repo s|repo s path]; simpl; try tauto.
      intros ->. set_solver.
Qed.

Lemma process_items_fresh (base : gset string) (items : list item) st :
  base ⊆ seen_commits st ->
  effects (row_fresh base) (req_fresh base) st
    (state_of (process_items get_commit_details fetch_file items st)).
Proof.
  revert st. induction items as [|it items IH]; intros st Hb.
  - apply effects_refl.
  - cbn [process_items].
    destruct (MAX_COMMITS <=? collected st); [apply effects_refl|].
    pose proof (process_item_fresh base it st Hb) as H1.
    apply effects_and_then; [exact H1|].
    intros s Hs. apply IH. rewrite Hs in H1. simpl in H1.
    apply effects_seen_mono in H1. set_solver.
Qed.

Lemma pages_loop_fresh (base : gset string) (remaining : nat)
    (query : string) st :
  base ⊆ seen_commits st ->
  effects (row_fresh base) (req_fresh base) st
    (state_of (pages_loop search_commits_query get_commit_details
                 fetch_file remaining query st)).
Proof.
  revert st. induction remaining as [|remaining IH]; intros st Hb.
  - apply effects_refl.
  - cbn [pages_loop].
    destruct (MAX_COMMITS <=? collected st); [apply effects_refl|].
    unfold call_search.
    destruct (search_commits_query query (page (locals st)) (world st))
      as [res w1].
    set (st1 := call (ReqSearch query (page (locals st))) w1 st).
    assert (H1 : effects (row_fresh base) (req_fresh base) st st1).
    { apply effects_call. exact I. }
    destruct res as [[|it items]|]; [exact H1| |exact H1].
    eapply effects_trans; [exact H1|].
    assert (Hb1 : base ⊆ seen_commits st1) by exact Hb.
    pose proof (process_items_fresh base (it :: items) st1 Hb1) as H2.
    apply effects_and_then; [exact H2|].
    intros s Hs. rewrite Hs in H2. simpl in H2.
    cbv zeta.
    eapply effects_trans; [apply effects_set_locals|].
    eapply effects_trans; [apply effects_save_state|].
    apply IH. apply effects_seen_mono in H2. simpl. set_solver.
Qed.

Lemma window_turn_fresh (base : gset string) st :
  base ⊆ seen_commits st ->
  effects (row_fresh base) (req_fresh base) st
    (state_of (window_turn search_commits_query get_commit_details
                 fetch_file st)).
Proof.
  intros Hb. unfold window_turn.
  destruct (window_query (locals st)) as [query|e]; [|apply effects_refl].
  apply effects_and_then; [apply pages_loop_fresh; exact Hb|].
  intros s _.
  destruct (advance_date (date_end (locals s)) DAYS_PER_RANGE) as [d|e];
    [|apply effects_refl].
  simpl. eapply effects_trans;
    [apply effects_set_locals | apply effects_save_state].
Qed.

Lemma main_loop_fresh (base : gset string) (fuel : nat) st :
  base ⊆ seen_commits st ->
  effects (row_fresh base) (req_fresh base) st
    (state_of (main_loop search_commits_query get_commit_details
                 fetch_file fuel st)).
Proof.
  revert st. induction fuel as [|fuel IH]; intros st Hb.
  - simpl. destruct (MAX_COMMITS <=? collected st); apply effects_refl.
  - cbn [main_loop].
    destruct (MAX_COMMITS <=? collected st); [apply effects_refl|].
    pose proof (window_turn_fresh base st Hb) as H1.
    apply effects_and_then; [exact H1|].
    intros s Hs. rewrite Hs in H1. simpl in H1.
    apply IH. apply effects_seen_mono in H1. set_solver.
Qed.

Lemma process_files_skip (repo sha parent_sha msg : string)
    (fs : list file_entry) st :
  process_files fetch_file repo sha parent_sha msg fs st
  = process_files fetch_file repo sha parent_sha msg
      (List.filter (fun f => negb (skipped_by_name_or_patch f)) fs) st.
Proof.
  revert st. induction fs as [|f fs IH]; intros st; [reflexivity|].
  cbn [List.filter]. unfold skipped_by_name_or_patch at 1.
  destruct (patch f) as [p|] eqn:Ep.
  - destruct (Py.endswith ".py" (filename f)) eqn:En; cbn [negb].
    + cbn [process_files].
      destruct (process_file fetch_file repo sha parent_sha msg f st);
        simpl; [apply IH | reflexivity].
    + cbn [process_files]. unfold process_file at 1.
      rewrite Ep, En. simpl. apply IH.
  - cbn [negb process_files]. unfold process_file at 1.
    rewrite Ep. simpl. apply IH.
Qed.

Lemma list_to_set_all_equal (sha : string) (new : list (list string)) :
  Forall (fun r => row_commit_sha r = sha) new ->
  new <> [] ->
  (list_to_set (map row_commit_sha new) : gset string) = {[ sha ]}.
Proof.
  intros H Hne. induction H as [|r new Hr H IH]; [contradiction|].
  simpl. rewrite Hr. destruct new as [|r' new'].
  - simpl. set_solver.
  - rewrite IH by discriminate. set_solver.
Qed.

(** Lines 239-240: the two calls of [fetch_file] for a file, the parent
    first. *)
Definition fetch_both (repo sha parent_sha : string) (f : file_entry) st
  : option string * option string * @process World :=
  let '(buggy, st) := call_file fetch_file repo parent_sha (filename f) st in
  let '(fixed, st) := call_file fetch_file repo sha (filename f) st in
  (buggy, fixed, st).

(** A file fails one of the three tests of the loop over the files: the
    one on its name and patch, or, once both versions were asked for,
    the one on the two texts, or, once the pair was built, the one on
    the pair. *)
Definition file_rejected (repo sha parent_sha : string) (f : file_entry) st
  : bool :=
  skipped_by_name_or_patch f
  || (let '(buggy, fixed, _) := fetch_both repo sha parent_sha f st in
      texts_rejected buggy fixed
      || match patch f, buggy, fixed with
         | Some p, Some b, Some fx =>
             match build_ir4_or2 b fx p with
             | Ok built => pair_rejected built
             | Raise _ => false
             end
         | _, _, _ => false
         end).

(** A file that fails a test is passed over: the loop goes on, and
    nothing was written. *)
Lemma process_file_rejected (repo sha parent_sha msg : string)
    (f : file_entry) st :
  file_rejected repo sha parent_sha f st = true ->
  exists st1,
    process_file fetch_file repo sha parent_sha msg f st = Running st1
    /\ csv_rows st1 = csv_rows st
    /\ seen_commits st1 = seen_commits st
    /\ seen_file st1 = seen_file st
    /\ collected st1 = collected st.
Proof.
  unfold file_rejected, skipped_by_name_or_patch, fetch_both, process_file,
    call_file.
  destruct (patch f) as [p|];
    [|intros _; exists st; repeat split; reflexivity].
  destruct (Py.endswith ".py" (filename f)); cbn [negb orb];
    [|intros _; exists st; repeat split; reflexivity].
  destruct (fetch_file repo parent_sha (filename f) (world st))
    as [buggy w1].
  cbn [world call].
  destruct (fetch_file repo sha (filename f) w1) as [fixed w2].
  set (st2 := call (ReqFile repo sha (filename f)) w2
                (call (ReqFile repo parent_sha (filename f)) w1 st)).
  assert (Hst2 : exists st1,
             Running st2 = Running st1
             /\ csv_rows st1 = csv_rows st
             /\ seen_commits st1 = seen_commits st
             /\ seen_file st1 = seen_file st
             /\ collected st1 = collected st)
    by (exists st2; repeat split; reflexivity).
  destruct buggy as [b|]; [|intros _; exact Hst2].
  destruct fixed as [fx|]; [|intros _; exact Hst2].
  cbn [texts_rejected].
  destruct (negb (Py.truthy b) || negb (Py.truthy fx)
            || String.eqb (Py.strip b) (Py.strip fx));
    cbn [orb]; [intros _; exact Hst2|].
  destruct (build_ir4_or2 b fx p) as [[[ir4 or2]|]|e];
    cbn [pair_rejected]; [|intros _; exact Hst2|discriminate].
  intros H. rewrite H. exact Hst2.
Qed.

(** A file that passes the three tests gives a row, and its commit is
    marked. *)
Lemma process_file_accepted (repo sha parent_sha msg : string)
    (f : file_entry) st (p b fx ir4 or2 : string) st2 :
  file_rejected repo sha parent_sha f st = false ->
  patch f = Some p ->
  fetch_both repo sha parent_sha f st = (Some b, Some fx, st2) ->
  build_ir4_or2 b fx p = Ok (Some (ir4, or2)) ->
  process_file fetch_file repo sha parent_sha msg f st
  = Running (record_pair
               [repo; filename f; sha; Py.replace_newlines msg;
                ir4; or2; b; fx] sha st2).
Proof.
  unfold file_rejected, skipped_by_name_or_patch, fetch_both, process_file,
    call_file.
  intros Hr Hp. rewrite Hp in Hr |- *.
  destruct (Py.endswith ".py" (filename f)); cbn [negb orb] in Hr |- *;
    [|discriminate Hr].
  destruct (fetch_file repo parent_sha (filename f) (world st))
    as [buggy w1].
  cbn [world call] in Hr |- *.
  destruct (fetch_file repo sha (filename f) w1) as [fixed w2].
  intros Hf Hb. injection Hf as -> -> <-.
  cbn [texts_rejected] in Hr.
  destruct (negb (Py.truthy b) || negb (Py.truthy fx)
            || String.eqb (Py.strip b) (Py.strip fx));
    cbn [orb] in Hr; [discriminate Hr|].
  rewrite Hb in Hr |- *. cbn [pair_rejected] in Hr. rewrite Hr.
  reflexivity.
Qed.

(** C2, as the code has it.  Going through a commit appends rows of
    that commit only, and the commit is added to the set of seen commits
    and to the seen-commits file once for each row written, and not at
    all when no row is written.  A file that fails any of the three
    tests of the loop over the files (name and patch, the two texts, the
    pair) is passed over without a row and without a mark, and the
    files after it are still gone through; a file that passes them
    gives a row and marks its commit. *)
Theorem C2_seen_when_row_written (it : item) st :
  let st' := state_of (process_item get_commit_details fetch_file it st) in
  (exists new : list (list string),
     csv_rows st' = csv_rows st ++ new
     /\ Forall (fun r => row_commit_sha r = item_sha it) new
     /\ seen_commits st'
        = match new with
          | [] => seen_commits st
          | _ :: _ => {[ item_sha it ]} ∪ seen_commits st
          end
     /\ seen_file st' = seen_file st +:+ sha_lines new
     /\ collected st' = collected st + Z.of_nat (length new))
  /\ (forall (repo sha parent_sha msg : string) (f : file_entry)
         (fs : list file_entry) (st0 : @process World),
        file_rejected repo sha parent_sha f st0 = true ->
        exists st1 : @process World,
          process_file fetch_file repo sha parent_sha msg f st0
          = Running st1
          /\ process_files fetch_file repo sha parent_sha msg (f :: fs) st0
             = process_files fetch_file repo sha parent_sha msg fs st1
          /\ csv_rows st1 = csv_rows st0
          /\ seen_commits st1 = seen_commits st0
          /\ seen_file st1 = seen_file st0
          /\ collected st1 = collected st0)
  /\ (forall (repo sha parent_sha msg : string) (f : file_entry)
         (fs : list file_entry) (st0 st2 : @process World)
         (p b fx ir4 or2 : string),
        file_rejected repo sha parent_sha f st0 = false ->
        patch f = Some p ->
        fetch_both repo sha parent_sha f st0 = (Some b, Some fx, st2) ->
        build_ir4_or2 b fx p = Ok (Some (ir4, or2)) ->
        let row := [repo; filename f; sha; Py.replace_newlines msg;
                    ir4; or2; b; fx] in
        let st1 := record_pair row sha st2 in
        process_file fetch_file repo sha parent_sha msg f st0 = Running st1
        /\ process_files fetch_file repo sha parent_sha msg (f :: fs) st0
           = process_files fetch_file repo sha parent_sha msg fs st1
        /\ csv_rows st1 = csv_rows st2 ++ [row]
        /\ seen_commits st1 = {[ sha ]} ∪ seen_commits st2
        /\ seen_file st1 = seen_file st2 +:+ sha +:+ Py.NL
        /\ collected st1 = collected st2 + 1)
  /\ (forall (repo sha parent_sha msg : string) (fs : list file_entry)
         (st0 : @process World),
        process_files fetch_file repo sha parent_sha msg fs st0
        = process_files fetch_file repo sha parent_sha msg
            (List.filter (fun f => negb (skipped_by_name_or_patch f)) fs)
            st0).
Proof.
  intros st'. split; [|split; [|split; [|intros; apply process_files_skip]]].
  - destruct (process_item_effects it st)
      as (new & reqs & H1 & H2 & H3 & H4 & H5 & H6 & H7).
    exists new. fold st' in H1, H3, H4, H5.
    assert (Hsha : Forall (fun r => row_commit_sha r = item_sha it) new).
    { eapply Forall_impl; [exact H6|]. intros r [Hr _]. exact Hr. }
    repeat split; try assumption.
    rewrite H3. destruct new as [|r new]; [simpl; set_solver|].
    rewrite (list_to_set_all_equal (item_sha it));
      [reflexivity| exact Hsha|].
    discriminate.
  - intros repo sha parent_sha msg f fs st0 Hr.
    destruct (process_file_rejected repo sha parent_sha msg f st0 Hr)
      as (st1 & Hf & H1 & H2 & H3 & H4).
    exists st1. split; [exact Hf|].
    split; [cbn [process_files]; rewrite Hf; reflexivity|].
    repeat split; assumption.
  - intros repo sha parent_sha msg f fs st0 st2 p b fx ir4 or2
      Hr Hp Hf Hb row st1.
    pose proof (process_file_accepted repo sha parent_sha msg f st0
                  p b fx ir4 or2 st2 Hr Hp Hf Hb) as Ha.
    fold row in Ha. fold st1 in Ha.
    split; [exact Ha|].
    split; [cbn [process_files]; rewrite Ha; reflexivity|].
    repeat split; reflexivity.
Qed.

End CollectorFacts.

(** A commit with two files, the first of which cannot be fetched: that
    file is passed over and the loop goes on with the second. *)
Lemma C2_seen_when_row_written_witness :
  let search := fun (_ : string) (_ : Z) (w : unit) =>
    (@None (list item), w) in
  let get := fun (_ _ : string) (w : unit) => (@None commit, w) in
  let fetch := fun (_ sha path : string) (w : unit) =>
    (if String.eqb path "bad.py" then None
     else Some (if String.eqb sha "p" then "x" else "y"), w) in
  let bad := mk_file "bad.py" (Some (lines_of ["@@ -1 +1 @@"; "-x"; "+y"])) in
  let good := mk_file "a.py" (Some (lines_of ["@@ -1 +1 @@"; "-x"; "+y"])) in
  let st0 := mk_process tt [] (∅ : gset string) "" [HEADER_ROW] 0
               (mk_state 0 "2024-03-05" 1) (mk_state 0 "2024-03-05" 1) in
  exists st1 : @process unit,
    process_file fetch "o/r" "abc" "p" "fix" bad st0 = Running st1
    /\ process_files fetch "o/r" "abc" "p" "fix" [bad; good] st0
       = process_files fetch "o/r" "abc" "p" "fix" [good] st1
    /\ csv_rows st1 = csv_rows st0
    /\ seen_commits st1 = seen_commits st0
    /\ seen_file st1 = seen_file st0
    /\ collected st1 = collected st0.
Proof.
  intros search get fetch bad good st0.
  destruct (C2_seen_when_row_written search get fetch
              (mk_item "o/r" "abc") st0) as (_ & H & _).
  apply (H "o/r" "abc" "p" "fix" bad [good] st0).
  reflexivity.
Defined.

(** The same commit gone through: the second file gives its row and
    the commit is marked. *)
Example unfetchable_file_then_good_file :
  let fetch := fun (_ sha path : string) (w : unit) =>
    (if String.eqb path "bad.py" then None
     else Some (if String.eqb sha "p" then "x" else "y"), w) in
  let bad := mk_file "bad.py" (Some (lines_of ["@@ -1 +1 @@"; "-x"; "+y"])) in
  let good := mk_file "a.py" (Some (lines_of ["@@ -1 +1 @@"; "-x"; "+y"])) in
  let st0 := mk_process tt [] (∅ : gset string) "" [HEADER_ROW] 0
               (mk_state 0 "2024-03-05" 1) (mk_state 0 "2024-03-05" 1) in
  exists st1 : @process unit,
    process_files fetch "o/r" "abc" "p" "fix" [bad; good] st0 = Running st1
    /\ csv_rows st1
       = [HEADER_ROW;
          ["o/r"; "a.py"; "abc"; "fix"; lines_of ["# x"; "<FILL_ME>"];
           "y"; "x"; "y"]]
    /\ seen_file st1 = "abc" +:+ Py.NL.
Proof.
  intros fetch bad good st0. eexists. split; [reflexivity|].
  split; reflexivity.
Qed.

(** C2 as stated fails: a commit with a parent and one changed file that
    is not a Python file is gone through to the end, and it is neither
    in the set of seen commits nor in the file afterwards. *)
Lemma C2_counterexample : ~ marks_attempted_commits_seen.
Proof.
  intros H.
  pose (c := mk_commit ["p0"]
               [mk_file "README.md" (Some "@@ -1 +1 @@")] "fix typo").
  pose (st := mk_process tt [] (∅ : gset string) "" []
                0 (mk_state 0 "2024-01-01" 1) (mk_state 0 "2024-01-01" 1)).
  specialize (H unit (fun _ _ w => (Some c, w)) (fun _ _ _ w => (None, w))
                (mk_item "o/r" "abc") st
                (call (ReqCommit "o/r" "abc") tt st) c tt).
  assert (Hin : "abc" ∈ (∅ : gset string)).
  { apply H.
    - set_solver.
    - reflexivity.
    - discriminate.
    - discriminate.
    - vm_compute. discriminate.
    - unfold process_item. simpl.
      destruct (decide ("abc" ∈ (∅ : gset string))); [set_solver|].
      reflexivity. }
  set_solver.
Qed.

(** C10: a patch whose only added line is empty gives a pair with the
    empty output representation, the file is then not written, and no
    row that a run writes has an empty output representation. *)
Theorem C10_empty_output_not_written {World : Type}
    (fetch_file :
       string -> string -> string -> World -> option string * World)
    (repo sha parent_sha msg : string) (f : file_entry)
    (p buggy fixed : string) (hunks : list hunk) (s e : Z)
    (st : @process World) (w1 w2 : World) :
  patch f = Some p ->
  fetch_file repo parent_sha (filename f) (world st) = (Some buggy, w1) ->
  fetch_file repo sha (filename f) w1 = (Some fixed, w2) ->
  parse_patch_hunks p = Ok hunks ->
  added_lines hunks = [""] ->
  envelope (Py.splitlines buggy) hunks = Ok (s, e) ->
  s <= e ->
  (exists ir4 : string, build_ir4_or2 buggy fixed p = Ok (Some (ir4, "")))
  /\ csv_rows (state_of (process_file fetch_file repo sha parent_sha msg f st))
     = csv_rows st
  /\ seen_commits
       (state_of (process_file fetch_file repo sha parent_sha msg f st))
     = seen_commits st
  /\ (forall (search_commits_query :
                string -> Z -> World -> option (list item) * World)
             (get_commit_details :
                string -> string -> World -> option commit * World)
             (fuel : nat) (st0 : @process World),
        exists new : list (list string),
          csv_rows (state_of (main_loop search_commits_query
                                get_commit_details fetch_file fuel st0))
          = csv_rows st0 ++ new
          /\ Forall (fun r => row_output_representation r <> "") new).
Proof.
  intros Hp Hb Hf Hparse Hadd Henv Hse.
  assert (Hbuild : exists ir4 : string,
             build_ir4_or2 buggy fixed p = Ok (Some (ir4, ""))).
  { rewrite (build_ir4_or2_parsed _ _ _ _ Hparse).
    unfold build_from_hunks.
    destruct hunks as [|h hs]; [discriminate Hadd|].
    rewrite Henv, Hadd. simpl.
    destruct (e <? s) eqn:El; [apply Z.ltb_lt in El; lia|].
    eexists. reflexivity. }
  split; [exact Hbuild|].
  destruct Hbuild as [ir4 Hbuild].
  assert (Hst : csv_rows (state_of (process_file fetch_file repo sha
                                      parent_sha msg f st)) = csv_rows st
                /\ seen_commits (state_of (process_file fetch_file repo sha
                                             parent_sha msg f st))
                   = seen_commits st).
  { unfold process_file. rewrite Hp.
    destruct (negb (Py.endswith ".py" (filename f)));
      [split; reflexivity|].
    unfold call_file. rewrite Hb. cbn [world call]. rewrite Hf.
    destruct (negb (Py.truthy buggy) || negb (Py.truthy fixed)
              || String.eqb (Py.strip buggy) (Py.strip fixed));
      [split; reflexivity|].
    rewrite Hbuild.
    change (Py.truthy "") with false. cbn [negb].
    rewrite orb_true_r. split; reflexivity. }
  destruct Hst as [Hrows Hseen].
  split; [exact Hrows|]. split; [exact Hseen|].
  intros search_commits_query get_commit_details fuel st0.
  destruct (main_loop_fresh search_commits_query get_commit_details
              fetch_file ∅ fuel st0) as (new & reqs & H1 & _ & _ & _ & _ & H6 & _).
  { set_solver. }
  exists new. split; [exact H1|].
  eapply Forall_impl; [exact H6|]. intros r [_ Hr]. exact Hr.
Qed.

Lemma C10_empty_output_not_written_witness :
  let fetch := fun (repo sha path : string) (w : unit) =>
    (Some (if String.eqb sha "p0" then lines_of ["a"; "b"]
           else lines_of ["a"; ""; "b"]), w) in
  let f := mk_file "m.py" (Some (lines_of ["@@ -1,1 +1,2 @@"; " a"; "+"])) in
  let st := mk_process tt [] (∅ : gset string) "" [HEADER_ROW] 0
              (mk_state 0 "2024-01-08" 1) (mk_state 0 "2024-01-08" 1) in
  (exists ir4 : string,
     build_ir4_or2 (lines_of ["a"; "b"]) (lines_of ["a"; ""; "b"])
       (lines_of ["@@ -1,1 +1,2 @@"; " a"; "+"]) = Ok (Some (ir4, "")))
  /\ csv_rows (state_of (process_file fetch "o/r" "c1" "p0" "fix" f st))
     = [HEADER_ROW].
Proof.
  intros fetch f st.
  destruct (C10_empty_output_not_written fetch "o/r" "c1" "p0" "fix" f
              (lines_of ["@@ -1,1 +1,2 @@"; " a"; "+"])
              (lines_of ["a"; "b"]) (lines_of ["a"; ""; "b"])
              [mk_hunk 1 1 1 2 [" a"; "+"]] 0 0 st tt tt
              eq_refl eq_refl eq_refl eq_refl eq_refl eq_refl
              ltac:(lia))
    as (H1 & H2 & _).
  split; [exact H1 | exact H2].
Defined.

(** ** Calendar facts *)

Module DateFacts.
Import Date.

Lemma dby_decomp (a b c e : Z) :
  0 <= b <= 3 -> 0 <= c <= 24 -> 0 <= e <= 3 ->
  days_before_year (400 * a + 100 * b + 4 * c + e + 1)
  = 146097 * a + 36524 * b + 1461 * c + 365 * e.
Proof.
  intros Hb Hc He. unfold days_before_year.
  replace (400 * a + 100 * b + 4 * c + e + 1 - 1)
    with (400 * a + 100 * b + 4 * c + e) by lia.
  Z.div_mod_to_equations; lia.
Qed.

Lemma is_leap_decomp (a b c e : Z) :
  0 <= b <= 3 -> 0 <= c <= 24 -> 0 <= e <= 3 ->
  is_leap (400 * a + 100 * b + 4 * c + e + 1)
  = (e =? 3) && (negb (c =? 24) || (b =? 3)).
Proof.
  intros Hb Hc He. unfold is_leap.
  destruct (Z.eqb_spec ((400 * a + 100 * b + 4 * c + e + 1) mod 4) 0);
  destruct (Z.eqb_spec ((400 * a + 100 * b + 4 * c + e + 1) mod 100) 0);
  destruct (Z.eqb_spec ((400 * a + 100 * b + 4 * c + e + 1) mod 400) 0);
  destruct (Z.eqb_spec e 3); destruct (Z.eqb_spec c 24);
  destruct (Z.eqb_spec b 3); simpl; try reflexivity; exfalso;
  Z.div_mod_to_equations; lia.
Qed.

Definition month_day_ok (leap : bool) (r : Z) : bool :=
  let '(m, dd) := month_day leap r in
  (1 <=? m) && (m <=? 12) && (1 <=? dd)
  && (dd <=? table DAYS_IN_MONTH m + Z.b2z ((m =? 2) && leap))
  && (table DAYS_BEFORE_MONTH m + Z.b2z ((2 <? m) && leap) + dd =? r + 1).

Lemma month_day_ok_all (leap : bool) (r : Z) :
  0 <= r < 365 + Z.b2z leap -> month_day_ok leap r = true.
Proof.
  intros Hr.
  assert (H : forallb (month_day_ok leap)
                 (map Z.of_nat (seq 0 (if leap then 366 else 365))) = true).
  { destruct leap; vm_compute; reflexivity. }
  rewrite forallb_forall in H. apply H.
  apply in_map_iff. exists (Z.to_nat r). split; [lia|].
  apply in_seq. destruct leap; simpl in Hr; lia.
Qed.

Lemma month_day_spec (leap : bool) (r : Z) :
  0 <= r < 365 + Z.b2z leap ->
  let m := fst (month_day leap r) in
  let dd := snd (month_day leap r) in
  1 <= m <= 12 /\ 1 <= dd
  /\ dd <= table DAYS_IN_MONTH m + Z.b2z ((m =? 2) && leap)
  /\ table DAYS_BEFORE_MONTH m + Z.b2z ((2 <? m) && leap) + dd = r + 1.
Proof.
  intros Hr m dd. pose proof (month_day_ok_all leap r Hr) as H.
  unfold month_day_ok in H. subst m dd.
  destruct (month_day leap r) as [m dd]. simpl.
  rewrite !andb_true_iff in H.
  destruct H as [[[[H1 H2] H3] H4] H5].
  apply Z.leb_le in H1, H2, H3, H4. apply Z.eqb_eq in H5. lia.
Qed.

Lemma ord2ymd_spec (n : Z) :
  1 <= n <= MAXORDINAL ->
  valid (ord2ymd n) = true /\ toordinal (ord2ymd n) = n.
Proof.
  intros Hn. unfold MAXORDINAL in Hn. unfold ord2ymd.
  unfold DI400Y, DI100Y, DI4Y.
  set (n0 := n - 1).
  set (a := n0 / 146097). set (r1 := n0 mod 146097).
  set (b := r1 / 36524). set (r2 := r1 mod 36524).
  set (c := r2 / 1461). set (r3 := r2 mod 1461).
  set (e := r3 / 365). set (r4 := r3 mod 365).
  assert (Hdec : n0 = 146097 * a + 36524 * b + 1461 * c + 365 * e + r4
                 /\ 0 <= a <= 24 /\ 0 <= b <= 4 /\ 0 <= c <= 24
                 /\ 0 <= e <= 4 /\ 0 <= r4 < 365
                 /\ (b = 4 -> c = 0 /\ e = 0 /\ r4 = 0)
                 /\ (e = 4 -> r4 = 0 /\ c <= 23)
                 /\ (a = 24 -> 36524 * b + 1461 * c + 365 * e + r4 <= 145730)).
  { subst a r1 b r2 c r3 e r4 n0. Z.div_mod_to_equations. lia. }
  clearbody a b c e r4. clear r1 r2 r3.
  destruct Hdec as (Hn0 & Ha & Hb & Hc & He & Hr4 & Hb4 & He4 & Ha24).
  replace (a * 400 + 1 + (b * 100 + c * 4 + e))
    with (400 * a + 100 * b + 4 * c + e + 1) by lia.
  destruct (Z.eqb_spec e 4) as [E4|E4]; cbn [orb].
  - pose (B := b). pose (C := c).
    assert (Hrw : 400 * a + 100 * b + 4 * c + e + 1 - 1
                  = 400 * a + 100 * B + 4 * C + 3 + 1) by (subst B C; lia).
    rewrite Hrw.
    assert (HB : 0 <= B <= 3) by (subst B; lia).
    assert (HC : 0 <= C <= 24) by (subst C; lia).
    assert (H3 : 0 <= 3 <= 3) by lia.
    assert (Hleap : is_leap (400 * a + 100 * B + 4 * C + 3 + 1) = true).
    { rewrite (is_leap_decomp a B C 3 HB HC H3). simpl.
      destruct (Z.eqb_spec C 24); destruct (Z.eqb_spec B 3);
        try reflexivity; subst B C; lia. }
    split.
    + unfold valid, MINYEAR, MAXYEAR, days_in_month. simpl.
      repeat (apply andb_true_iff; split); try reflexivity;
        apply Z.leb_le; subst B C; lia.
    + unfold toordinal, ymd2ord, days_before_month. simpl.
      rewrite Hleap, (dby_decomp a B C 3 HB HC H3).
      change (table DAYS_BEFORE_MONTH 12) with 334. simpl.
      subst B C. lia.
  - destruct (Z.eqb_spec b 4) as [B4|B4]; cbn [orb].
    + pose (B := 3). pose (C := 24).
      assert (Hrw : 400 * a + 100 * b + 4 * c + e + 1 - 1
                    = 400 * a + 100 * B + 4 * C + 3 + 1) by (subst B C; lia).
      rewrite Hrw.
      assert (HB : 0 <= B <= 3) by (subst B; lia).
      assert (HC : 0 <= C <= 24) by (subst C; lia).
      assert (H3 : 0 <= 3 <= 3) by lia.
      assert (Hleap : is_leap (400 * a + 100 * B + 4 * C + 3 + 1) = true).
      { rewrite (is_leap_decomp a B C 3 HB HC H3). simpl.
        destruct (Z.eqb_spec C 24); destruct (Z.eqb_spec B 3);
          try reflexivity; subst B C; lia. }
      split.
      * unfold valid, MINYEAR, MAXYEAR, days_in_month. simpl.
        repeat (apply andb_true_iff; split); try reflexivity;
          apply Z.leb_le; subst B C; lia.
      * unfold toordinal, ymd2ord, days_before_month. simpl.
        rewrite Hleap, (dby_decomp a B C 3 HB HC H3).
        change (table DAYS_BEFORE_MONTH 12) with 334. simpl.
        subst B C. lia.
    + assert (Hb3 : 0 <= b <= 3) by lia.
      assert (He3 : 0 <= e <= 3) by lia.
      rewrite <- (is_leap_decomp a b c e Hb3 Hc He3).
      set (y := 400 * a + 100 * b + 4 * c + e + 1).
      assert (Hr : 0 <= r4 < 365 + Z.b2z (is_leap y)).
      { destruct (is_leap y); simpl; lia. }
      pose proof (month_day_spec (is_leap y) r4 Hr) as Hm.
      destruct (month_day (is_leap y) r4) as [m dd]. simpl in Hm.
      destruct Hm as (Hm1 & Hd1 & Hd2 & Hsum).
      split.
      * unfold valid, MINYEAR, MAXYEAR, days_in_month. simpl.
        assert (Hy : 1 <= y <= 9999) by (subst y; lia).
        destruct ((m =? 2) && is_leap y) eqn:E2; simpl in Hd2.
        -- apply andb_true_iff in E2. destruct E2 as [E2 _].
           apply Z.eqb_eq in E2. subst m.
           change (table DAYS_IN_MONTH 2) with 28 in Hd2.
           repeat (apply andb_true_iff; split); apply Z.leb_le; lia.
        -- repeat (apply andb_true_iff; split); apply Z.leb_le; lia.
      * unfold toordinal, ymd2ord, days_before_month. simpl.
        subst y. rewrite (dby_decomp a b c e Hb3 Hc He3). lia.
Qed.

Lemma dby_succ (y : Z) :
  days_before_year (y + 1) = days_before_year y + 365 + Z.b2z (is_leap y).
Proof.
  unfold days_before_year, is_leap.
  replace (y + 1 - 1) with y by lia.
  destruct (Z.eqb_spec (y mod 4) 0); destruct (Z.eqb_spec (y mod 100) 0);
    destruct (Z.eqb_spec (y mod 400) 0); simpl;
    Z.div_mod_to_equations; lia.
Qed.

Lemma dby_mono (y1 y2 : Z) :
  y1 <= y2 -> days_before_year y1 <= days_before_year y2.
Proof.
  intros H. unfold days_before_year. Z.div_mod_to_equations. lia.
Qed.

Lemma toordinal_bounds (d : date) :
  valid d = true ->
  days_before_year (year d) + 1 <= toordinal d
  /\ toordinal d <= days_before_year (year d + 1).
Proof.
  destruct d as [y m dd]. unfold valid, toordinal, ymd2ord. simpl.
  rewrite !andb_true_iff, !Z.leb_le.
  intros [[[[[Hy1 Hy2] Hm1] Hm2] Hd1] Hd2].
  rewrite dby_succ.
  unfold days_in_month in Hd2. unfold days_before_month.
  assert (Hm : m = 1 \/ m = 2 \/ m = 3 \/ m = 4 \/ m = 5 \/ m = 6 \/ m = 7
               \/ m = 8 \/ m = 9 \/ m = 10 \/ m = 11 \/ m = 12) by lia.
  destruct (is_leap y);
    repeat (destruct Hm as [->|Hm];
            [simpl in Hd2 |- *; unfold table in *; simpl in Hd2 |- *; lia|]);
    subst m; simpl in Hd2 |- *; unfold table in *; simpl in Hd2 |- *; lia.
Qed.

Lemma valid_toordinal_range (d : date) :
  valid d = true -> 1 <= toordinal d <= MAXORDINAL.
Proof.
  intros Hv. pose proof (toordinal_bounds d Hv) as [H1 H2].
  unfold valid, MINYEAR, MAXYEAR in Hv.
  rewrite !andb_true_iff, !Z.leb_le in Hv.
  destruct Hv as [[[[[Hy1 Hy2] _] _] _] _].
  pose proof (dby_mono 1 (year d) Hy1) as H3.
  pose proof (dby_mono (year d + 1) 10000 ltac:(lia)) as H4.
  change (days_before_year 1) with 0 in H3.
  change (days_before_year 10000) with 3652059 in H4.
  unfold MAXORDINAL. lia.
Qed.

Lemma valid_year_from_ordinal (d : date) (y0 : Z) :
  valid d = true ->
  days_before_year y0 + 1 <= toordinal d ->
  y0 <= year d.
Proof.
  intros Hv Ho. pose proof (toordinal_bounds d Hv) as [H1 H2].
  destruct (Z.le_gt_cases y0 (year d)) as [H|H]; [exact H|].
  pose proof (dby_mono (year d + 1) y0 ltac:(lia)). lia.
Qed.


Lemma digit_char_spec (k : Z) :
  0 <= k <= 9 ->
  Py.is_digit (digit_char k) = true
  /\ Py.is_space (digit_char k) = false
  /\ Py.digit_value (digit_char k) = k.
Proof.
  intros H.
  assert (Hk : k = 0 \/ k = 1 \/ k = 2 \/ k = 3 \/ k = 4 \/ k = 5 \/ k = 6
               \/ k = 7 \/ k = 8 \/ k = 9) by lia.
  repeat (destruct Hk as [->|Hk]; [repeat split; reflexivity|]).
  subst k. repeat split; reflexivity.
Qed.

Lemma chars2_match (p q : ascii -> bool) (a b : ascii) (r : string) :
  p a = true -> q b = true ->
  chars2 p q (String a (String b r)) = Some (String a (String b ""), r).
Proof. intros Ha Hb. unfold chars2. rewrite Ha, Hb. reflexivity. Qed.

Lemma group_Y_year_str (y : Z) (rest : string) :
  1000 <= y <= 9999 ->
  group_Y (String.append (year_str y) rest) = Some (year_str y, rest)
  /\ group_int (year_str y) = y.
Proof.
  intros Hy. unfold year_str.
  destruct (Z.ltb_spec y 10) as [L1|L1]; [lia|].
  destruct (Z.ltb_spec y 100) as [L2|L2]; [lia|].
  destruct (Z.ltb_spec y 1000) as [L3|L3]; [lia|].
  assert (H3 : 0 <= y / 1000 <= 9) by (Z.div_mod_to_equations; lia).
  assert (H2 : 0 <= y / 100 mod 10 <= 9) by (Z.div_mod_to_equations; lia).
  assert (H1 : 0 <= y / 10 mod 10 <= 9) by (Z.div_mod_to_equations; lia).
  assert (H0 : 0 <= y mod 10 <= 9) by (Z.div_mod_to_equations; lia).
  assert (Hsum : y = 1000 * (y / 1000) + 100 * (y / 100 mod 10)
                     + 10 * (y / 10 mod 10) + y mod 10)
    by (Z.div_mod_to_equations; lia).
  destruct (digit_char_spec _ H3) as (A3 & S3 & V3).
  destruct (digit_char_spec _ H2) as (A2 & S2 & V2).
  destruct (digit_char_spec _ H1) as (A1 & S1 & V1).
  destruct (digit_char_spec _ H0) as (A0 & S0 & V0).
  set (c3 := digit_char (y / 1000)) in *.
  set (c2 := digit_char (y / 100 mod 10)) in *.
  set (c1 := digit_char (y / 10 mod 10)) in *.
  set (c0 := digit_char (y mod 10)) in *.
  split.
  - unfold group_Y.
    change (String.append (String c3 (String c2 (String c1 (String c0 ""))))
              rest)
      with (String c3 (String c2 (String c1 (String c0 rest)))).
    rewrite (chars2_match _ _ c3 c2 _ A3 A2). cbn [base.mbind option.option_bind].
    rewrite (chars2_match _ _ c1 c0 _ A1 A0). reflexivity.
  - unfold group_int, Py.strip, Py.rstrip.
    cbn [Py.lstrip]. rewrite S3.
    unfold Py.rev_string. cbn [list_ascii_of_string rev app string_of_list_ascii].
    cbn [Py.lstrip]. rewrite S0.
    cbn [list_ascii_of_string rev app string_of_list_ascii Py.digits_value].
    rewrite V3, V2, V1, V0. lia.
Qed.

Lemma group_m_pad2 (m : Z) (rest : string) :
  1 <= m <= 12 ->
  group_m (String.append (pad2 m) rest) = Some (pad2 m, rest)
  /\ group_int (pad2 m) = m.
Proof.
  intros H.
  assert (Hm : m = 1 \/ m = 2 \/ m = 3 \/ m = 4 \/ m = 5 \/ m = 6 \/ m = 7
               \/ m = 8 \/ m = 9 \/ m = 10 \/ m = 11 \/ m = 12) by lia.
  repeat (destruct Hm as [->|Hm]; [split; reflexivity|]).
  subst m. split; reflexivity.
Qed.

Lemma group_d_pad2 (dd : Z) :
  1 <= dd <= 31 ->
  group_d (pad2 dd) = Some (pad2 dd, "")
  /\ group_int (pad2 dd) = dd.
Proof.
  intros H.
  assert (Hd : exists k : nat, (k < 31)%nat /\ dd = Z.of_nat k + 1).
  { exists (Z.to_nat (dd - 1)). lia. }
  destruct Hd as (k & Hk & ->).
  do 31 (destruct k as [|k]; [split; reflexivity|]). lia.
Qed.

Lemma days_in_month_le_31 (y m : Z) :
  1 <= m <= 12 -> days_in_month y m <= 31.
Proof.
  intros H. unfold days_in_month.
  destruct ((m =? 2) && is_leap y); [lia|].
  assert (Hm : m = 1 \/ m = 2 \/ m = 3 \/ m = 4 \/ m = 5 \/ m = 6 \/ m = 7
               \/ m = 8 \/ m = 9 \/ m = 10 \/ m = 11 \/ m = 12) by lia.
  repeat (destruct Hm as [->|Hm]; [vm_compute; discriminate|]).
  subst m. vm_compute. discriminate.
Qed.

Lemma strptime_strftime (d : date) :
  valid d = true -> 1000 <= year d ->
  strptime (strftime d) = Ok d.
Proof.
  intros Hv Hy. pose proof Hv as Hv'.
  unfold valid, MINYEAR, MAXYEAR in Hv'.
  rewrite !andb_true_iff, !Z.leb_le in Hv'.
  destruct Hv' as [[[[[Hy1 Hy2] Hm1] Hm2] Hd1] Hd2].
  pose proof (days_in_month_le_31 (year d) (month d) ltac:(lia)) as Hd3.
  destruct d as [y m dd]. simpl in *.
  unfold strptime, strftime. simpl year. simpl month. simpl day.
  destruct (group_Y_year_str y
              (String.append "-" (String.append (pad2 m)
                 (String.append "-" (pad2 dd)))) ltac:(lia)) as [GY IY].
  rewrite GY. cbn [base.mbind option.option_bind].
  change (Py.expect "-" (String.append "-" ?r)) with (Some r).
  cbn [base.mbind option.option_bind].
  destruct (group_m_pad2 m (String.append "-" (pad2 dd)) ltac:(lia))
    as [GM IM].
  rewrite GM. cbn [base.mbind option.option_bind].
  change (Py.expect "-" (String.append "-" ?r)) with (Some r).
  cbn [base.mbind option.option_bind].
  destruct (group_d_pad2 dd ltac:(lia)) as [GD ID].
  rewrite GD. cbn [base.mbind option.option_bind Py.truthy].
  rewrite IY, IM, ID, Hv. reflexivity.
Qed.

End DateFacts.

(** ** The step to the next window *)

(** [same_window st st']: the keyword index and the end of the window
    are the same in [st'] as in [st]. *)
Definition same_window {World : Type} (st st' : @process World) : Prop :=
  keyword_index (locals st') = keyword_index (locals st)
  /\ date_end (locals st') = date_end (locals st).

Section WindowFacts.

Context {World : Type}.
Variable search_commits_query :
  string -> Z -> World -> option (list item) * World.
Variable get_commit_details :
  string -> string -> World -> option commit * World.
Variable fetch_file :
  string -> string -> string -> World -> option string * World.

Implicit Types st : @process World.

Lemma process_file_locals (repo sha parent_sha msg : string)
    (f : file_entry) st :
  locals (state_of (process_file fetch_file repo sha parent_sha msg f st))
  = locals st.
Proof.
  unfold process_file.
  destruct (patch f) as [p|]; [|reflexivity].
  destruct (negb (Py.endswith ".py" (filename f))); [reflexivity|].
  unfold call_file.
  destruct (fetch_file repo parent_sha (filename f) (world st))
    as [buggy w1].
  cbn [world call].
  destruct (fetch_file repo sha (filename f) w1) as [fixed w2].
  destruct buggy as [buggy|]; [|reflexivity].
  destruct fixed as [fixed|]; [|reflexivity].
  destruct (negb (Py.truthy buggy) || negb (Py.truthy fixed)
            || String.eqb (Py.strip buggy) (Py.strip fixed));
    [reflexivity|].
  destruct (build_ir4_or2 buggy fixed p) as [[[ir4 or2]|]|e];
    [|reflexivity|reflexivity].
  destruct (negb (Py.truthy ir4) || negb (Py.truthy or2)); reflexivity.
Qed.

Lemma process_files_locals (repo sha parent_sha msg : string)
    (fs : list file_entry) st :
  locals (state_of (process_files fetch_file repo sha parent_sha msg fs st))
  = locals st.
Proof.
  revert st. induction fs as [|f fs IH]; intros st; [reflexivity|].
  cbn [process_files].
  pose proof (process_file_locals repo sha parent_sha msg f st) as H.
  destruct (process_file fetch_file repo sha parent_sha msg f st)
    as [s|e s]; simpl in *; [rewrite IH|]; exact H.
Qed.

Lemma process_item_locals (it : item) st :
  locals (state_of (process_item get_commit_details fetch_file it st))
  = locals st.
Proof.
  unfold process_item.
  destruct (decide (item_sha it ∈ seen_commits st)); [reflexivity|].
  unfold call_commit.
  destruct (get_commit_details (item_repo it) (item_sha it) (world st))
    as [c w1].
  destruct c as [c|]; [|reflexivity].
  destruct (parents c) as [|parent_sha ps]; [reflexivity|].
  destruct (files c) as [|f0 fs0]; [reflexivity|].
  destruct (FILES_LIMIT <? Z.of_nat (length (f0 :: fs0))); [reflexivity|].
  rewrite process_files_locals. reflexivity.
Qed.

Lemma process_items_locals (items : list item) st :
  locals (state_of (process_items get_commit_details fetch_file items st))
  = locals st.
Proof.
  revert st. induction items as [|it items IH]; intros st; [reflexivity|].
  cbn [process_items].
  destruct (MAX_COMMITS <=? collected st); [reflexivity|].
  pose proof (process_item_locals it st) as H.
  destruct (process_item get_commit_details fetch_file it st)
    as [s|e s]; simpl in *; [rewrite IH|]; exact H.
Qed.

Lemma pages_loop_same_window (remaining : nat) (query : string) st :
  same_window st
    (state_of (pages_loop search_commits_query get_commit_details
                 fetch_file remaining query st)).
Proof.
  revert st. induction remaining as [|remaining IH]; intros st.
  - split; reflexivity.
  - cbn [pages_loop].
    destruct (MAX_COMMITS <=? collected st); [split; reflexivity|].
    unfold call_search.
    destruct (search_commits_query query (page (locals st)) (world st))
      as [res w1].
    set (st1 := call (ReqSearch query (page (locals st))) w1 st).
    destruct res as [[|it items]|]; [split; reflexivity| |split; reflexivity].
    pose proof (process_items_locals (it :: items) st1) as H.
    destruct (process_items get_commit_details fetch_file (it :: items) st1)
      as [s|e s]; simpl in H.
    + cbn [and_then].
      match goal with
      | |- same_window _ (state_of (pages_loop _ _ _ _ _ ?s2)) =>
          destruct (IH s2) as [H1 H2]
      end.
      split; [rewrite H1 | rewrite H2]; simpl; rewrite H; reflexivity.
    + simpl. split; rewrite H; reflexivity.
Qed.

End WindowFacts.

Lemma strptime_valid (s : string) (d : Date.date) :
  Date.strptime s = Ok d -> Date.valid d = true.
Proof.
  unfold Date.strptime.
  match goal with
  | |- match ?m with _ => _ end = _ -> _ => destruct m as [[[[gY gm] gd] r]|]
  end; [|discriminate].
  destruct (Py.truthy r); [discriminate|].
  match goal with
  | |- (if Date.valid ?x then _ else _) = _ -> _ =>
      destruct (Date.valid x) eqn:E; [|discriminate]
  end.
  intros H. injection H as <-. exact E.
Qed.

Lemma sub_spec (d : Date.date) (k : Z) :
  Date.valid d = true ->
  0 <= k < Date.toordinal d ->
  Date.sub d k = Ok (Date.ord2ymd (Date.toordinal d - k)).
Proof.
  intros Hv Hk.
  pose proof (DateFacts.valid_toordinal_range d Hv) as Hr.
  unfold Date.MAXORDINAL in Hr.
  unfold Date.sub. rewrite Z.add_opp_r.
  destruct ((0 <? Date.toordinal d - k)
            && (Date.toordinal d - k <=? Date.MAXORDINAL)) eqn:Eo;
    [reflexivity|].
  apply andb_false_iff in Eo. unfold Date.MAXORDINAL in Eo.
  destruct Eo as [Eo|Eo]; [apply Z.ltb_ge in Eo|apply Z.leb_gt in Eo]; lia.
Qed.

(** The new end of the window: [k] days earlier, in the same format. *)
Lemma advance_date_spec (s : string) (d : Date.date) (k : Z) :
  Date.strptime s = Ok d ->
  0 <= k <= 999999999 ->
  k < Date.toordinal d ->
  exists d' : Date.date,
    advance_date s k = Ok (Date.strftime d')
    /\ Date.valid d' = true
    /\ Date.toordinal d' = Date.toordinal d - k.
Proof.
  intros Hs Hk Ho.
  pose proof (strptime_valid s d Hs) as Hv.
  pose proof (DateFacts.valid_toordinal_range d Hv) as Hr.
  unfold Date.MAXORDINAL in Hr.
  unfold advance_date. rewrite Hs. cbn [mbind result_bind].
  unfold Date.timedelta.
  destruct ((-999999999 <=? k) && (k <=? 999999999)) eqn:Et.
  2:{ apply andb_false_iff in Et.
      destruct Et as [Et|Et]; apply Z.leb_gt in Et; lia. }
  cbn [mbind result_bind]. rewrite (sub_spec d k Hv) by lia.
  cbn [mbind result_bind].
  destruct (DateFacts.ord2ymd_spec (Date.toordinal d - k))
    as [Hv' Ho']; [unfold Date.MAXORDINAL; lia|].
  exists (Date.ord2ymd (Date.toordinal d - k)).
  split; [reflexivity|]. split; [exact Hv'|]. lia.
Qed.

(** From the year 1000 on the text of a date reads back as the date. *)
Lemma strftime_reads_back (d : Date.date) :
  Date.valid d = true ->
  Date.ymd2ord 1000 1 1 <= Date.toordinal d ->
  Date.strptime (Date.strftime d) = Ok d.
Proof.
  intros Hv Ho.
  apply DateFacts.strptime_strftime; [exact Hv|].
  apply (DateFacts.valid_year_from_ordinal d 1000 Hv).
  change (Date.ymd2ord 1000 1 1) with 364878 in Ho.
  change (Date.days_before_year 1000) with 364877. lia.
Qed.

(** The query of a window is built whenever the window's end is a date
    later than 0001-01-06. *)
Lemma window_query_ok (l : crawl_state) (d : Date.date) :
  Date.strptime (date_end l) = Ok d ->
  DAYS_PER_RANGE - 1 < Date.toordinal d ->
  exists query : string, window_query l = Ok query.
Proof.
  intros Hs Ho.
  pose proof (strptime_valid _ d Hs) as Hv.
  pose proof (DateFacts.valid_toordinal_range d Hv) as Hr.
  unfold Date.MAXORDINAL in Hr.
  change (DAYS_PER_RANGE - 1) with 6 in Ho.
  unfold window_query.
  assert (Hk : exists kw, Py.index KEYWORDS
             (keyword_index l mod Z.of_nat (length KEYWORDS)) = Ok kw).
  { change (Z.of_nat (length KEYWORDS)) with 7.
    pose proof (Z.mod_pos_bound (keyword_index l) 7 ltac:(lia)) as Hm.
    set (j := keyword_index l mod 7) in *.
    assert (Hj : j = 0 \/ j = 1 \/ j = 2 \/ j = 3 \/ j = 4 \/ j = 5
                 \/ j = 6) by lia.
    destruct Hj as [->|[->|[->|[->|[->|[->| ->]]]]]];
      eexists; reflexivity. }
  destruct Hk as [kw ->]. cbn [mbind result_bind].
  rewrite Hs. cbn [mbind result_bind].
  change (Date.timedelta (DAYS_PER_RANGE - 1)) with (Ok 6 : result Z).
  cbn [mbind result_bind]. rewrite (sub_spec d 6 Hv) by lia.
  cbn [mbind result_bind]. eexists; reflexivity.
Qed.

(** C5: when the loop over the pages of a window has ended (page cap
    reached, a page without results, or enough samples), the checkpoint
    that is saved next holds the keyword index plus one, page 1, and as
    end of the window the text of the date exactly [DAYS_PER_RANGE] days
    before the end held so far; from the year 1000 on that text reads
    back as that date.  The end held so far must be a date later than
    0001-01-07, so that the earlier date exists. *)
Theorem C5_window_advance {World : Type}
    (search_commits_query :
       string -> Z -> World -> option (list item) * World)
    (get_commit_details : string -> string -> World -> option commit * World)
    (fetch_file :
       string -> string -> string -> World -> option string * World)
    (st : @process World) (d : Date.date) :
  checkpoint st = locals st ->
  Date.strptime (date_end (checkpoint st)) = Ok d ->
  DAYS_PER_RANGE < Date.toordinal d ->
  exists query : string,
    window_query (locals st) = Ok query
    /\ match pages_loop search_commits_query get_commit_details fetch_file
               (Z.to_nat MAX_PAGES_PER_QUERY) query st with
       | Crashed e st1 =>
           window_turn search_commits_query get_commit_details fetch_file st
           = Crashed e st1
       | Running st1 =>
           exists d' : Date.date,
             let next := mk_state (keyword_index (checkpoint st) + 1)
                           (Date.strftime d') 1 in
             window_turn search_commits_query get_commit_details
               fetch_file st
             = Running (save_state next (set_locals next st1))
             /\ checkpoint
                  (state_of (window_turn search_commits_query
                               get_commit_details fetch_file st))
                = next
             /\ Date.valid d' = true
             /\ Date.toordinal d' = Date.toordinal d - DAYS_PER_RANGE
             /\ (Date.ymd2ord 1000 1 8 <= Date.toordinal d ->
                 Date.strptime (Date.strftime d') = Ok d')
       end.
Proof.
  intros Hck Hs Ho. rewrite Hck in Hs.
  change DAYS_PER_RANGE with 7 in Ho.
  destruct (window_query_ok (locals st) d Hs) as [query Hq];
    [change (DAYS_PER_RANGE - 1) with 6; lia|].
  exists query. split; [exact Hq|].
  unfold window_turn. rewrite Hq.
  pose proof (pages_loop_same_window search_commits_query
                get_commit_details fetch_file
                (Z.to_nat MAX_PAGES_PER_QUERY) query st) as [Hk Hd].
  destruct (pages_loop search_commits_query get_commit_details fetch_file
              (Z.to_nat MAX_PAGES_PER_QUERY) query st) as [st1|e st1];
    [|reflexivity].
  cbn [state_of] in Hk, Hd. cbn [and_then].
  rewrite Hd, Hk, Hck.
  destruct (advance_date_spec (date_end (locals st)) d DAYS_PER_RANGE Hs)
    as (d' & Ha & Hv' & Ho');
    [change DAYS_PER_RANGE with 7; lia | change DAYS_PER_RANGE with 7; lia|].
  rewrite Ha. exists d'. cbv zeta.
  split; [reflexivity|]. split; [reflexivity|].
  split; [exact Hv'|]. split; [exact Ho'|].
  intros H1000. apply strftime_reads_back; [exact Hv'|].
  change (Date.ymd2ord 1000 1 8) with 364885 in H1000.
  change (Date.ymd2ord 1000 1 1) with 364878.
  change DAYS_PER_RANGE with 7 in Ho'. lia.
Qed.

Lemma C5_window_advance_witness :
  let search := fun (_ : string) (_ : Z) (w : unit) =>
    (@None (list item), w) in
  let get := fun (_ _ : string) (w : unit) => (@None commit, w) in
  let fetch := fun (_ _ _ : string) (w : unit) => (@None string, w) in
  let st := mk_process tt [] (∅ : gset string) "" [HEADER_ROW] 0
              (mk_state 0 "2024-03-05" 1) (mk_state 0 "2024-03-05" 1) in
  exists query : string,
    window_query (locals st) = Ok query
    /\ match pages_loop search get fetch
               (Z.to_nat MAX_PAGES_PER_QUERY) query st with
       | Crashed e st1 => window_turn search get fetch st = Crashed e st1
       | Running st1 =>
           exists d' : Date.date,
             let next := mk_state (keyword_index (checkpoint st) + 1)
                           (Date.strftime d') 1 in
             window_turn search get fetch st
             = Running (save_state next (set_locals next st1))
             /\ checkpoint (state_of (window_turn search get fetch st))
                = next
             /\ Date.valid d' = true
             /\ Date.toordinal d' = Date.toordinal (Date.mk_date 2024 3 5)
                                    - DAYS_PER_RANGE
             /\ (Date.ymd2ord 1000 1 8
                 <= Date.toordinal (Date.mk_date 2024 3 5) ->
                 Date.strptime (Date.strftime d') = Ok d')
       end.
Proof.
  intros search get fetch st.
  apply (C5_window_advance search get fetch st (Date.mk_date 2024 3 5)).
  - reflexivity.
  - vm_compute. reflexivity.
  - vm_compute. reflexivity.
Defined.

(** The same turn computed: the window that ended on 2024-03-05 is
    followed by the one that ends on 2024-02-27. *)
Example window_turn_2024_03_05 :
  let search := fun (_ : string) (_ : Z) (w : unit) =>
    (@None (list item), w) in
  let get := fun (_ _ : string) (w : unit) => (@None commit, w) in
  let fetch := fun (_ _ _ : string) (w : unit) => (@None string, w) in
  let st := mk_process tt [] (∅ : gset string) "" [HEADER_ROW] 0
              (mk_state 0 "2024-03-05" 1) (mk_state 0 "2024-03-05" 1) in
  checkpoint (state_of (window_turn search get fetch st))
  = mk_state 1 "2024-02-27" 1.
Proof. vm_compute. reflexivity. Qed.

(* ================================================================== *)
(** * Further properties *)

(** ** The rotator against any pool *)

Lemma index_in_range {A : Type} (l : list A) (i : Z) :
  0 <= i < Z.of_nat (length l) ->
  exists x : A, Py.index l i = Ok x.
Proof.
  intros Hi. unfold Py.index.
  destruct (i <? 0) eqn:E1; [apply Z.ltb_lt in E1; lia|].
  rewrite E1.
  destruct (Z.of_nat (length l) <=? i) eqn:E2; [apply Z.leb_le in E2; lia|].
  cbn [orb].
  destruct (nth_error l (Z.to_nat i)) as [x|] eqn:E3; [exists x; reflexivity|].
  apply nth_error_None in E3. lia.
Qed.

(** A response that is neither 200 nor 403. *)
Definition is_failure (status_code : Z) : bool :=
  negb (status_code =? 200) && negb (status_code =? 403).

Definition failures {Json : Type} (responses : list (Z * Json)) : nat :=
  length (List.filter (fun r => is_failure (fst r)) responses).

(** The short sleeps between the attempts. *)
Definition retry_sleeps (t : list event) : nat :=
  length (List.filter
            (fun e => match e with
                      | EvSleep n => n =? REQUEST_RETRY_SLEEP
                      | EvGet _ _ => false
                      end) t).

Section RotatorFacts.

Variable pool : list string.
Context {Json : Type}.

Let n : Z := pool_size pool.

(** One rate-limited response: the request is sent with the credential
    at the index, then the index moves on. *)
Lemma github_get_from_403 (body : Json) (rest : list (Z * Json))
    (attempts : Z) (c : client) (token : string) :
  Py.index pool (token_index c) = Ok token ->
  github_get_from pool ((403, body) :: rest) attempts c
  = github_get_from pool rest attempts
      (rate_limited pool (emit (EvGet (token_index c) token) c)).
Proof.
  intros H. cbn [github_get_from]. unfold get_headers. rewrite H.
  reflexivity.
Qed.

Lemma cooldowns_app (a b : list event) :
  cooldowns (a ++ b) = cooldowns a ++ cooldowns b.
Proof. unfold cooldowns. apply List.filter_app. Qed.

Lemma tried_app (a b : list event) : tried (a ++ b) = tried a ++ tried b.
Proof. unfold tried. apply flat_map_app. Qed.

Lemma retry_sleeps_app (a b : list event) :
  retry_sleeps (a ++ b) = (retry_sleeps a + retry_sleeps b)%nat.
Proof.
  unfold retry_sleeps. rewrite List.filter_app, length_app. reflexivity.
Qed.

(** A run of rate-limited responses, whatever follows it. *)
Lemma rate_limited_run (bodies : list Json) (rest : list (Z * Json))
    (attempts : Z) :
  forall (i : Z) (tr : list event),
    0 <= i < n ->
    exists new : list event,
      github_get_from pool (map (pair 403) bodies ++ rest) attempts
        (mk_client i tr)
      = github_get_from pool rest attempts
          (mk_client ((i + Z.of_nat (length bodies)) mod n) (tr ++ new))
      /\ Z.of_nat (length (cooldowns new))
         = (i + Z.of_nat (length bodies)) / n
      /\ tried new
         = map (fun j : nat => (i + Z.of_nat j) mod n)
             (seq 0 (length bodies))
      /\ retry_sleeps new = 0%nat.
Proof.
  induction bodies as [|b bodies IH]; intros i tr Hi.
  - exists []. cbn [map app length seq]. rewrite Z.add_0_r, app_nil_r.
    rewrite Z.mod_small by lia. rewrite Z.div_small by lia.
    repeat split; reflexivity.
  - destruct (index_in_range pool i Hi) as [token Ht].
    cbn [map app].
    rewrite (github_get_from_403 b _ attempts (mk_client i tr) token Ht).
    change (token_index (mk_client i tr)) with i.
    destruct (rate_limited_spec pool
                (emit (EvGet i token) (mk_client i tr))) as [Hx Htr].
    set (c1 := rate_limited pool (emit (EvGet i token) (mk_client i tr)))
      in *.
    cbn [token_index trace emit] in Hx, Htr. fold n in Hx, Htr.
    assert (Hi' : 0 <= (i + 1) mod n < n) by (apply Z.mod_pos_bound; lia).
    destruct (IH ((i + 1) mod n)
                (trace c1) Hi') as (new & Hrun & Hcool & Htried & Hretry).
    assert (Ec : c1 = mk_client ((i + 1) mod n) (trace c1)).
    { destruct c1 as [x t]. cbn [token_index trace] in *. subst x.
      reflexivity. }
    rewrite Ec, Hrun, Htr.
    exists (EvGet i token :: EvSleep 1 ::
              (if i =? n - 1 then [EvSleep RATE_LIMIT_SLEEP] else [])
              ++ new).
    cbn [length]. rewrite Nat2Z.inj_succ.
    split; [|split; [|split]].
    + f_equal. f_equal.
      * rewrite Zplus_mod_idemp_l. f_equal. lia.
      * rewrite <- !app_assoc. reflexivity.
    + destruct (i =? n - 1) eqn:E.
      * apply Z.eqb_eq in E.
        assert (E0 : (i + 1) mod n = 0).
        { replace (i + 1) with n by lia. apply Z.mod_same. lia. }
        rewrite E0, Z.add_0_l in Hcool.
        cbn [app cooldowns List.filter is_cooldown].
        change (1 =? RATE_LIMIT_SLEEP) with false.
        change (RATE_LIMIT_SLEEP =? RATE_LIMIT_SLEEP) with true.
        cbn iota. fold (cooldowns new). cbn [length].
        rewrite Nat2Z.inj_succ, Hcool.
        replace (i + Z.succ (Z.of_nat (length bodies)))
          with (Z.of_nat (length bodies) + 1 * n) by lia.
        rewrite Z.div_add by lia. lia.
      * apply Z.eqb_neq in E.
        rewrite Z.mod_small in Hcool by lia.
        cbn [app cooldowns List.filter is_cooldown].
        change (1 =? RATE_LIMIT_SLEEP) with false. cbn iota.
        fold (cooldowns new). rewrite Hcool. f_equal. lia.
    + replace (EvGet i token :: EvSleep 1 ::
                 (if i =? n - 1 then [EvSleep RATE_LIMIT_SLEEP] else [])
                 ++ new)
        with ([EvGet i token; EvSleep 1] ++
                (if i =? n - 1 then [EvSleep RATE_LIMIT_SLEEP] else [])
                ++ new) by reflexivity.
      rewrite !tried_app, Htried.
      assert (Hn : tried (if i =? n - 1
                          then [EvSleep RATE_LIMIT_SLEEP] else []) = []).
      { destruct (i =? n - 1); reflexivity. }
      rewrite Hn. cbn [tried flat_map app seq map].
      rewrite Z.add_0_r, (Z.mod_small i n) by lia. f_equal.
      rewrite <- seq_shift, map_map. apply map_ext. intros j.
      rewrite Zplus_mod_idemp_l. f_equal. lia.
    + replace (EvGet i token :: EvSleep 1 ::
                 (if i =? n - 1 then [EvSleep RATE_LIMIT_SLEEP] else [])
                 ++ new)
        with ([EvGet i token; EvSleep 1] ++
                (if i =? n - 1 then [EvSleep RATE_LIMIT_SLEEP] else [])
                ++ new) by reflexivity.
      rewrite !retry_sleeps_app, Hretry.
      destruct (i =? n - 1); reflexivity.
Qed.

End RotatorFacts.

(** The requests of a trace carry credentials of the pool. *)
Definition from_pool (pool : list string) (e : event) : Prop :=
  match e with
  | EvGet k token =>
      0 <= k < pool_size pool /\ Py.index pool k = Ok token
  | EvSleep _ => True
  end.

Lemma is_failure_split (status_code : Z) :
  is_failure status_code = false ->
  (status_code =? 200) = false ->
  (status_code =? 403) = true.
Proof.
  unfold is_failure. intros H1 H2. rewrite H2 in H1.
  destruct (status_code =? 403); [reflexivity | discriminate H1].
Qed.

Lemma rate_limited_from_pool (pool : list string) (c : client) :
  0 <= token_index c < pool_size pool ->
  0 <= token_index (rate_limited pool c) < pool_size pool
  /\ exists new,
       trace (rate_limited pool c) = trace c ++ new
       /\ Forall (from_pool pool) new
       /\ tried new = []
       /\ retry_sleeps new = 0%nat.
Proof.
  intros Hi. destruct (rate_limited_spec pool c) as [Hx Htr].
  split; [rewrite Hx; apply Z.mod_pos_bound; lia|].
  eexists. split; [exact Htr|].
  destruct (token_index c =? pool_size pool - 1);
    repeat split; repeat constructor.
Qed.

Section RetryFacts.

Variable pool : list string.
Context {Json : Type}.

(** The index never leaves the pool, so no request fails for want of
    a credential. *)
Lemma github_get_from_in_pool (responses : list (Z * Json)) :
  forall (attempts : Z) (c : client),
    0 <= token_index c < pool_size pool ->
    (exists r, fst (github_get_from pool responses attempts c) = Ok r)
    /\ 0 <= token_index (snd (github_get_from pool responses attempts c))
       < pool_size pool
    /\ exists new,
         trace (snd (github_get_from pool responses attempts c))
         = trace c ++ new
         /\ Forall (from_pool pool) new
         /\ (length (tried new) <= length responses)%nat.
Proof.
  induction responses as [|[status_code body] rest IH];
    intros attempts c Hi.
  - cbn [github_get_from fst snd]. split; [eexists; reflexivity|].
    split; [exact Hi|]. exists []. rewrite app_nil_r.
    repeat split. constructor. cbn. lia.
  - destruct (index_in_range pool (token_index c) Hi) as [token Ht].
    cbn [github_get_from]. unfold get_headers. rewrite Ht.
    set (c1 := emit (EvGet (token_index c) token) c).
    assert (Hc1 : 0 <= token_index c1 < pool_size pool) by exact Hi.
    assert (Hg : from_pool pool (EvGet (token_index c) token))
      by (split; assumption).
    destruct (status_code =? 200).
    { cbn [fst snd]. split; [eexists; reflexivity|]. split; [exact Hc1|].
      exists [EvGet (token_index c) token]. repeat split.
      - constructor; [exact Hg | constructor].
      - cbn. lia. }
    destruct (status_code =? 403).
    { destruct (rate_limited_from_pool pool c1 Hc1)
        as (Hi2 & new1 & Ht1 & Hf1 & Hd1 & _).
      destruct (IH attempts (rate_limited pool c1) Hi2)
        as (Hr & Hi3 & new & Hnew & Hf & Hlen).
      split; [exact Hr|]. split; [exact Hi3|].
      exists (EvGet (token_index c) token :: new1 ++ new).
      split; [|split].
      - rewrite Hnew, Ht1. unfold c1. cbn [emit trace].
        rewrite <- !app_assoc. reflexivity.
      - constructor; [exact Hg|]. apply Forall_app. split; assumption.
      - change (EvGet (token_index c) token :: new1 ++ new)
          with ([EvGet (token_index c) token] ++ new1 ++ new).
        rewrite !tried_app, Hd1. cbn [tried flat_map app length]. lia. }
    destruct (3 <? attempts + 1).
    { cbn [fst snd]. split; [eexists; reflexivity|]. split; [exact Hc1|].
      exists [EvGet (token_index c) token]. repeat split.
      - constructor; [exact Hg | constructor].
      - cbn. lia. }
    destruct (IH (attempts + 1) (emit (EvSleep REQUEST_RETRY_SLEEP) c1) Hc1)
      as (Hr & Hi3 & new & Hnew & Hf & Hlen).
    split; [exact Hr|]. split; [exact Hi3|].
    exists (EvGet (token_index c) token :: EvSleep REQUEST_RETRY_SLEEP :: new).
    split; [|split].
    + rewrite Hnew. unfold c1. cbn [emit trace].
      rewrite <- !app_assoc. reflexivity.
    + constructor; [exact Hg|]. constructor; [exact I | exact Hf].
    + cbn [tried flat_map app length]. fold (tried new). lia.
Qed.

(** The loop gives up only at a fourth failure. *)
Lemma github_get_from_gives_up (responses : list (Z * Json)) :
  forall (attempts : Z) (c : client),
    fst (github_get_from pool responses attempts c) = Ok (Some None) ->
    4 <= attempts + Z.of_nat (failures responses).
Proof.
  induction responses as [|[status_code body] rest IH];
    intros attempts c H.
  - discriminate H.
  - cbn [github_get_from] in H.
    destruct (get_headers pool c) as [token|e]; [|discriminate H].
    unfold failures. cbn [List.filter fst]. unfold is_failure at 1.
    destruct (status_code =? 200); [discriminate H|].
    destruct (status_code =? 403).
    { cbn [negb andb]. apply IH in H. exact H. }
    cbn [negb andb length]. fold (failures rest).
    destruct (3 <? attempts + 1) eqn:E.
    + apply Z.ltb_lt in E. lia.
    + apply IH in H. lia.
Qed.

(** At the fourth failure the loop gives up, whatever rate limits came
    in between; what the server would answer next is not asked for. *)
Lemma github_get_from_fourth_failure (before : list (Z * Json))
    (status_code : Z) (body : Json) (rest : list (Z * Json)) :
  forall (attempts : Z) (c : client),
    0 <= token_index c < pool_size pool ->
    Forall (fun r => fst r <> 200) before ->
    attempts + Z.of_nat (failures before) = 3 ->
    is_failure status_code = true ->
    fst (github_get_from pool (before ++ (status_code, body) :: rest)
           attempts c) = Ok (Some None)
    /\ exists new,
         trace (snd (github_get_from pool
                       (before ++ (status_code, body) :: rest) attempts c))
         = trace c ++ new
         /\ length (tried new) = S (length before)
         /\ retry_sleeps new = failures before.
Proof.
  induction before as [|[s b] before IH];
    intros attempts c Hi H200 Ha Hs.
  - destruct (index_in_range pool (token_index c) Hi) as [token Ht].
    cbn [app github_get_from]. unfold get_headers. rewrite Ht.
    unfold is_failure in Hs. apply andb_true_iff in Hs.
    destruct Hs as [Hs1 Hs2]. apply negb_true_iff in Hs1, Hs2.
    rewrite Hs1, Hs2.
    unfold failures in Ha. cbn in Ha.
    assert (E : (3 <? attempts + 1) = true) by (apply Z.ltb_lt; lia).
    rewrite E. cbn [fst snd emit trace].
    split; [reflexivity|]. eexists. split; [reflexivity|].
    split; reflexivity.
  - destruct (index_in_range pool (token_index c) Hi) as [token Ht].
    apply Forall_cons in H200. destruct H200 as [Hne H200].
    cbn [fst] in Hne. apply Z.eqb_neq in Hne.
    cbn [app github_get_from]. unfold get_headers. rewrite Ht, Hne.
    set (c1 := emit (EvGet (token_index c) token) c).
    assert (Hc1 : 0 <= token_index c1 < pool_size pool) by exact Hi.
    unfold failures in Ha. cbn [List.filter fst] in Ha.
    destruct (is_failure s) eqn:Ef.
    + unfold is_failure in Ef. apply andb_true_iff in Ef.
      destruct Ef as [_ Ef]. apply negb_true_iff in Ef. rewrite Ef.
      cbn [length] in Ha. fold (failures before) in Ha.
      assert (E : (3 <? attempts + 1) = false) by (apply Z.ltb_ge; lia).
      rewrite E.
      destruct (IH (attempts + 1) (emit (EvSleep REQUEST_RETRY_SLEEP) c1)
                  Hc1 H200 ltac:(lia) Hs) as (Hr & new & Hnew & Hl & Hq).
      split; [exact Hr|].
      exists (EvGet (token_index c) token
                :: EvSleep REQUEST_RETRY_SLEEP :: new).
      split; [|split].
      * rewrite Hnew. unfold c1. cbn [emit trace].
        rewrite <- !app_assoc. reflexivity.
      * cbn [tried flat_map app length]. fold (tried new).
        rewrite Hl. reflexivity.
      * unfold failures. cbn [List.filter fst].
        unfold is_failure at 1. rewrite Hne, Ef. cbn [negb andb length].
        fold (failures before). rewrite <- Hq. reflexivity.
    + rewrite (is_failure_split s Ef Hne).
      fold (failures before) in Ha.
      destruct (rate_limited_from_pool pool c1 Hc1)
        as (Hi2 & new1 & Ht1 & _ & Hd1 & Hq1).
      destruct (IH attempts (rate_limited pool c1) Hi2 H200 Ha Hs)
        as (Hr & new & Hnew & Hl & Hq).
      split; [exact Hr|].
      exists ([EvGet (token_index c) token] ++ new1 ++ new).
      split; [|split].
      * rewrite Hnew, Ht1. unfold c1. cbn [emit trace].
        rewrite <- !app_assoc. reflexivity.
      * rewrite !tried_app, Hd1, !length_app, Hl. reflexivity.
      * rewrite !retry_sleeps_app, Hq1, Hq.
        unfold failures at 2. cbn [List.filter fst]. rewrite Ef.
        reflexivity.
Qed.

End RetryFacts.

(** X1: for a pool of any size and any starting index [i], [k]
    rate-limited responses in a row are answered by [k] requests that
    use the credentials [i], [i+1], ... round robin, leave the index at
    [(i + k) mod n] and contain [(i + k) / n] long sleeps, one for each
    step from the last credential to the first; the call is then still
    waiting. *)
Theorem rotation_any_pool {Json : Type} (pool : list string)
    (bodies : list Json) (i : Z) (tr : list event) :
  0 <= i < pool_size pool ->
  let k := Z.of_nat (length bodies) in
  let rc := github_get pool (map (pair 403) bodies) (mk_client i tr) in
  fst rc = Ok None
  /\ token_index (snd rc) = (i + k) mod pool_size pool
  /\ exists new,
       trace (snd rc) = tr ++ new
       /\ Z.of_nat (length (cooldowns new)) = (i + k) / pool_size pool
       /\ tried new
          = map (fun j : nat => (i + Z.of_nat j) mod pool_size pool)
              (seq 0 (length bodies)).
Proof.
  intros Hi k rc.
  destruct (rate_limited_run pool bodies [] 0 i tr Hi)
    as (new & Hrun & Hc & Ht & _).
  rewrite app_nil_r in Hrun. subst rc. unfold github_get. rewrite Hrun.
  cbn [github_get_from fst snd token_index trace].
  split; [reflexivity|]. split; [reflexivity|].
  exists new. split; [reflexivity|]. split; assumption.
Qed.

Lemma rotation_any_pool_witness :
  let rc := github_get ["k0"; "k1"] [(403, tt); (403, tt); (403, tt)]
              (mk_client 1 []) in
  fst rc = Ok None
  /\ token_index (snd rc) = 0
  /\ exists new,
       trace (snd rc) = [] ++ new
       /\ Z.of_nat (length (cooldowns new)) = 2
       /\ tried new = [1; 0; 1].
Proof.
  apply (rotation_any_pool ["k0"; "k1"] [tt; tt; tt] 1 []).
  vm_compute. split; [discriminate | reflexivity].
Defined.

(** X2: rate limits never make [github_get] give up: after any number
    of 403 responses the first 200 response is returned, the request
    that got it carries the credential the rotation has reached, and no
    retry sleep has been spent. *)
Theorem github_get_answer_after_rate_limits {Json : Type}
    (pool : list string) (bodies : list Json) (body : Json)
    (rest : list (Z * Json)) (i : Z) (tr : list event) :
  0 <= i < pool_size pool ->
  let at_last := (i + Z.of_nat (length bodies)) mod pool_size pool in
  let rc := github_get pool (map (pair 403) bodies ++ (200, body) :: rest)
              (mk_client i tr) in
  fst rc = Ok (Some (Some body))
  /\ token_index (snd rc) = at_last
  /\ exists new token,
       trace (snd rc) = tr ++ new ++ [EvGet at_last token]
       /\ Py.index pool at_last = Ok token
       /\ length (tried new) = length bodies
       /\ retry_sleeps new = 0%nat.
Proof.
  intros Hi at_last rc.
  destruct (rate_limited_run pool bodies ((200, body) :: rest) 0 i tr Hi)
    as (new & Hrun & _ & Ht & Hq).
  fold at_last in Hrun.
  assert (Hl : 0 <= at_last < pool_size pool)
    by (apply Z.mod_pos_bound; lia).
  destruct (index_in_range pool at_last Hl) as [token Htok].
  subst rc. unfold github_get. rewrite Hrun.
  cbn [github_get_from]. unfold get_headers.
  cbn [token_index]. rewrite Htok.
  change (200 =? 200) with true. cbn iota.
  cbn [fst snd emit token_index trace].
  split; [reflexivity|]. split; [reflexivity|].
  exists new, token. split; [rewrite <- app_assoc; reflexivity|].
  split; [reflexivity|]. split; [|exact Hq].
  rewrite Ht, length_map, length_seq. reflexivity.
Qed.

Lemma github_get_answer_after_rate_limits_witness :
  fst (github_get ["k0"; "k1"; "k2"]
         [(403, "a"); (403, "b"); (403, "c"); (403, "d"); (200, "e");
          (500, "f")]
         (mk_client 2 []))
  = Ok (Some (Some "e")).
Proof.
  apply (github_get_answer_after_rate_limits ["k0"; "k1"; "k2"]
           ["a"; "b"; "c"; "d"] "e" [(500, "f")] 2 []).
  vm_compute. split; [discriminate | reflexivity].
Defined.

(** X3: [github_get] gives up at the fourth response that is neither
    200 nor 403: when three such failures, mixed with any number of
    rate limits, are followed by a fourth, it returns [None] after one
    request per response and one short sleep after each of the first
    three failures, and asks for nothing further. *)
Theorem github_get_gives_up_at_fourth_failure {Json : Type}
    (pool : list string) (before : list (Z * Json)) (status_code : Z)
    (body : Json) (rest : list (Z * Json)) (c : client) :
  0 <= token_index c < pool_size pool ->
  Forall (fun r => fst r <> 200) before ->
  failures before = 3%nat ->
  is_failure status_code = true ->
  let rc := github_get pool (before ++ (status_code, body) :: rest) c in
  fst rc = Ok (Some None)
  /\ exists new,
       trace (snd rc) = trace c ++ new
       /\ length (tried new) = S (length before)
       /\ retry_sleeps new = 3%nat.
Proof.
  intros Hi H200 Hf Hs rc.
  destruct (github_get_from_fourth_failure pool before status_code body
              rest 0 c Hi H200 ltac:(lia) Hs) as (Hr & new & Hn & Hl & Hq).
  split; [exact Hr|]. exists new. rewrite <- Hf.
  split; [exact Hn|]. split; assumption.
Qed.

Lemma github_get_gives_up_at_fourth_failure_witness :
  let rc := github_get ["k0"; "k1"]
              [(500, tt); (403, tt); (404, tt); (502, tt); (500, tt);
               (200, tt)]
              (mk_client 0 []) in
  fst rc = Ok (Some None)
  /\ exists new,
       trace (snd rc) = [] ++ new
       /\ length (tried new) = 5%nat
       /\ retry_sleeps new = 3%nat.
Proof.
  apply (github_get_gives_up_at_fourth_failure ["k0"; "k1"]
           [(500, tt); (403, tt); (404, tt); (502, tt)] 500 tt
           [(200, tt)] (mk_client 0 [])).
  - vm_compute. split; [discriminate | reflexivity].
  - repeat constructor; discriminate.
  - reflexivity.
  - reflexivity.
Defined.

(** X4: [github_get] never returns [None] before four responses were
    failures: rate limits and fewer than four failures keep it
    asking. *)
Theorem github_get_gives_up_only_after_four_failures {Json : Type}
    (pool : list string) (responses : list (Z * Json)) (c : client) :
  fst (github_get pool responses c) = Ok (Some None) ->
  (4 <= failures responses)%nat.
Proof.
  intros H. apply github_get_from_gives_up in H. lia.
Qed.

Lemma github_get_gives_up_only_after_four_failures_witness :
  let responses :=
    [(500, tt); (500, tt); (403, tt); (500, tt); (500, tt)] in
  (4 <= failures responses)%nat.
Proof.
  intros responses.
  apply (github_get_gives_up_only_after_four_failures ["k0"]
           [(500, tt); (500, tt); (403, tt); (500, tt); (500, tt)]
           (mk_client 0 [])).
  reflexivity.
Defined.

(** X5: with an index inside the pool at the start, [github_get] never
    stops on an exception, the index stays inside the pool, every
    request carries the credential of the pool at the index it names,
    and no more requests are sent than responses were received. *)
Theorem github_get_stays_in_pool {Json : Type} (pool : list string)
    (responses : list (Z * Json)) (c : client) :
  0 <= token_index c < pool_size pool ->
  let rc := github_get pool responses c in
  (exists r, fst rc = Ok r)
  /\ 0 <= token_index (snd rc) < pool_size pool
  /\ exists new,
       trace (snd rc) = trace c ++ new
       /\ Forall (from_pool pool) new
       /\ (length (tried new) <= length responses)%nat.
Proof.
  intros Hi rc. apply github_get_from_in_pool. exact Hi.
Qed.

Lemma github_get_stays_in_pool_witness :
  let rc := github_get ["k0"; "k1"] [(403, tt); (500, tt); (403, tt)]
              (mk_client 1 []) in
  (exists r, fst rc = Ok r)
  /\ 0 <= token_index (snd rc) < 2.
Proof.
  intros rc.
  destruct (github_get_stays_in_pool ["k0"; "k1"]
              [(403, tt); (500, tt); (403, tt)] (mk_client 1 []))
    as (H1 & H2 & _).
  - vm_compute. split; [discriminate | reflexivity].
  - split; [exact H1 | exact H2].
Defined.

(** ** The reset script, path by path *)

Lemma backup_one_absent (sub : string) (fs : gmap string string)
    (file : string) :
  fs !! file = None -> backup_one sub fs file = fs.
Proof. intros H. unfold backup_one. rewrite H. reflexivity. Qed.

Lemma backup_one_copy (sub : string) (fs : gmap string string)
    (file content : string) :
  fs !! file = Some content ->
  path_join sub file <> file ->
  backup_one sub fs file !! path_join sub file = Some content.
Proof.
  intros H Hne. unfold backup_one. rewrite H.
  rewrite lookup_delete_ne by (intros E; apply Hne; symmetry; exact E).
  apply lookup_insert_eq.
Qed.

Lemma tracker_file_cases (file : string) :
  In file TRACKER_FILES ->
  file = "seen_commits.txt" \/ file = "last_date.txt".
Proof.
  intros [H|[H|[]]]; [left | right]; symmetry; exact H.
Qed.

Lemma backup_path_not_tracker (ts file k : string) :
  In k TRACKER_FILES ->
  path_join (path_join BACKUP_DIR ("backup_" +:+ ts)) file <> k.
Proof.
  intros Hk. apply backup_path_not_plain.
  destruct (tracker_file_cases k Hk) as [-> | ->]; reflexivity.
Qed.

Lemma backup_and_reset_tracker_gone (ts : string)
    (fs : gmap string string) (file : string) :
  In file TRACKER_FILES -> backup_and_reset ts fs !! file = None.
Proof.
  intros Hin. unfold backup_and_reset. cbn [TRACKER_FILES fold_left].
  destruct (tracker_file_cases file Hin) as [-> | ->].
  - rewrite backup_one_other;
      [apply backup_one_removed | discriminate|].
    apply backup_path_not_tracker. left; reflexivity.
  - apply backup_one_removed.
Qed.

(** X6: what [backup_and_reset] does to every path.  A tracker file is
    gone afterwards; if it existed, its contents are under the backup
    directory of the call, and if it did not, nothing is written there;
    every other path keeps what it had. *)
Theorem backup_and_reset_every_path (ts : string)
    (fs : gmap string string) :
  let sub := path_join BACKUP_DIR ("backup_" +:+ ts) in
  (forall file, In file TRACKER_FILES ->
     backup_and_reset ts fs !! file = None
     /\ backup_and_reset ts fs !! path_join sub file
        = match fs !! file with
          | Some content => Some content
          | None => fs !! path_join sub file
          end)
  /\ (forall k,
        ~ In k TRACKER_FILES ->
        (forall file, In file TRACKER_FILES -> k <> path_join sub file) ->
        backup_and_reset ts fs !! k = fs !! k).
Proof.
  intros sub.
  assert (Hseen : In "seen_commits.txt" TRACKER_FILES) by (left; reflexivity).
  assert (Hlast : In "last_date.txt" TRACKER_FILES)
    by (right; left; reflexivity).
  split.
  - intros file Hin.
    split; [apply backup_and_reset_tracker_gone; exact Hin|].
    unfold backup_and_reset. fold sub.
    cbn [TRACKER_FILES fold_left].
    destruct (tracker_file_cases file Hin) as [-> | ->].
    + rewrite backup_one_other.
      * destruct (fs !! "seen_commits.txt") as [content|] eqn:E.
        -- apply backup_one_copy; [exact E|].
           apply backup_path_not_tracker; exact Hseen.
        -- rewrite backup_one_absent by exact E. reflexivity.
      * intros E. symmetry in E. revert E.
        apply backup_path_not_tracker; exact Hlast.
      * intros E. apply path_join_inj in E. discriminate E.
    + assert (Hsame : backup_one sub fs "seen_commits.txt"
                        !! "last_date.txt" = fs !! "last_date.txt").
      { apply backup_one_other; [discriminate|].
        apply backup_path_not_tracker; exact Hlast. }
      destruct (fs !! "last_date.txt") as [content|] eqn:E.
      * apply backup_one_copy; [exact Hsame|].
        apply backup_path_not_tracker; exact Hlast.
      * rewrite backup_one_absent by exact Hsame.
        apply backup_one_other.
        -- intros E'. symmetry in E'. revert E'.
           apply backup_path_not_tracker; exact Hseen.
        -- intros E'. apply path_join_inj in E'. discriminate E'.
  - intros k Hk Hb. unfold backup_and_reset. fold sub.
    cbn [TRACKER_FILES fold_left].
    rewrite !backup_one_other; try reflexivity.
    + intros E. apply Hk. rewrite <- E. exact Hseen.
    + intros E. apply (Hb _ Hseen). symmetry. exact E.
    + intros E. apply Hk. rewrite <- E. exact Hlast.
    + intros E. apply (Hb _ Hlast). symmetry. exact E.
Qed.

(** X7: a reset right after a reset changes no file: the tracker files
    are gone, so the second call finds nothing to back up and the first
    backup stays as it is. *)
Theorem backup_and_reset_twice (ts1 ts2 : string)
    (fs : gmap string string) :
  backup_and_reset ts2 (backup_and_reset ts1 fs) = backup_and_reset ts1 fs.
Proof.
  assert (H1 : backup_and_reset ts1 fs !! "seen_commits.txt" = None)
    by (apply backup_and_reset_tracker_gone; left; reflexivity).
  assert (H2 : backup_and_reset ts1 fs !! "last_date.txt" = None)
    by (apply backup_and_reset_tracker_gone; right; left; reflexivity).
  unfold backup_and_reset at 1. cbn [TRACKER_FILES fold_left].
  rewrite (backup_one_absent _ _ _ H1).
  apply backup_one_absent. exact H2.
Qed.

(** ** Moving the end of the window *)

(** [advance_date] on a text that reads as the date [d]: the text of
    the date [days] days earlier if there is one, else an
    [OverflowError]. *)
Lemma advance_date_eq (s : string) (d : Date.date) (days : Z) :
  Date.strptime s = Ok d ->
  advance_date s days
  = if (1 <=? Date.toordinal d - days)
       && (Date.toordinal d - days <=? Date.MAXORDINAL)
    then Ok (Date.strftime (Date.ord2ymd (Date.toordinal d - days)))
    else Raise OverflowError.
Proof.
  intros Hs.
  pose proof (strptime_valid s d Hs) as Hv.
  pose proof (DateFacts.valid_toordinal_range d Hv) as Hr.
  unfold Date.MAXORDINAL in *.
  unfold advance_date. rewrite Hs. cbn [mbind result_bind].
  unfold Date.timedelta.
  destruct ((-999999999 <=? days) && (days <=? 999999999)) eqn:Et.
  - cbn [mbind result_bind]. unfold Date.sub.
    rewrite Z.add_opp_r. unfold Date.MAXORDINAL.
    replace (0 <? Date.toordinal d - days)
      with (1 <=? Date.toordinal d - days)
      by (destruct (Z.leb_spec 1 (Date.toordinal d - days));
          destruct (Z.ltb_spec 0 (Date.toordinal d - days));
          first [reflexivity | lia]).
    destruct ((1 <=? Date.toordinal d - days)
              && (Date.toordinal d - days <=? 3652059)); reflexivity.
  - cbn [mbind result_bind].
    destruct ((1 <=? Date.toordinal d - days)
              && (Date.toordinal d - days <=? 3652059)) eqn:Eo;
      [|reflexivity].
    apply andb_true_iff in Eo. destruct Eo as [E1 E2].
    apply Z.leb_le in E1, E2.
    apply andb_false_iff in Et.
    destruct Et as [Et|Et]; apply Z.leb_gt in Et; lia.
Qed.

(** X8: [advance_date] on a text that reads as a date [d], for any
    number of days, positive or negative: if the day that many days
    before [d] lies between 0001-01-01 and 9999-12-31, the result is
    the text of exactly that day; if not, the call raises
    [OverflowError]. *)
Theorem advance_date_range (s : string) (d : Date.date) (days : Z) :
  Date.strptime s = Ok d ->
  (1 <= Date.toordinal d - days <= Date.MAXORDINAL ->
   exists d' : Date.date,
     advance_date s days = Ok (Date.strftime d')
     /\ Date.valid d' = true
     /\ Date.toordinal d' = Date.toordinal d - days)
  /\ (~ 1 <= Date.toordinal d - days <= Date.MAXORDINAL ->
      advance_date s days = Raise OverflowError).
Proof.
  intros Hs. rewrite (advance_date_eq s d days Hs). split.
  - intros Hr.
    destruct (DateFacts.ord2ymd_spec (Date.toordinal d - days) Hr)
      as [Hv Ho].
    exists (Date.ord2ymd (Date.toordinal d - days)).
    split; [|split; assumption].
    destruct Hr as [H1 H2]. apply Z.leb_le in H1, H2.
    rewrite H1, H2. reflexivity.
  - intros Hr.
    destruct ((1 <=? Date.toordinal d - days)
              && (Date.toordinal d - days <=? Date.MAXORDINAL)) eqn:E;
      [|reflexivity].
    apply andb_true_iff in E. destruct E as [E1 E2].
    apply Z.leb_le in E1, E2. exfalso. apply Hr. split; assumption.
Qed.

Lemma advance_date_range_witness :
  (1 <= Date.toordinal (Date.mk_date 2024 3 1) - 1 <= Date.MAXORDINAL ->
   exists d' : Date.date,
     advance_date "2024-3-1" 1 = Ok (Date.strftime d')
     /\ Date.valid d' = true
     /\ Date.toordinal d' = Date.toordinal (Date.mk_date 2024 3 1) - 1)
  /\ (~ 1 <= Date.toordinal (Date.mk_date 2024 3 1) - 1
           <= Date.MAXORDINAL ->
      advance_date "2024-3-1" 1 = Raise OverflowError).
Proof.
  apply (advance_date_range "2024-3-1" (Date.mk_date 2024 3 1) 1).
  vm_compute. reflexivity.
Defined.

(** X9: steps of [advance_date] add up: from a text that reads as a
    date, a step of [a] days that ends in the year 1000 or later gives
    a text from which a step of [b] days is the same, result or
    exception, as one step of [a + b] days from the first text. *)
Theorem advance_date_steps_add_up (s : string) (d : Date.date) (a : Z) :
  Date.strptime s = Ok d ->
  Date.ymd2ord 1000 1 1 <= Date.toordinal d - a <= Date.MAXORDINAL ->
  exists s1 : string,
    advance_date s a = Ok s1
    /\ forall b : Z, advance_date s1 b = advance_date s (a + b).
Proof.
  intros Hs Hr.
  change (Date.ymd2ord 1000 1 1) with 364878 in Hr.
  assert (Hr1 : 1 <= Date.toordinal d - a <= Date.MAXORDINAL) by lia.
  destruct (DateFacts.ord2ymd_spec (Date.toordinal d - a) Hr1) as [Hv Ho].
  set (d1 := Date.ord2ymd (Date.toordinal d - a)) in *.
  exists (Date.strftime d1). split.
  - rewrite (advance_date_eq s d a Hs).
    destruct Hr1 as [H1 H2]. apply Z.leb_le in H1, H2.
    rewrite H1, H2. reflexivity.
  - intros b.
    assert (Hs1 : Date.strptime (Date.strftime d1) = Ok d1).
    { apply strftime_reads_back; [exact Hv|].
      change (Date.ymd2ord 1000 1 1) with 364878. lia. }
    rewrite (advance_date_eq _ d1 b Hs1), (advance_date_eq s d (a + b) Hs).
    rewrite Ho. replace (Date.toordinal d - a - b)
      with (Date.toordinal d - (a + b)) by lia.
    reflexivity.
Qed.

Lemma advance_date_steps_add_up_witness :
  exists s1 : string,
    advance_date "2024-03-05" 7 = Ok s1
    /\ forall b : Z, advance_date s1 b = advance_date "2024-03-05" (7 + b).
Proof.
  apply (advance_date_steps_add_up "2024-03-05" (Date.mk_date 2024 3 5) 7).
  - vm_compute. reflexivity.
  - vm_compute. split; discriminate.
Defined.

(** *** Texts that are no date *)

Lemma chars2_length (p q : ascii -> bool) (s g r : string) :
  Date.chars2 p q s = Some (g, r) ->
  String.length s = S (S (String.length r)).
Proof.
  destruct s as [|a [|b s]]; try discriminate. cbn [Date.chars2].
  destruct (p a && q b); [|discriminate].
  intros H. injection H as _ <-. reflexivity.
Qed.

Lemma chars1_length (p : ascii -> bool) (s g r : string) :
  Date.chars1 p s = Some (g, r) ->
  String.length s = S (String.length r).
Proof.
  destruct s as [|a s]; try discriminate. cbn [Date.chars1].
  destruct (p a); [|discriminate].
  intros H. injection H as _ <-. reflexivity.
Qed.

Lemma expect_length (p s r : string) :
  Py.expect p s = Some r ->
  String.length s = (String.length p + String.length r)%nat.
Proof.
  revert s. induction p as [|a p IH]; intros s H.
  - injection H as <-. reflexivity.
  - destruct s as [|b s]; [discriminate H|]. cbn [Py.expect] in H.
    destruct (Ascii.eqb a b); [|discriminate H].
    cbn [String.length]. rewrite (IH s H). reflexivity.
Qed.

Lemma group_Y_length (s g r : string) :
  Date.group_Y s = Some (g, r) ->
  String.length s = (4 + String.length r)%nat.
Proof.
  unfold Date.group_Y.
  destruct (Date.chars2 Py.is_digit Py.is_digit s) as [[a r1]|] eqn:E1;
    [|discriminate].
  cbn [mbind option_bind].
  destruct (Date.chars2 Py.is_digit Py.is_digit r1) as [[b r2]|] eqn:E2;
    [|discriminate].
  cbn [mbind option_bind]. intros H. injection H as _ <-.
  apply chars2_length in E1, E2. lia.
Qed.

Lemma group_m_length (s g r : string) :
  Date.group_m s = Some (g, r) ->
  (String.length r + 1 <= String.length s <= String.length r + 2)%nat.
Proof.
  unfold Date.group_m, Date.orelse.
  repeat match goal with
  | |- context [match Date.chars2 ?p ?q s with _ => _ end] =>
      let E := fresh "E" in
      destruct (Date.chars2 p q s) as [[? ?]|] eqn:E;
      [intros H; injection H as -> ->; apply chars2_length in E; lia|]
  end.
  intros H. apply chars1_length in H. lia.
Qed.

Lemma group_d_length (s g r : string) :
  Date.group_d s = Some (g, r) ->
  (String.length r + 1 <= String.length s <= String.length r + 2)%nat.
Proof.
  unfold Date.group_d, Date.orelse.
  destruct (Date.chars2 (Date.between "3" "3") (Date.between "0" "1") s)
    as [[? ?]|] eqn:E1;
    [intros H; injection H as -> ->; apply chars2_length in E1; lia|].
  destruct (Date.chars2 (Date.between "1" "2") Py.is_digit s)
    as [[? ?]|] eqn:E2;
    [intros H; injection H as -> ->; apply chars2_length in E2; lia|].
  destruct (Date.chars2 (Date.between "0" "0") (Date.between "1" "9") s)
    as [[? ?]|] eqn:E3;
    [intros H; injection H as -> ->; apply chars2_length in E3; lia|].
  destruct (Date.chars1 (Date.between "1" "9") s)
    as [[? ?]|] eqn:E4;
    [intros H; injection H as -> ->; apply chars1_length in E4; lia|].
  intros H. apply chars2_length in H. lia.
Qed.

(** [strptime] raises nothing but [ValueError], and reads only texts
    of eight to ten characters. *)
Lemma strptime_shape (s : string) :
  match Date.strptime s with
  | Ok _ => (8 <= String.length s <= 10)%nat
  | Raise e => e = ValueError
  end.
Proof.
  unfold Date.strptime.
  destruct (Date.group_Y s) as [[gY r1]|] eqn:EY;
    cbn [mbind option_bind]; [|reflexivity].
  destruct (Py.expect "-" r1) as [r2|] eqn:E1;
    cbn [mbind option_bind]; [|reflexivity].
  destruct (Date.group_m r2) as [[gm r3]|] eqn:Em;
    cbn [mbind option_bind]; [|reflexivity].
  destruct (Py.expect "-" r3) as [r4|] eqn:E2;
    cbn [mbind option_bind]; [|reflexivity].
  destruct (Date.group_d r4) as [[gd r5]|] eqn:Ed;
    cbn [mbind option_bind]; [|reflexivity].
  destruct r5 as [|c r5]; cbn [Py.truthy]; [|reflexivity].
  destruct (Date.valid _); [|reflexivity].
  apply group_Y_length in EY. apply expect_length in E1, E2.
  apply group_m_length in Em. apply group_d_length in Ed.
  cbn [String.length] in *. lia.
Qed.

Lemma keyword_of_index (k : Z) :
  exists keyword : string,
    Py.index KEYWORDS (k mod Z.of_nat (length KEYWORDS)) = Ok keyword.
Proof.
  apply index_in_range. apply Z.mod_pos_bound. reflexivity.
Qed.

(** X10: a checkpoint whose [date_end] has fewer than eight or more
    than ten characters is no date: [advance_date] raises [ValueError]
    on it, and a run that starts from it stops with [ValueError] at the
    first window, before any request is sent and any row is written. *)
Theorem malformed_date_stops_run {World : Type}
    (search_commits_query :
       string -> Z -> World -> option (list item) * World)
    (get_commit_details : string -> string -> World -> option commit * World)
    (fetch_file :
       string -> string -> string -> World -> option string * World)
    (st : @process World) (fuel : nat) (days : Z) :
  (String.length (date_end (locals st)) < 8
   \/ 10 < String.length (date_end (locals st)))%nat ->
  collected st < MAX_COMMITS ->
  advance_date (date_end (locals st)) days = Raise ValueError
  /\ main_loop search_commits_query get_commit_details fetch_file
       (S fuel) st
     = Crashed ValueError st.
Proof.
  intros Hlen Hc.
  pose proof (strptime_shape (date_end (locals st))) as Hs.
  destruct (Date.strptime (date_end (locals st))) as [d|e] eqn:E; [lia|].
  subst e. split.
  - unfold advance_date. rewrite E. reflexivity.
  - cbn [main_loop].
    destruct (MAX_COMMITS <=? collected st) eqn:Em;
      [apply Z.leb_le in Em; lia|].
    unfold window_turn, window_query.
    destruct (keyword_of_index (keyword_index (locals st))) as [kw ->].
    cbn [mbind result_bind]. rewrite E. reflexivity.
Qed.

Lemma malformed_date_stops_run_witness :
  let search := fun (_ : string) (_ : Z) (w : unit) =>
    (@None (list item), w) in
  let get := fun (_ _ : string) (w : unit) => (@None commit, w) in
  let fetch := fun (_ _ _ : string) (w : unit) => (@None string, w) in
  let st := mk_process tt [] (∅ : gset string) "" [HEADER_ROW] 0
              (mk_state 0 "2024-03" 1) (mk_state 0 "2024-03" 1) in
  advance_date "2024-03" 7 = Raise ValueError
  /\ main_loop search get fetch 1 st = Crashed ValueError st.
Proof.
  intros search get fetch st.
  apply (malformed_date_stops_run search get fetch st 0 7).
  - left. vm_compute. lia.
  - reflexivity.
Defined.

(** X11: the windows tile the calendar.  The query of a window names
    the keyword at [keyword_index mod 7] and the days from six days
    before the end of the window to the end itself, and the end that
    [advance_date] gives for the next window is the day before the
    first day of this one: no day is searched twice in a row and none
    is left out between two windows. *)
Theorem windows_tile_the_calendar (l : crawl_state) (d : Date.date) :
  Date.strptime (date_end l) = Ok d ->
  DAYS_PER_RANGE < Date.toordinal d ->
  exists (keyword : string) (first next : Date.date),
    Py.index KEYWORDS (keyword_index l mod 7) = Ok keyword
    /\ window_query l
       = Ok (keyword +:+ "+language:Python+committer-date:"
             +:+ Date.strftime first +:+ ".." +:+ Date.strftime d)
    /\ Date.valid first = true
    /\ Date.toordinal first = Date.toordinal d - (DAYS_PER_RANGE - 1)
    /\ advance_date (date_end l) DAYS_PER_RANGE = Ok (Date.strftime next)
    /\ Date.valid next = true
    /\ Date.toordinal next = Date.toordinal first - 1.
Proof.
  intros Hs Ho. change DAYS_PER_RANGE with 7 in *.
  pose proof (strptime_valid _ d Hs) as Hv.
  pose proof (DateFacts.valid_toordinal_range d Hv) as Hr.
  destruct (keyword_of_index (keyword_index l)) as [keyword Hk].
  change (Z.of_nat (length KEYWORDS)) with 7 in Hk.
  destruct (DateFacts.ord2ymd_spec (Date.toordinal d - 6)) as [Hv1 Ho1];
    [lia|].
  destruct (DateFacts.ord2ymd_spec (Date.toordinal d - 7)) as [Hv2 Ho2];
    [lia|].
  exists keyword, (Date.ord2ymd (Date.toordinal d - 6)),
    (Date.ord2ymd (Date.toordinal d - 7)).
  split; [exact Hk|]. split; [|split; [exact Hv1|split; [exact Ho1|]]].
  - unfold window_query.
    change (Z.of_nat (length KEYWORDS)) with 7. rewrite Hk.
    cbn [mbind result_bind]. rewrite Hs. cbn [mbind result_bind].
    change (Date.timedelta (DAYS_PER_RANGE - 1)) with (Ok 6 : result Z).
    cbn [mbind result_bind]. rewrite (sub_spec d 6 Hv) by lia.
    reflexivity.
  - split; [|split; [exact Hv2 | lia]].
    rewrite (advance_date_eq _ d 7 Hs).
    assert (E1 : (1 <=? Date.toordinal d - 7) = true)
      by (apply Z.leb_le; lia).
    assert (E2 : (Date.toordinal d - 7 <=? Date.MAXORDINAL) = true)
      by (apply Z.leb_le; lia).
    rewrite E1, E2. reflexivity.
Qed.

Lemma windows_tile_the_calendar_witness :
  exists (keyword : string) (first next : Date.date),
    Py.index KEYWORDS (9 mod 7) = Ok keyword
    /\ window_query (mk_state 9 "2024-03-05" 1)
       = Ok (keyword +:+ "+language:Python+committer-date:"
             +:+ Date.strftime first +:+ ".."
             +:+ Date.strftime (Date.mk_date 2024 3 5))
    /\ Date.valid first = true
    /\ Date.toordinal first
       = Date.toordinal (Date.mk_date 2024 3 5) - (DAYS_PER_RANGE - 1)
    /\ advance_date "2024-03-05" DAYS_PER_RANGE = Ok (Date.strftime next)
    /\ Date.valid next = true
    /\ Date.toordinal next = Date.toordinal first - 1.
Proof.
  apply (windows_tile_the_calendar (mk_state 9 "2024-03-05" 1)
           (Date.mk_date 2024 3 5)).
  - vm_compute. reflexivity.
  - vm_compute. reflexivity.
Defined.

(** ** From one commit to a whole run *)

(** A relation between the states of the collector that holds across
    every step outside the loop over the items holds across the loops
    when it holds across that loop.  [good] is what the entries of the
    search pages are known to be. *)
Section Lifting.

Context {World : Type}.
Variable search_commits_query :
  string -> Z -> World -> option (list item) * World.
Variable get_commit_details :
  string -> string -> World -> option commit * World.
Variable fetch_file :
  string -> string -> string -> World -> option string * World.

Variable R : @process World -> @process World -> Prop.
Variable good : item -> Prop.

Hypothesis R_refl : forall st, R st st.
Hypothesis R_trans : forall st1 st2 st3, R st1 st2 -> R st2 st3 -> R st1 st3.
Hypothesis R_search :
  forall query pg w st, R st (call (ReqSearch query pg) w st).
Hypothesis R_locals : forall l st, R st (set_locals l st).
Hypothesis R_save : forall l st, R st (save_state l st).
Hypothesis search_good :
  forall query pg w items w',
    search_commits_query query pg w = (Some items, w') ->
    Forall good items.

Lemma process_items_lift :
  (forall it st, good it ->
     R st (state_of (process_item get_commit_details fetch_file it st))) ->
  forall items st,
    Forall good items ->
    R st (state_of (process_items get_commit_details fetch_file items st)).
Proof.
  intros R_item items. induction items as [|it items IH]; intros st Hg.
  - apply R_refl.
  - cbn [process_items].
    destruct (MAX_COMMITS <=? collected st); [apply R_refl|].
    apply Forall_cons in Hg. destruct Hg as [Hit Hg].
    pose proof (R_item it st Hit) as H1.
    destruct (process_item get_commit_details fetch_file it st)
      as [s|e s]; cbn [and_then state_of] in *; [|exact H1].
    eapply R_trans; [exact H1 | apply IH; exact Hg].
Qed.

Hypothesis R_items :
  forall items st,
    Forall good items ->
    R st (state_of (process_items get_commit_details fetch_file items st)).

Lemma pages_loop_lift (remaining : nat) (query : string) :
  forall st,
    R st (state_of (pages_loop search_commits_query get_commit_details
                      fetch_file remaining query st)).
Proof.
  induction remaining as [|remaining IH]; intros st.
  - apply R_refl.
  - cbn [pages_loop].
    destruct (MAX_COMMITS <=? collected st); [apply R_refl|].
    unfold call_search.
    destruct (search_commits_query query (page (locals st)) (world st))
      as [res w1] eqn:Es.
    pose proof (R_search query (page (locals st)) w1 st) as H1.
    set (st1 := call (ReqSearch query (page (locals st))) w1 st) in *.
    destruct res as [[|it items]|]; [exact H1| |exact H1].
    pose proof (R_items (it :: items) st1
                  (search_good _ _ _ _ _ Es)) as H2.
    destruct (process_items get_commit_details fetch_file (it :: items) st1)
      as [s|e s]; cbn [and_then state_of] in *;
      [|eapply R_trans; [exact H1 | exact H2]].
    cbv zeta.
    eapply R_trans; [exact H1|]. eapply R_trans; [exact H2|].
    eapply R_trans; [apply R_locals|].
    eapply R_trans; [apply R_save|]. apply IH.
Qed.

Lemma window_turn_lift st :
  R st (state_of (window_turn search_commits_query get_commit_details
                    fetch_file st)).
Proof.
  unfold window_turn.
  destruct (window_query (locals st)) as [query|e]; [|apply R_refl].
  pose proof (pages_loop_lift (Z.to_nat MAX_PAGES_PER_QUERY) query st) as H1.
  destruct (pages_loop search_commits_query get_commit_details fetch_file
              (Z.to_nat MAX_PAGES_PER_QUERY) query st) as [s|e s];
    cbn [and_then state_of] in *; [|exact H1].
  destruct (advance_date (date_end (locals s)) DAYS_PER_RANGE) as [d|e];
    cbn [state_of]; [|exact H1].
  eapply R_trans; [exact H1|].
  eapply R_trans; [apply R_locals | apply R_save].
Qed.

Lemma main_loop_lift (fuel : nat) :
  forall st,
    R st (state_of (main_loop search_commits_query get_commit_details
                      fetch_file fuel st)).
Proof.
  induction fuel as [|fuel IH]; intros st.
  - cbn [main_loop].
    destruct (MAX_COMMITS <=? collected st); apply R_refl.
  - cbn [main_loop].
    destruct (MAX_COMMITS <=? collected st); [apply R_refl|].
    pose proof (window_turn_lift st) as H1.
    destruct (window_turn search_commits_query get_commit_details
                fetch_file st) as [s|e s];
      cbn [and_then state_of] in *; [|exact H1].
    eapply R_trans; [exact H1 | apply IH].
Qed.

End Lifting.

(** ** How many rows a run writes *)

Section CountFacts.

Context {World : Type}.
Variable search_commits_query :
  string -> Z -> World -> option (list item) * World.
Variable get_commit_details :
  string -> string -> World -> option commit * World.
Variable fetch_file :
  string -> string -> string -> World -> option string * World.

Implicit Types st : @process World.

Lemma process_file_collected (repo sha parent_sha msg : string)
    (f : file_entry) st :
  collected st
  <= collected (state_of (process_file fetch_file repo sha parent_sha msg
                            f st))
  <= collected st + 1.
Proof.
  unfold process_file.
  destruct (patch f) as [p|]; [|simpl; lia].
  destruct (negb (Py.endswith ".py" (filename f))); [simpl; lia|].
  unfold call_file.
  destruct (fetch_file repo parent_sha (filename f) (world st))
    as [buggy w1].
  cbn [world call].
  destruct (fetch_file repo sha (filename f) w1) as [fixed w2].
  destruct buggy as [buggy|]; [|simpl; lia].
  destruct fixed as [fixed|]; [|simpl; lia].
  destruct (negb (Py.truthy buggy) || negb (Py.truthy fixed)
            || String.eqb (Py.strip buggy) (Py.strip fixed));
    [simpl; lia|].
  destruct (build_ir4_or2 buggy fixed p) as [[[ir4 or2]|]|e];
    [|simpl; lia|simpl; lia].
  destruct (negb (Py.truthy ir4) || negb (Py.truthy or2)); simpl; lia.
Qed.

Lemma process_files_collected (repo sha parent_sha msg : string)
    (fs : list file_entry) :
  forall st,
    collected st
    <= collected (state_of (process_files fetch_file repo sha parent_sha
                              msg fs st))
    <= collected st + Z.of_nat (length fs).
Proof.
  induction fs as [|f fs IH]; intros st; [simpl; lia|].
  cbn [process_files length]. rewrite Nat2Z.inj_succ.
  pose proof (process_file_collected repo sha parent_sha msg f st) as H.
  destruct (process_file fetch_file repo sha parent_sha msg f st)
    as [s|e s]; cbn [and_then state_of] in *; [|lia].
  specialize (IH s). lia.
Qed.

(** A commit adds at most [FILES_LIMIT] rows. *)
Lemma process_item_collected (it : item) st :
  collected st
  <= collected (state_of (process_item get_commit_details fetch_file it st))
  <= collected st + FILES_LIMIT.
Proof.
  unfold process_item, FILES_LIMIT.
  destruct (decide (item_sha it ∈ seen_commits st)); [simpl; lia|].
  unfold call_commit.
  destruct (get_commit_details (item_repo it) (item_sha it) (world st))
    as [c w1].
  destruct c as [c|]; [|simpl; lia].
  destruct (parents c) as [|parent_sha ps]; [simpl; lia|].
  destruct (files c) as [|f0 fs0] eqn:Ef; [simpl; lia|].
  destruct (3 <? Z.of_nat (length (f0 :: fs0))) eqn:El; [simpl; lia|].
  apply Z.ltb_ge in El.
  match goal with
  | |- context [process_files ?a ?b ?c ?d ?e ?f ?g] =>
      pose proof (process_files_collected b c d e f g) as H;
      set (X := process_files a b c d e f g) in *
  end.
  cbn [call collected] in H. lia.
Qed.

Definition within_overshoot st st' : Prop :=
  collected st <= MAX_COMMITS + FILES_LIMIT - 1 ->
  collected st' <= MAX_COMMITS + FILES_LIMIT - 1.

Lemma process_items_overshoot (items : list item) :
  forall st,
    within_overshoot st
      (state_of (process_items get_commit_details fetch_file items st)).
Proof.
  unfold within_overshoot.
  induction items as [|it items IH]; intros st Hb; [exact Hb|].
  cbn [process_items].
  destruct (MAX_COMMITS <=? collected st) eqn:E; [exact Hb|].
  apply Z.leb_gt in E.
  pose proof (process_item_collected it st) as H.
  destruct (process_item get_commit_details fetch_file it st)
    as [s|e s]; cbn [and_then state_of] in *; [apply IH|]; lia.
Qed.

Lemma main_loop_overshoot (fuel : nat) st :
  within_overshoot st
    (state_of (main_loop search_commits_query get_commit_details
                 fetch_file fuel st)).
Proof.
  apply (main_loop_lift search_commits_query get_commit_details fetch_file
           within_overshoot (fun _ => True)).
  - intros s H. exact H.
  - intros s1 s2 s3 H1 H2 H. apply H2, H1, H.
  - intros q pg w s H. exact H.
  - intros l s H. exact H.
  - intros l s H. exact H.
  - intros q pg w items w' _. apply Forall_forall. intros; exact I.
  - intros items s _. apply process_items_overshoot.
Qed.

End CountFacts.

(** X12: [MAX_COMMITS] can be overshot, but by less than
    [FILES_LIMIT]: a run of [main] appends at most
    [MAX_COMMITS + FILES_LIMIT - 1] rows, the counter [collected] is the
    number of rows appended in this run, and what the dataset held
    before (or the header row, if there was no file) stays in front of
    them. *)
Theorem run_overshoots_by_less_than_files_limit {World : Type}
    (search_commits_query :
       string -> Z -> World -> option (list item) * World)
    (get_commit_details : string -> string -> World -> option commit * World)
    (fetch_file :
       string -> string -> string -> World -> option string * World)
    (fuel : nat) (GITHUB_TOKENS : list string) (today : Date.date)
    (state_file : option crawl_state) (seen : option string)
    (output : option (list (list string))) (w : World)
    (r : run (@process World)) :
  main search_commits_query get_commit_details fetch_file fuel
    GITHUB_TOKENS today state_file seen output w = Ok r ->
  exists new : list (list string),
    csv_rows (state_of r) = default [HEADER_ROW] output ++ new
    /\ collected (state_of r) = Z.of_nat (length new)
    /\ Z.of_nat (length new) <= MAX_COMMITS + FILES_LIMIT - 1.
Proof.
  unfold main. destruct GITHUB_TOKENS as [|t ts]; [discriminate|].
  intros H. injection H as <-.
  set (st0 := mk_process w [] _ _ _ 0 _ _).
  destruct (main_loop_fresh search_commits_query get_commit_details
              fetch_file ∅ fuel st0 ltac:(set_solver))
    as (new & reqs & H1 & _ & _ & _ & H5 & _).
  pose proof (main_loop_overshoot search_commits_query get_commit_details
                fetch_file fuel st0) as Hb.
  unfold within_overshoot in Hb.
  exists new. split; [|split].
  - rewrite H1. subst st0. cbn [csv_rows].
    destruct output; reflexivity.
  - rewrite H5. reflexivity.
  - rewrite H5 in Hb. cbn [collected st0] in Hb.
    apply Hb. vm_compute. discriminate.
Qed.

Lemma run_overshoots_by_less_than_files_limit_witness :
  let search := fun (_ : string) (pg : Z) (w : unit) =>
    (if pg =? 1 then Some [mk_item "o/r" "abc"] else None, w) in
  let get := fun (_ _ : string) (w : unit) =>
    (Some (mk_commit ["p"]
             [mk_file "a.py" (Some (lines_of ["@@ -1 +1 @@"; "-x"; "+y"]))]
             "fix"), w) in
  let fetch := fun (_ sha _ : string) (w : unit) =>
    (Some (if String.eqb sha "p" then "x" else "y"), w) in
  exists new : list (list string),
    csv_rows (state_of
                (main_loop search get fetch 1
                   (mk_process tt [] ∅ "" [HEADER_ROW] 0
                      (mk_state 0 "2024-03-05" 1)
                      (mk_state 0 "2024-03-05" 1))))
    = [HEADER_ROW] ++ new
    /\ Z.of_nat (length new) <= MAX_COMMITS + FILES_LIMIT - 1.
Proof.
  intros search get fetch.
  destruct (run_overshoots_by_less_than_files_limit search get fetch 1
              ["k0"] (Date.mk_date 2024 3 5)
              (Some (mk_state 0 "2024-03-05" 1)) None None tt _ eq_refl)
    as (new & H1 & _ & H3).
  exists new. split; [exact H1 | exact H3].
Defined.

(** ** What a row holds and what is fetched *)

(** The other columns of a data row, by position. *)
Definition row_file_path (r : list string) : string := nth 1 r "".
Definition row_commit_message (r : list string) : string := nth 3 r "".
Definition row_input_representation (r : list string) : string :=
  nth 4 r "".
Definition row_buggy_code (r : list string) : string := nth 6 r "".
Definition row_fixed_code (r : list string) : string := nth 7 r "".

Fixpoint has_line_feed (s : string) : bool :=
  match s with
  | "" => false
  | String c s' => Ascii.eqb c Py.LF || has_line_feed s'
  end.

(** A row as the header announces it: eight columns, the path of a
    Python file, a message on one line, the two versions of the file
    both non-empty and different even without the white space around
    them, and the pair that [build_ir4_or2] makes of them with some
    patch, both parts non-empty. *)
Definition well_formed_row (r : list string) : Prop :=
  length r = length HEADER_ROW
  /\ Py.endswith ".py" (row_file_path r) = true
  /\ has_line_feed (row_commit_message r) = false
  /\ row_buggy_code r <> ""
  /\ row_fixed_code r <> ""
  /\ Py.strip (row_buggy_code r) <> Py.strip (row_fixed_code r)
  /\ row_input_representation r <> ""
  /\ row_output_representation r <> ""
  /\ exists p : string,
       build_ir4_or2 (row_buggy_code r) (row_fixed_code r) p
       = Ok (Some (row_input_representation r,
                   row_output_representation r)).

(** The only files asked for are Python files. *)
Definition wanted_request (q : request) : Prop :=
  match q with
  | ReqFile _ _ path => Py.endswith ".py" path = true
  | _ => True
  end.

Lemma replace_newlines_one_line (s : string) :
  has_line_feed (Py.replace_newlines s) = false.
Proof.
  induction s as [|c s IH]; [reflexivity|].
  cbn [Py.replace_newlines has_line_feed]. rewrite IH, orb_false_r.
  destruct (Ascii.eqb c Py.LF) eqn:E; [reflexivity | exact E].
Qed.

Section RowFacts.

Context {World : Type}.
Variable search_commits_query :
  string -> Z -> World -> option (list item) * World.
Variable get_commit_details :
  string -> string -> World -> option commit * World.
Variable fetch_file :
  string -> string -> string -> World -> option string * World.

Implicit Types st : @process World.

Ltac eff_refl := apply effects_refl; assumption.
Ltac eff_trans := eapply effects_trans; [assumption..| |].
Ltac eff_call := apply effects_call; [assumption..|].
Ltac eff_and_then := apply effects_and_then; [assumption..| |].

Lemma process_file_well_formed (repo sha parent_sha msg : string)
    (f : file_entry) st :
  effects well_formed_row wanted_request st
    (state_of (process_file fetch_file repo sha parent_sha msg f st)).
Proof.
  unfold process_file.
  destruct (patch f) as [p|]; [|eff_refl].
  destruct (Py.endswith ".py" (filename f)) eqn:Epy; cbn [negb];
    [|eff_refl].
  unfold call_file.
  destruct (fetch_file repo parent_sha (filename f) (world st))
    as [buggy w1].
  cbn [world call].
  destruct (fetch_file repo sha (filename f) w1) as [fixed w2].
  set (st2 := call (ReqFile repo sha (filename f)) w2
                (call (ReqFile repo parent_sha (filename f)) w1 st)).
  assert (H2 : effects well_formed_row wanted_request st st2).
  { eff_trans; eff_call; exact Epy. }
  destruct buggy as [buggy|]; [|exact H2].
  destruct fixed as [fixed|]; [|exact H2].
  destruct (negb (Py.truthy buggy) || negb (Py.truthy fixed)
            || String.eqb (Py.strip buggy) (Py.strip fixed)) eqn:Ec;
    [exact H2|].
  apply orb_false_elim in Ec. destruct Ec as [Ec Es].
  apply orb_false_elim in Ec. destruct Ec as [Eb Ef].
  apply negb_false_iff in Eb, Ef. apply String.eqb_neq in Es.
  destruct (build_ir4_or2 buggy fixed p) as [[[ir4 or2]|]|e] eqn:Eb2;
    [|exact H2|exact H2].
  destruct (negb (Py.truthy ir4) || negb (Py.truthy or2)) eqn:Et;
    [exact H2|].
  apply orb_false_elim in Et. destruct Et as [Ei Eo].
  apply negb_false_iff in Ei, Eo.
  eff_trans; [exact H2|]. cbn [state_of].
  apply (effects_record_pair search_commits_query get_commit_details
           fetch_file well_formed_row wanted_request
           [repo; filename f; sha; Py.replace_newlines msg;
            ir4; or2; buggy; fixed] st2).
  unfold well_formed_row, row_file_path, row_commit_message,
    row_buggy_code, row_fixed_code, row_input_representation,
    row_output_representation. cbn [nth length HEADER_ROW].
  repeat split; try (apply truthy_nonempty; assumption);
    try assumption.
  - apply replace_newlines_one_line.
  - exists p. exact Eb2.
Qed.

Lemma process_item_well_formed (it : item) st :
  effects well_formed_row wanted_request st
    (state_of (process_item get_commit_details fetch_file it st)).
Proof.
  unfold process_item.
  destruct (decide (item_sha it ∈ seen_commits st)); [eff_refl|].
  unfold call_commit.
  destruct (get_commit_details (item_repo it) (item_sha it) (world st))
    as [c w1].
  set (st1 := call (ReqCommit (item_repo it) (item_sha it)) w1 st).
  assert (H1 : effects well_formed_row wanted_request st st1).
  { eff_call. exact I. }
  destruct c as [c|]; [|exact H1].
  destruct (parents c) as [|parent_sha ps]; [exact H1|].
  destruct (files c) as [|f0 fs0] eqn:Ef; [exact H1|].
  destruct (FILES_LIMIT <? Z.of_nat (length (f0 :: fs0))); [exact H1|].
  eff_trans; [exact H1|].
  generalize (f0 :: fs0) st1. clear H1.
  intros fs. induction fs as [|f fs IH]; intros s0.
  - eff_refl.
  - cbn [process_files]. eff_and_then.
    + apply process_file_well_formed.
    + intros s _. apply IH.
Qed.

Lemma main_loop_well_formed (fuel : nat) st :
  effects well_formed_row wanted_request st
    (state_of (main_loop search_commits_query get_commit_details
                 fetch_file fuel st)).
Proof.
  apply (main_loop_lift search_commits_query get_commit_details fetch_file
           (effects well_formed_row wanted_request) (fun _ => True)).
  - intros s. eff_refl.
  - intros s1 s2 s3 H1 H2. eff_trans; eassumption.
  - intros q pg w s. eff_call. exact I.
  - intros l s.
    apply (effects_set_locals search_commits_query get_commit_details
             fetch_file).
  - intros l s.
    apply (effects_save_state search_commits_query get_commit_details
             fetch_file).
  - intros q pg w items w' _. apply Forall_forall. intros; exact I.
  - apply process_items_lift.
    + intros s. eff_refl.
    + intros s1 s2 s3 H1 H2. eff_trans; eassumption.
    + intros it s _. apply process_item_well_formed.
Qed.

End RowFacts.

(** X13: every row that a run appends to the dataset is well formed:
    it has the eight columns of the header, its [file_path] ends in
    [.py], its [commit_message] holds no line feed, [buggy_code] and
    [fixed_code] are non-empty and differ even after [strip], and the
    two representations are non-empty and are the pair that
    [build_ir4_or2] returns for that [buggy_code] and [fixed_code]. *)
Theorem run_appends_well_formed_rows {World : Type}
    (search_commits_query :
       string -> Z -> World -> option (list item) * World)
    (get_commit_details : string -> string -> World -> option commit * World)
    (fetch_file :
       string -> string -> string -> World -> option string * World)
    (fuel : nat) (st : @process World) :
  exists new : list (list string),
    csv_rows (state_of (main_loop search_commits_query get_commit_details
                          fetch_file fuel st))
    = csv_rows st ++ new
    /\ Forall well_formed_row new.
Proof.
  destruct (main_loop_well_formed search_commits_query get_commit_details
              fetch_file fuel st)
    as (new & reqs & H1 & _ & _ & _ & _ & H6 & _).
  exists new. split; assumption.
Qed.

(** X14: a run never asks for a file that is not a Python file: every
    call of [fetch_file] made during a run has a path that ends in
    [.py]. *)
Theorem run_fetches_python_files_only {World : Type}
    (search_commits_query :
       string -> Z -> World -> option (list item) * World)
    (get_commit_details : string -> string -> World -> option commit * World)
    (fetch_file :
       string -> string -> string -> World -> option string * World)
    (fuel : nat) (st : @process World) :
  exists reqs : list request,
    requests (state_of (main_loop search_commits_query get_commit_details
                          fetch_file fuel st))
    = requests st ++ reqs
    /\ forall repo sha path,
         In (ReqFile repo sha path) reqs -> Py.endswith ".py" path = true.
Proof.
  destruct (main_loop_well_formed search_commits_query get_commit_details
              fetch_file fuel st)
    as (new & reqs & _ & H2 & _ & _ & _ & _ & H7).
  exists reqs. split; [exact H2|].
  intros repo sha path Hin.
  exact (proj1 (List.Forall_forall _ _) H7 (ReqFile repo sha path) Hin).
Qed.

(** ** Reading the file of seen commits back *)

(** An identifier as the search returns them: not empty and free of
    white space. *)
Definition clean_sha (s : string) : Prop :=
  s <> ""
  /\ Forall (fun c => Py.is_space c = false) (list_ascii_of_string s).

(** A text whose last line is finished. *)
Definition closed_text (f : string) : Prop :=
  f = "" \/ exists body : string, f = body +:+ Py.NL.

Definition file_break (c : ascii) : bool :=
  Ascii.eqb c Py.LF || Ascii.eqb c Py.CR.

Lemma append_cons (c : ascii) (a b : string) :
  String c a +:+ b = String c (a +:+ b).
Proof. reflexivity. Qed.

Lemma file_break_is_space (c : ascii) :
  file_break c = true -> Py.is_space c = true.
Proof.
  unfold file_break. intros H. apply orb_true_iff in H.
  destruct H as [H|H]; apply Ascii.eqb_eq in H; subst c; reflexivity.
Qed.

Lemma split_at_nonempty (brk : ascii -> bool) (c : ascii) (s : string) :
  Py.split_at brk (String c s) <> [].
Proof.
  cbn [Py.split_at]. destruct (brk c).
  - destruct s as [|d s]; [discriminate|].
    destruct (Ascii.eqb c Py.CR && Ascii.eqb d Py.LF); discriminate.
  - destruct (Py.split_at brk s); discriminate.
Qed.

(** One finished line without a break inside is one line. *)
Lemma split_at_one_line (brk : ascii -> bool) (s : string) :
  brk Py.LF = true ->
  Forall (fun c => brk c = false) (list_ascii_of_string s) ->
  Py.split_at brk (s +:+ Py.NL) = [s].
Proof.
  intros HLF. induction s as [|c s IH]; intros Hs.
  - change ("" +:+ Py.NL) with (String Py.LF "").
    cbn [Py.split_at]. rewrite HLF. reflexivity.
  - cbn [list_ascii_of_string] in Hs. apply Forall_cons in Hs.
    destruct Hs as [Hc Hs].
    rewrite append_cons. cbn [Py.split_at]. rewrite Hc, (IH Hs).
    reflexivity.
Qed.

(** After a finished line the lines of what follows are simply
    added. *)
Lemma split_at_after_closed (brk : ascii -> bool) (g : string) :
  brk Py.LF = true ->
  forall (n : nat) (body : string),
    (String.length body <= n)%nat ->
    Py.split_at brk ((body +:+ Py.NL) +:+ g)
    = Py.split_at brk (body +:+ Py.NL) ++ Py.split_at brk g.
Proof.
  intros HLF.
  assert (Hbase : Py.split_at brk (String Py.LF g)
                  = Py.split_at brk (String Py.LF "")
                    ++ Py.split_at brk g).
  { cbn [Py.split_at]. rewrite HLF.
    destruct g as [|d g]; [reflexivity|].
    change (Ascii.eqb Py.LF Py.CR) with false. reflexivity. }
  induction n as [|n IH]; intros body Hlen.
  - destruct body as [|c body]; [|cbn [String.length] in Hlen; lia].
    exact Hbase.
  - destruct body as [|c body]; [exact Hbase|].
    cbn [String.length] in Hlen.
    rewrite !append_cons.
    cbn [Py.split_at]. destruct (brk c) eqn:Ec.
    + destruct body as [|d body].
      * change (("" +:+ Py.NL) +:+ g) with (String Py.LF g).
        change ("" +:+ Py.NL) with (String Py.LF "").
        destruct (Ascii.eqb c Py.CR); cbn [andb];
          change (Ascii.eqb Py.LF Py.LF) with true; cbn iota.
        -- reflexivity.
        -- rewrite Hbase. reflexivity.
      * rewrite !append_cons.
        destruct (Ascii.eqb c Py.CR && Ascii.eqb d Py.LF).
        -- cbn [String.length] in Hlen.
           rewrite (IH body ltac:(lia)). reflexivity.
        -- rewrite <- !append_cons.
           rewrite (IH (String d body) ltac:(lia)). reflexivity.
    + rewrite (IH body ltac:(lia)).
      destruct body as [|d body].
      * change ("" +:+ Py.NL) with (String Py.LF "").
        pose proof (split_at_nonempty brk Py.LF "") as Hne.
        destruct (Py.split_at brk (String Py.LF "")) as [|l ls];
          [contradiction | reflexivity].
      * rewrite append_cons.
        pose proof (split_at_nonempty brk d (body +:+ Py.NL)) as Hne.
        destruct (Py.split_at brk (String d (body +:+ Py.NL))) as [|l ls];
          [contradiction | reflexivity].
Qed.

Lemma file_lines_append_line (f s : string) :
  closed_text f ->
  Forall (fun c => Py.is_space c = false) (list_ascii_of_string s) ->
  Py.file_lines (f +:+ s +:+ Py.NL) = Py.file_lines f ++ [s].
Proof.
  intros Hf Hs. unfold Py.file_lines. fold file_break.
  assert (H1 : Py.split_at file_break (s +:+ Py.NL) = [s]).
  { apply split_at_one_line; [reflexivity|].
    eapply Forall_impl; [exact Hs|]. intros c Hc. cbv beta in Hc.
    destruct (file_break c) eqn:E; [|reflexivity].
    apply file_break_is_space in E. congruence. }
  destruct Hf as [-> | [body ->]].
  - exact H1.
  - rewrite (split_at_after_closed file_break (s +:+ Py.NL) eq_refl
               (String.length body) body (le_n _)).
    rewrite H1. reflexivity.
Qed.

Lemma rev_string_involutive (s : string) :
  Py.rev_string (Py.rev_string s) = s.
Proof.
  unfold Py.rev_string.
  rewrite list_ascii_of_string_of_list_ascii, rev_involutive.
  apply string_of_list_ascii_of_string.
Qed.

Lemma lstrip_no_space (s : string) :
  Forall (fun c => Py.is_space c = false) (list_ascii_of_string s) ->
  Py.lstrip s = s.
Proof.
  destruct s as [|c s]; [reflexivity|].
  cbn [list_ascii_of_string]. intros H. apply Forall_cons in H.
  destruct H as [Hc _]. cbn [Py.lstrip]. rewrite Hc. reflexivity.
Qed.

Lemma strip_no_space (s : string) :
  Forall (fun c => Py.is_space c = false) (list_ascii_of_string s) ->
  Py.strip s = s.
Proof.
  intros H. unfold Py.strip, Py.rstrip.
  rewrite (lstrip_no_space s H).
  rewrite lstrip_no_space; [apply rev_string_involutive|].
  unfold Py.rev_string. rewrite list_ascii_of_string_of_list_ascii.
  apply Forall_rev. exact H.
Qed.

Lemma closed_text_append_line (f s : string) :
  closed_text (f +:+ s +:+ Py.NL).
Proof.
  right. exists (f +:+ s). rewrite append_assoc. reflexivity.
Qed.

(** Appending the line of a clean identifier to a text whose last line
    is finished adds exactly that identifier to what [load_seen]
    reads. *)
Lemma load_seen_append_line (f s : string) :
  closed_text f ->
  clean_sha s ->
  load_seen (f +:+ s +:+ Py.NL) = {[ s ]} ∪ load_seen f.
Proof.
  intros Hf [Hne Hs]. unfold load_seen.
  rewrite (file_lines_append_line f s Hf Hs).
  rewrite map_app, List.filter_app, list_to_set_app_L.
  cbn [map List.filter]. rewrite (strip_no_space s Hs).
  destruct s as [|c s]; [contradiction|]. cbn [Py.truthy list_to_set].
  set_solver.
Qed.

Lemma load_seen_append_lines (new : list (list string)) :
  forall f : string,
    closed_text f ->
    Forall (fun r => clean_sha (row_commit_sha r)) new ->
    closed_text (f +:+ sha_lines new)
    /\ load_seen (f +:+ sha_lines new)
       = list_to_set (map row_commit_sha new) ∪ load_seen f.
Proof.
  induction new as [|r new IH]; intros f Hf Hn.
  - cbn [sha_lines map list_to_set]. rewrite append_nil_r.
    split; [exact Hf | set_solver].
  - apply Forall_cons in Hn. destruct Hn as [Hr Hn].
    cbn [sha_lines map list_to_set].
    replace (f +:+ row_commit_sha r +:+ Py.NL +:+ sha_lines new)
      with ((f +:+ row_commit_sha r +:+ Py.NL) +:+ sha_lines new)
      by (rewrite !append_assoc; reflexivity).
    destruct (IH (f +:+ row_commit_sha r +:+ Py.NL)
                (closed_text_append_line f _) Hn) as [Hc Hl].
    split; [exact Hc|].
    rewrite Hl, (load_seen_append_line f _ Hf Hr). set_solver.
Qed.

Section SeenFacts.

Context {World : Type}.
Variable search_commits_query :
  string -> Z -> World -> option (list item) * World.
Variable get_commit_details :
  string -> string -> World -> option commit * World.
Variable fetch_file :
  string -> string -> string -> World -> option string * World.

Implicit Types st : @process World.

Hypothesis search_clean :
  forall query pg w items w',
    search_commits_query query pg w = (Some items, w') ->
    Forall (fun it => clean_sha (item_sha it)) items.

Lemma main_loop_clean_rows (fuel : nat) st :
  effects (fun r => clean_sha (row_commit_sha r)) (fun _ => True) st
    (state_of (main_loop search_commits_query get_commit_details
                 fetch_file fuel st)).
Proof.
  apply (main_loop_lift search_commits_query get_commit_details fetch_file
           (effects (fun r => clean_sha (row_commit_sha r)) (fun _ => True))
           (fun it => clean_sha (item_sha it))).
  - intros s. apply effects_refl; assumption.
  - intros s1 s2 s3 H1 H2.
    eapply effects_trans; [assumption..| |]; eassumption.
  - intros q pg w s. apply effects_call; [assumption..|]. exact I.
  - intros l s. apply effects_set_locals; assumption.
  - intros l s. apply effects_save_state; assumption.
  - exact search_clean.
  - apply process_items_lift.
    + intros s. apply effects_refl; assumption.
    + intros s1 s2 s3 H1 H2.
      eapply effects_trans; [assumption..| |]; eassumption.
    + intros it s Hit.
      eapply effects_weaken; [assumption..| | |].
      3: apply (process_item_effects search_commits_query
                  get_commit_details fetch_file).
      * intros r [Hr _]. rewrite Hr. exact Hit.
      * intros q _. exact I.
Qed.

End SeenFacts.

(** X15: the file of seen commits reads back as the set in memory.  If
    the identifiers that the search returns are non-empty and free of
    white space, the last line of [SEEN_FILE] is finished when the run
    starts and the set agrees with the file then, as it does when
    [main] has just loaded it, then at the end of the run, also one
    ended by an exception, [load_seen] of the file is exactly
    [seen_commits]: the next run starts with the set this one ended
    with. *)
Theorem seen_file_reads_back {World : Type}
    (search_commits_query :
       string -> Z -> World -> option (list item) * World)
    (get_commit_details : string -> string -> World -> option commit * World)
    (fetch_file :
       string -> string -> string -> World -> option string * World)
    (fuel : nat) (st : @process World) :
  (forall query pg w items w',
     search_commits_query query pg w = (Some items, w') ->
     Forall (fun it => clean_sha (item_sha it)) items) ->
  closed_text (seen_file st) ->
  load_seen (seen_file st) = seen_commits st ->
  let st' := state_of (main_loop search_commits_query get_commit_details
                         fetch_file fuel st) in
  load_seen (seen_file st') = seen_commits st'
  /\ closed_text (seen_file st').
Proof.
  intros Hsearch Hclosed Hload st'.
  destruct (main_loop_clean_rows search_commits_query get_commit_details
              fetch_file Hsearch fuel st)
    as (new & reqs & _ & _ & H3 & H4 & _ & H6 & _).
  fold st' in H3, H4.
  destruct (load_seen_append_lines new (seen_file st) Hclosed H6)
    as [Hc Hl].
  rewrite H4, H3, Hl, Hload. split; [reflexivity | exact Hc].
Qed.

Lemma seen_file_reads_back_witness :
  let search := fun (_ : string) (pg : Z) (w : unit) =>
    (if pg =? 1 then Some [mk_item "o/r" "abc"] else None, w) in
  let get := fun (_ _ : string) (w : unit) =>
    (Some (mk_commit ["p"]
             [mk_file "a.py" (Some (lines_of ["@@ -1 +1 @@"; "-x"; "+y"]))]
             "fix"), w) in
  let fetch := fun (_ sha _ : string) (w : unit) =>
    (Some (if String.eqb sha "p" then "x" else "y"), w) in
  let content := "0ld" +:+ Py.NL in
  let st := mk_process tt [] (load_seen content) content [HEADER_ROW] 0
              (mk_state 0 "2024-03-05" 1) (mk_state 0 "2024-03-05" 1) in
  let st' := state_of (main_loop search get fetch 1 st) in
  load_seen (seen_file st') = seen_commits st'
  /\ closed_text (seen_file st').
Proof.
  intros search get fetch content st.
  apply (seen_file_reads_back search get fetch 1 st).
  - intros query pg w items w' H. unfold search in H.
    destruct (pg =? 1); [|discriminate H].
    injection H as <- _. constructor; [|constructor].
    split; [discriminate | repeat constructor].
  - right. exists "0ld". reflexivity.
  - reflexivity.
Defined.

(** ** When the pair builder gives no pair, and what a pair is made of *)

Lemma hunks_of_no_header (ls : list string) :
  Forall (fun l => header_re_match l = None) ls -> hunks_of ls = Ok [].
Proof.
  induction ls as [|l ls IH]; intros H; [reflexivity|].
  apply Forall_cons in H. destruct H as [Hl H].
  cbn [hunks_of]. rewrite Hl. apply IH. exact H.
Qed.

Lemma filter_nil_none (ls : list string) :
  List.filter is_hunk_header ls = [] ->
  Forall (fun l => header_re_match l = None) ls.
Proof.
  induction ls as [|l ls IH]; intros H; [constructor|].
  cbn [List.filter] in H. unfold is_hunk_header at 1 in H.
  destruct (header_re_match l) eqn:E; [discriminate H|].
  constructor; [exact E | apply IH; exact H].
Qed.

(** X16: a patch gives no hunk exactly when none of its lines matches
    the header pattern, and then [build_ir4_or2] returns no pair,
    whatever the two versions of the file are. *)
Theorem no_header_no_pair (buggy fixed patch : string) :
  (parse_patch_hunks patch = Ok []
   <-> Forall (fun l => header_re_match l = None) (Py.splitlines patch))
  /\ (Forall (fun l => header_re_match l = None) (Py.splitlines patch) ->
      build_ir4_or2 buggy fixed patch = Ok None).
Proof.
  assert (H : Forall (fun l => header_re_match l = None)
                (Py.splitlines patch) ->
              parse_patch_hunks patch = Ok []).
  { intros Hn. rewrite parse_patch_hunks_hunks_of.
    apply hunks_of_no_header. exact Hn. }
  split; [split; [|exact H]|].
  - intros Hp. rewrite parse_patch_hunks_hunks_of in Hp.
    apply hunks_of_length in Hp. apply filter_nil_none.
    destruct (List.filter is_hunk_header (Py.splitlines patch));
      [reflexivity | discriminate Hp].
  - intros Hn. rewrite (build_ir4_or2_parsed _ _ _ _ (H Hn)). reflexivity.
Qed.

Lemma envelope_cons (ls : list string) (h : hunk) (hs : list hunk) :
  envelope ls (h :: hs)
  = Ok (Z.max 0 (fold_left Z.min (map o_start hs) (o_start h) - 1),
        Z.min (Z.of_nat (length ls) - 1)
          (fold_left Z.max (map (fun h => o_start h + o_len h - 1) hs)
             (o_start h + o_len h - 1) - 1)).
Proof. reflexivity. Qed.

Lemma fold_left_min_ge (b : Z) (l : list Z) :
  forall a : Z,
    b <= a -> Forall (fun x => b <= x) l -> b <= fold_left Z.min l a.
Proof.
  induction l as [|x l IH]; intros a Ha Hl; [exact Ha|].
  apply Forall_cons in Hl. destruct Hl as [Hx Hl].
  cbn [fold_left]. apply IH; [lia | exact Hl].
Qed.

(** X17: a patch whose one hunk removes nothing (old length 0, a pure
    insertion) never gives a pair: the span of old lines it names is
    empty, so [build_ir4_or2] returns [(None, None)] whatever lines the
    hunk adds. *)
Theorem pure_insertion_no_pair (buggy fixed patch : string) (h : hunk) :
  parse_patch_hunks patch = Ok [h] ->
  o_len h <= 0 ->
  build_ir4_or2 buggy fixed patch = Ok None.
Proof.
  intros Hp Hl. rewrite (build_ir4_or2_parsed _ _ _ _ Hp).
  unfold build_from_hunks. rewrite envelope_cons.
  cbn [map fold_left mbind result_bind].
  destruct (Z.min (Z.of_nat (length (Py.splitlines buggy)) - 1)
              (o_start h + o_len h - 1 - 1)
            <? Z.max 0 (o_start h - 1)) eqn:E; [reflexivity|].
  apply Z.ltb_ge in E. lia.
Qed.

Lemma pure_insertion_no_pair_witness :
  build_ir4_or2 (lines_of ["a"; "b"; "c"]) (lines_of ["a"; "x"; "b"; "c"])
    (lines_of ["@@ -2,0 +2 @@"; "+x"])
  = Ok None.
Proof.
  apply (pure_insertion_no_pair _ _ _ (mk_hunk 2 0 2 1 ["+x"]));
    [reflexivity | vm_compute; discriminate].
Defined.

(** X18: hunks that all start below the last line of the buggy file
    give no pair: when every hunk has an old start greater than the
    number of lines of [buggy_code], [build_ir4_or2] returns
    [(None, None)]. *)
Theorem hunks_past_the_end_no_pair (buggy fixed patch : string)
    (hunks : list hunk) :
  parse_patch_hunks patch = Ok hunks ->
  Forall (fun h => Z.of_nat (length (Py.splitlines buggy)) < o_start h)
    hunks ->
  build_ir4_or2 buggy fixed patch = Ok None.
Proof.
  intros Hp Hs. rewrite (build_ir4_or2_parsed _ _ _ _ Hp).
  unfold build_from_hunks. destruct hunks as [|h hs]; [reflexivity|].
  rewrite envelope_cons. cbn [mbind result_bind].
  apply Forall_cons in Hs. destruct Hs as [Hh Hs].
  set (len := Z.of_nat (length (Py.splitlines buggy))) in *.
  assert (Hlo : len + 1 <= fold_left Z.min (map o_start hs) (o_start h)).
  { apply fold_left_min_ge; [lia|].
    apply Forall_map. eapply Forall_impl; [exact Hs|].
    intros x Hx. cbv beta in Hx |- *. lia. }
  match goal with
  | |- (if ?c then _ else _) = _ => destruct c eqn:E; [reflexivity|]
  end.
  apply Z.ltb_ge in E. lia.
Qed.

Lemma hunks_past_the_end_no_pair_witness :
  build_ir4_or2 (lines_of ["a"; "b"]) (lines_of ["a"; "b"; "c"])
    (lines_of ["@@ -3 +3 @@"; "-old"; "+c"])
  = Ok None.
Proof.
  apply (hunks_past_the_end_no_pair _ _ _ [mk_hunk 3 1 3 1 ["-old"; "+c"]]).
  - reflexivity.
  - repeat constructor.
Defined.

Lemma clamp_index_inside {A : Type} (l : list A) (i : Z) :
  0 <= i <= Z.of_nat (length l) -> Py.clamp_index l i = Z.to_nat i.
Proof.
  intros Hi. unfold Py.clamp_index.
  destruct (i <? 0) eqn:E; [apply Z.ltb_lt in E; lia|].
  f_equal. lia.
Qed.

(** The three slices of [build_ir4_or2] cut the list in three. *)
Lemma slices_partition {A : Type} (l : list A) (s e : Z) :
  0 <= s <= e -> e < Z.of_nat (length l) ->
  l = Py.slice_to l s ++ Py.slice l s (e + 1) ++ Py.slice_from l (e + 1)
  /\ Z.of_nat (length (Py.slice_to l s)) = s
  /\ Z.of_nat (length (Py.slice l s (e + 1))) = e - s + 1.
Proof.
  intros Hs He. unfold Py.slice_to, Py.slice, Py.slice_from.
  rewrite !clamp_index_inside by lia.
  set (a := Z.to_nat s). set (b := Z.to_nat (e + 1)).
  assert (Hab : (a <= b)%nat) by lia.
  assert (Hb : (b <= length l)%nat) by lia.
  split; [|split].
  - rewrite <- (take_drop a l) at 1. f_equal.
    rewrite <- (take_drop (b - a) (drop a l)) at 1. f_equal.
    rewrite drop_drop. f_equal. lia.
  - rewrite length_take. lia.
  - rewrite length_take, length_drop. lia.
Qed.

(** X19: a pair splices the buggy file.  When [build_ir4_or2] returns a
    pair, the lines of the buggy file are a front part, a non-empty
    snippet and a rest; the input representation is the front part, the
    snippet turned into comments, the marker [<FILL_ME>] and the rest,
    joined by line feeds, so no line outside the snippet is lost,
    changed or moved; the snippet sits at the indices that the hunks
    give; and the output representation is the added lines of the
    hunks, of which there is at least one. *)
Theorem pair_splices_the_file (buggy fixed patch ir4 or2 : string) :
  build_ir4_or2 buggy fixed patch = Ok (Some (ir4, or2)) ->
  exists (hunks : list hunk) (front snippet rest : list string),
    parse_patch_hunks patch = Ok hunks
    /\ Py.splitlines buggy = front ++ snippet ++ rest
    /\ snippet <> []
    /\ envelope (Py.splitlines buggy) hunks
       = Ok (Z.of_nat (length front),
             Z.of_nat (length front) + Z.of_nat (length snippet) - 1)
    /\ ir4 = Py.join Py.NL
               (front
                ++ [Py.join Py.NL (map comment_line snippet); FILL_ME]
                ++ rest)
    /\ added_lines hunks <> []
    /\ or2 = Py.join Py.NL (added_lines hunks).
Proof.
  unfold build_ir4_or2.
  destruct (parse_patch_hunks patch) as [hunks|x] eqn:Hp; [|discriminate].
  cbn [mbind result_bind]. unfold build_from_hunks.
  destruct hunks as [|h hs]; [discriminate|].
  rewrite envelope_cons. cbn [mbind result_bind].
  set (s := Z.max 0 _). set (e := Z.min _ _).
  destruct (e <? s) eqn:Ees; [discriminate|]. apply Z.ltb_ge in Ees.
  destruct (added_lines (h :: hs)) as [|a0 al] eqn:Ea; [discriminate|].
  intros H. injection H as <- <-.
  assert (Hs0 : 0 <= s) by (subst s; lia).
  assert (He : e < Z.of_nat (length (Py.splitlines buggy)))
    by (subst e; lia).
  destruct (slices_partition (Py.splitlines buggy) s e
              ltac:(lia) He) as (Hl & Hf & Hn).
  exists (h :: hs), (Py.slice_to (Py.splitlines buggy) s),
    (Py.slice (Py.splitlines buggy) s (e + 1)),
    (Py.slice_from (Py.splitlines buggy) (e + 1)).
  split; [reflexivity|]. split; [exact Hl|]. split; [|split].
  - intros Hnil. rewrite Hnil in Hn. cbn [length] in Hn. lia.
  - rewrite envelope_cons, Hf, Hn. fold s e. f_equal. f_equal. lia.
  - split; [reflexivity|]. split; [|rewrite Ea; reflexivity].
    rewrite Ea. discriminate.
Qed.

Lemma pair_splices_the_file_witness :
  exists (hunks : list hunk) (front snippet rest : list string),
    parse_patch_hunks (lines_of ["@@ -2,2 +2 @@"; "-b"; "-c"; "+B2"])
    = Ok hunks
    /\ Py.splitlines (lines_of ["a"; "b"; "c"; "d"])
       = front ++ snippet ++ rest
    /\ snippet <> []
    /\ envelope (Py.splitlines (lines_of ["a"; "b"; "c"; "d"])) hunks
       = Ok (Z.of_nat (length front),
             Z.of_nat (length front) + Z.of_nat (length snippet) - 1)
    /\ lines_of ["a"; "# b"; "# c"; "<FILL_ME>"; "d"]
       = Py.join Py.NL
           (front
            ++ [Py.join Py.NL (map comment_line snippet); FILL_ME]
            ++ rest)
    /\ added_lines hunks <> []
    /\ "B2" = Py.join Py.NL (added_lines hunks).
Proof.
  apply (pair_splices_the_file (lines_of ["a"; "b"; "c"; "d"])
           (lines_of ["a"; "B2"; "d"])
           (lines_of ["@@ -2,2 +2 @@"; "-b"; "-c"; "+B2"])).
  reflexivity.
Defined.

(** ** Exceptions of the parser *)

Lemma span_digits_length (s : string) :
  String.length s
  = (String.length (fst (Py.span_digits s))
     + String.length (snd (Py.span_digits s)))%nat.
Proof.
  induction s as [|c s IH]; [reflexivity|].
  cbn [Py.span_digits]. destruct (Py.is_digit c); [|reflexivity].
  destruct (Py.span_digits s) as [d r]. cbn [fst snd String.length] in *.
  lia.
Qed.

Lemma optional_length_length (s : string) :
  (String.length (snd (optional_length s)) <= String.length s)%nat
  /\ match fst (optional_length s) with
     | Some d => (String.length d <= String.length s)%nat
     | None => True
     end.
Proof.
  destruct s as [|c s]; [split; [reflexivity | exact I]|].
  cbn [optional_length].
  destruct (Ascii.eqb c ","); [|split; [reflexivity | exact I]].
  pose proof (span_digits_length s) as H.
  destruct (Py.span_digits s) as [d r]. cbn [fst snd] in H.
  destruct (Py.truthy d); cbn [fst snd String.length];
    [split; lia | split; [lia | exact I]].
Qed.

(** The groups of a header are pieces of its line. *)
Lemma header_re_match_length (l g1 g3 : string) (g2 g4 : option string) :
  header_re_match l = Some (g1, g2, g3, g4) ->
  (String.length g1 <= String.length l)%nat
  /\ (String.length g3 <= String.length l)%nat
  /\ (forall d, g2 = Some d -> (String.length d <= String.length l)%nat)
  /\ (forall d, g4 = Some d -> (String.length d <= String.length l)%nat).
Proof.
  unfold header_re_match.
  destruct (Py.expect "@@ -" l) as [s1|] eqn:E1; [|discriminate].
  cbn [mbind option_bind].
  pose proof (span_digits_length s1) as H1.
  destruct (Py.span_digits s1) as [a s2]. cbn [fst snd] in H1.
  destruct (negb (Py.truthy a)); [discriminate|].
  pose proof (optional_length_length s2) as [H2 H2'].
  destruct (optional_length s2) as [b s3]. cbn [fst snd] in H2, H2'.
  destruct (Py.expect " +" s3) as [s4|] eqn:E2; [|discriminate].
  cbn [mbind option_bind].
  pose proof (span_digits_length s4) as H3.
  destruct (Py.span_digits s4) as [c s5]. cbn [fst snd] in H3.
  destruct (negb (Py.truthy c)); [discriminate|].
  pose proof (optional_length_length s5) as [H4 H4'].
  destruct (optional_length s5) as [d s6]. cbn [fst snd] in H4, H4'.
  destruct (Py.expect " @@" s6) as [s7|]; [|discriminate].
  cbn [mbind option_bind]. intros H. injection H as -> -> -> ->.
  apply expect_length in E1, E2. cbn [String.length] in E1, E2.
  split; [lia|]. split; [lia|]. split.
  - intros x ->. lia.
  - intros x ->. lia.
Qed.

Lemma int_short (s : string) :
  (String.length s <= Py.int_max_str_digits)%nat ->
  Py.int s = Ok (Py.digits_value 0 s).
Proof.
  intros H. unfold Py.int.
  destruct (Py.int_max_str_digits <? String.length s)%nat eqn:E;
    [|reflexivity].
  apply Nat.ltb_lt in E. lia.
Qed.

Lemma int_raises (s : string) (e : exn) :
  Py.int s = Raise e -> e = ValueError.
Proof.
  unfold Py.int.
  destruct (Py.int_max_str_digits <? String.length s)%nat;
    [|discriminate].
  intros H. injection H as <-. reflexivity.
Qed.

Lemma int_or_1_raises (g : option string) (e : exn) :
  int_or_1 g = Raise e -> e = ValueError.
Proof. destruct g as [d|]; [apply int_raises | discriminate]. Qed.

Lemma header_fields_raises
    (g : string * option string * string * option string) (e : exn) :
  header_fields g = Raise e -> e = ValueError.
Proof.
  destruct g as [[[g1 g2] g3] g4]. unfold header_fields.
  destruct (Py.int g1) as [a|x] eqn:E1; cbn [mbind result_bind];
    [|intros H; injection H as <-; apply (int_raises _ _ E1)].
  destruct (int_or_1 g2) as [b|x] eqn:E2; cbn [mbind result_bind];
    [|intros H; injection H as <-; apply (int_or_1_raises _ _ E2)].
  destruct (Py.int g3) as [c|x] eqn:E3; cbn [mbind result_bind];
    [|intros H; injection H as <-; apply (int_raises _ _ E3)].
  destruct (int_or_1 g4) as [d|x] eqn:E4; cbn [mbind result_bind];
    [discriminate|].
  intros H; injection H as <-; apply (int_or_1_raises _ _ E4).
Qed.

Lemma header_fields_short (l : string)
    (g : string * option string * string * option string) :
  header_re_match l = Some g ->
  (String.length l <= Py.int_max_str_digits)%nat ->
  exists f, header_fields g = Ok f.
Proof.
  destruct g as [[[g1 g2] g3] g4]. intros Hm Hl.
  destruct (header_re_match_length _ _ _ _ _ Hm) as (H1 & H3 & H2 & H4).
  unfold header_fields.
  rewrite (int_short g1) by lia. cbn [mbind result_bind].
  assert (E2 : exists b, int_or_1 g2 = Ok b).
  { destruct g2 as [d|]; [|eexists; reflexivity].
    cbn [int_or_1]. rewrite int_short; [eexists; reflexivity|].
    specialize (H2 d eq_refl). lia. }
  destruct E2 as [b ->]. cbn [mbind result_bind].
  rewrite (int_short g3) by lia. cbn [mbind result_bind].
  assert (E4 : exists b, int_or_1 g4 = Ok b).
  { destruct g4 as [d|]; [|eexists; reflexivity].
    cbn [int_or_1]. rewrite int_short; [eexists; reflexivity|].
    specialize (H4 d eq_refl). lia. }
  destruct E4 as [d ->]. cbn [mbind result_bind].
  eexists; reflexivity.
Qed.

Lemma hunks_of_short (ls : list string) :
  Forall (fun l => (String.length l <= Py.int_max_str_digits)%nat) ls ->
  exists hs, hunks_of ls = Ok hs.
Proof.
  induction ls as [|l ls IH]; intros H; [eexists; reflexivity|].
  apply Forall_cons in H. destruct H as [Hl H].
  destruct (IH H) as [hs Hhs]. cbn [hunks_of].
  destruct (header_re_match l) as [g|] eqn:Em; [|exists hs; exact Hhs].
  destruct (header_fields_short l g Em Hl) as [[[[a b] c] d] ->].
  cbn [mbind result_bind]. rewrite Hhs. cbn [mbind result_bind].
  eexists; reflexivity.
Qed.

Lemma hunks_of_raises (ls : list string) (e : exn) :
  hunks_of ls = Raise e -> e = ValueError.
Proof.
  induction ls as [|l ls IH]; [discriminate|]. cbn [hunks_of].
  destruct (header_re_match l) as [g|]; [|exact IH].
  destruct (header_fields g) as [[[[a b] c] d]|x] eqn:Ef;
    cbn [mbind result_bind];
    [|intros H; injection H as <-; apply (header_fields_raises _ _ Ef)].
  destruct (hunks_of ls) as [hs|x]; cbn [mbind result_bind];
    [discriminate|].
  intros H. apply IH. exact H.
Qed.

Lemma build_from_hunks_returns (buggy fixed : string) (hunks : list hunk) :
  exists r, build_from_hunks buggy fixed hunks = Ok r.
Proof.
  unfold build_from_hunks. destruct hunks as [|h hs]; [eexists; reflexivity|].
  rewrite envelope_cons. cbn [mbind result_bind].
  match goal with
  | |- exists r, (if ?c then _ else _) = _ =>
      destruct c; [eexists; reflexivity|]
  end.
  destruct (added_lines (h :: hs)); eexists; reflexivity.
Qed.

(** X20: on a patch without a line of more than 4300 characters, the
    limit of [int] on the digits of a number, [parse_patch_hunks]
    returns its hunks and [build_ir4_or2] returns its result: neither
    raises. *)
Theorem short_lines_never_raise (buggy fixed patch : string) :
  Forall (fun l => (String.length l <= Py.int_max_str_digits)%nat)
    (Py.splitlines patch) ->
  exists (hunks : list hunk) (r : option (string * string)),
    parse_patch_hunks patch = Ok hunks
    /\ build_ir4_or2 buggy fixed patch = Ok r.
Proof.
  intros H. destruct (hunks_of_short _ H) as [hs Hhs].
  rewrite <- parse_patch_hunks_hunks_of in Hhs.
  destruct (build_from_hunks_returns buggy fixed hs) as [r Hr].
  exists hs, r. split; [exact Hhs|].
  rewrite (build_ir4_or2_parsed _ _ _ _ Hhs). exact Hr.
Qed.

Lemma short_lines_never_raise_witness :
  exists (hunks : list hunk) (r : option (string * string)),
    parse_patch_hunks (lines_of ["@@ -1,2 +1 @@ def f():"; "-a"; "+b"])
    = Ok hunks
    /\ build_ir4_or2 (lines_of ["a"; "c"]) (lines_of ["b"; "c"])
         (lines_of ["@@ -1,2 +1 @@ def f():"; "-a"; "+b"])
       = Ok r.
Proof.
  apply short_lines_never_raise.
  repeat (apply List.Forall_cons; [apply Nat.leb_le; reflexivity|]).
  apply List.Forall_nil.
Defined.

(** X21: the only exception of [build_ir4_or2] is the [ValueError] of
    the parser: when it raises, [parse_patch_hunks] has raised
    [ValueError] on the patch; the steps after the parser ([min], [max]
    and the slices) never fail. *)
Theorem build_raises_only_with_the_parser (buggy fixed patch : string)
    (e : exn) :
  build_ir4_or2 buggy fixed patch = Raise e ->
  e = ValueError /\ parse_patch_hunks patch = Raise ValueError.
Proof.
  unfold build_ir4_or2.
  destruct (parse_patch_hunks patch) as [hs|x] eqn:Hp;
    cbn [mbind result_bind].
  - destruct (build_from_hunks_returns buggy fixed hs) as [r ->].
    discriminate.
  - intros H. injection H as <-.
    rewrite parse_patch_hunks_hunks_of in Hp.
    apply hunks_of_raises in Hp. subst x. split; reflexivity.
Qed.

(** A header whose first number has 4301 digits. *)
Definition oversized_header : string :=
  "@@ -" +:+ string_of_list_ascii (repeat "1"%char 4301) +:+ " +1 @@".

Lemma build_raises_only_with_the_parser_witness :
  parse_patch_hunks (lines_of ["@@ -1 +1 @@"; "+x"; oversized_header])
  = Raise ValueError.
Proof.
  apply (build_raises_only_with_the_parser "a" "x"
           (lines_of ["@@ -1 +1 @@"; "+x"; oversized_header]) ValueError).
  vm_compute. reflexivity.
Defined.

Lemma hunks_of_bad_header (ls : list string) (l : string)
    (g : string * option string * string * option string) (e : exn) :
  In l ls ->
  header_re_match l = Some g ->
  header_fields g = Raise e ->
  hunks_of ls = Raise ValueError.
Proof.
  intros Hin Hm Hf. induction ls as [|l' ls IH]; [destruct Hin|].
  cbn [hunks_of].
  destruct (header_re_match l') as [g'|] eqn:Em'.
  - destruct (header_fields g') as [[[[a b] c] d]|x] eqn:Ef';
      cbn [mbind result_bind].
    + destruct Hin as [-> | Hin]; [congruence|].
      rewrite (IH Hin). reflexivity.
    + rewrite (header_fields_raises _ _ Ef'). reflexivity.
  - destruct Hin as [-> | Hin]; [congruence|]. exact (IH Hin).
Qed.

(** X22: one header that cannot be converted stops the parser wherever
    it stands: if some line of the patch matches the header pattern and
    one of its numbers is refused by [int] (more than 4300 digits),
    [parse_patch_hunks] raises [ValueError], and so does
    [build_ir4_or2]; no line that matches the pattern is ever skipped as
    part of a body. *)
Theorem bad_header_raises (buggy fixed patch l : string)
    (g : string * option string * string * option string) (e : exn) :
  In l (Py.splitlines patch) ->
  header_re_match l = Some g ->
  header_fields g = Raise e ->
  parse_patch_hunks patch = Raise ValueError
  /\ build_ir4_or2 buggy fixed patch = Raise ValueError.
Proof.
  intros Hin Hm Hf.
  assert (Hp : parse_patch_hunks patch = Raise ValueError).
  { rewrite parse_patch_hunks_hunks_of.
    exact (hunks_of_bad_header _ l g e Hin Hm Hf). }
  split; [exact Hp|]. unfold build_ir4_or2. rewrite Hp. reflexivity.
Qed.

Lemma bad_header_raises_witness :
  parse_patch_hunks (lines_of ["@@ -1 +1 @@"; "+x"; oversized_header])
  = Raise ValueError
  /\ build_ir4_or2 "a" "x"
       (lines_of ["@@ -1 +1 @@"; "+x"; oversized_header])
     = Raise ValueError.
Proof.
  apply (bad_header_raises "a" "x"
           (lines_of ["@@ -1 +1 @@"; "+x"; oversized_header])
           oversized_header
           (string_of_list_ascii (repeat "1"%char 4301), None, "1", None)
           ValueError).
  - vm_compute. right. right. left. reflexivity.
  - vm_compute. reflexivity.
  - vm_compute. reflexivity.
Defined.

(** ** The checkpoint and the variables of the loop *)

Section CheckpointFacts.

Context {World : Type}.
Variable search_commits_query :
  string -> Z -> World -> option (list item) * World.
Variable get_commit_details :
  string -> string -> World -> option commit * World.
Variable fetch_file :
  string -> string -> string -> World -> option string * World.

Implicit Types st : @process World.

(** The loop over the items writes no checkpoint. *)
Lemma process_items_checkpoint (items : list item) st :
  checkpoint (state_of (process_items get_commit_details fetch_file
                          items st))
  = checkpoint st.
Proof.
  apply (process_items_lift get_commit_details fetch_file
           (fun s s' => checkpoint s' = checkpoint s) (fun _ => True)).
  - reflexivity.
  - intros s1 s2 s3 H1 H2. congruence.
  - clear. intros it s _. unfold process_item.
    destruct (decide (item_sha it ∈ seen_commits s)); [reflexivity|].
    unfold call_commit.
    destruct (get_commit_details (item_repo it) (item_sha it) (world s))
      as [c w1].
    destruct c as [c|]; [|reflexivity].
    destruct (parents c) as [|parent_sha ps]; [reflexivity|].
    destruct (files c) as [|f0 fs0]; [reflexivity|].
    destruct (FILES_LIMIT <? Z.of_nat (length (f0 :: fs0)));
      [reflexivity|].
    change (checkpoint s)
      with (checkpoint (call (ReqCommit (item_repo it) (item_sha it))
                          w1 s)).
    generalize (f0 :: fs0)
      (call (ReqCommit (item_repo it) (item_sha it)) w1 s).
    intros fs. induction fs as [|f fs IH]; intros s0; [reflexivity|].
    cbn [process_files].
    assert (Hf : checkpoint
                   (state_of (process_file fetch_file (item_repo it)
                                (item_sha it) parent_sha (message c) f s0))
                 = checkpoint s0).
    { unfold process_file.
      destruct (patch f) as [p|]; [|reflexivity].
      destruct (negb (Py.endswith ".py" (filename f))); [reflexivity|].
      unfold call_file.
      destruct (fetch_file (item_repo it) parent_sha (filename f)
                  (world s0)) as [buggy w2].
      cbn [world call].
      destruct (fetch_file (item_repo it) (item_sha it) (filename f) w2)
        as [fixed w3].
      destruct buggy as [buggy|]; [|reflexivity].
      destruct fixed as [fixed|]; [|reflexivity].
      destruct (negb (Py.truthy buggy) || negb (Py.truthy fixed)
                || String.eqb (Py.strip buggy) (Py.strip fixed));
        [reflexivity|].
      destruct (build_ir4_or2 buggy fixed p) as [[[ir4 or2]|]|e];
        [|reflexivity|reflexivity].
      destruct (negb (Py.truthy ir4) || negb (Py.truthy or2));
        reflexivity. }
    destruct (process_file fetch_file (item_repo it) (item_sha it)
                parent_sha (message c) f s0) as [s1|e s1];
      cbn [and_then state_of] in *; [|exact Hf].
    rewrite IH. exact Hf.
  - apply Forall_forall. intros; exact I.
Qed.

Lemma pages_loop_checkpoint (remaining : nat) (query : string) :
  forall st,
    checkpoint st = locals st ->
    checkpoint (state_of (pages_loop search_commits_query
                            get_commit_details fetch_file remaining
                            query st))
    = locals (state_of (pages_loop search_commits_query
                          get_commit_details fetch_file remaining
                          query st)).
Proof.
  induction remaining as [|remaining IH]; intros st H; [exact H|].
  cbn [pages_loop].
  destruct (MAX_COMMITS <=? collected st); [exact H|].
  unfold call_search.
  destruct (search_commits_query query (page (locals st)) (world st))
    as [res w1].
  set (st1 := call (ReqSearch query (page (locals st))) w1 st).
  destruct res as [[|it items]|]; [exact H| |exact H].
  pose proof (process_items_checkpoint (it :: items) st1) as Hc.
  pose proof (process_items_locals get_commit_details fetch_file
                (it :: items) st1) as Hl.
  destruct (process_items get_commit_details fetch_file (it :: items) st1)
    as [s|e s]; cbn [and_then state_of] in *.
  - apply IH. reflexivity.
  - rewrite Hc, Hl. exact H.
Qed.

Lemma main_loop_checkpoint (fuel : nat) :
  forall st,
    checkpoint st = locals st ->
    checkpoint (state_of (main_loop search_commits_query
                            get_commit_details fetch_file fuel st))
    = locals (state_of (main_loop search_commits_query
                          get_commit_details fetch_file fuel st)).
Proof.
  induction fuel as [|fuel IH]; intros st H.
  - cbn [main_loop]. destruct (MAX_COMMITS <=? collected st); exact H.
  - cbn [main_loop]. destruct (MAX_COMMITS <=? collected st); [exact H|].
    unfold window_turn.
    destruct (window_query (locals st)) as [query|e]; [|exact H].
    pose proof (pages_loop_checkpoint (Z.to_nat MAX_PAGES_PER_QUERY)
                  query st H) as H1.
    destruct (pages_loop search_commits_query get_commit_details
                fetch_file (Z.to_nat MAX_PAGES_PER_QUERY) query st)
      as [s|e s]; cbn [and_then state_of] in *; [|exact H1].
    destruct (advance_date (date_end (locals s)) DAYS_PER_RANGE)
      as [d|e]; cbn [and_then state_of]; [|exact H1].
    apply IH. reflexivity.
Qed.

End CheckpointFacts.

(** X23: the checkpoint file follows the loop.  At the end of a run of
    [main], whether it ran to its end or was stopped by an exception,
    [STATE_FILE] holds exactly the [keyword_index], [date_end] and
    [page] that the loop had reached, so the next run resumes at that
    window and page. *)
Theorem checkpoint_follows_the_loop {World : Type}
    (search_commits_query :
       string -> Z -> World -> option (list item) * World)
    (get_commit_details : string -> string -> World -> option commit * World)
    (fetch_file :
       string -> string -> string -> World -> option string * World)
    (fuel : nat) (GITHUB_TOKENS : list string) (today : Date.date)
    (state_file : option crawl_state) (seen : option string)
    (output : option (list (list string))) (w : World)
    (r : run (@process World)) :
  main search_commits_query get_commit_details fetch_file fuel
    GITHUB_TOKENS today state_file seen output w = Ok r ->
  checkpoint (state_of r) = locals (state_of r).
Proof.
  unfold main. destruct GITHUB_TOKENS as [|t ts]; [discriminate|].
  intros H. injection H as <-.
  apply main_loop_checkpoint. reflexivity.
Qed.

Lemma checkpoint_follows_the_loop_witness :
  let search := fun (_ : string) (pg : Z) (w : unit) =>
    (if pg =? 1 then Some [mk_item "o/r" "abc"] else None, w) in
  let get := fun (_ _ : string) (w : unit) => (@None commit, w) in
  let fetch := fun (_ _ _ : string) (w : unit) => (@None string, w) in
  let st := mk_process tt [] (∅ : gset string) "" [HEADER_ROW] 0
              (mk_state 0 "2024-03-05" 1) (mk_state 0 "2024-03-05" 1) in
  checkpoint (state_of (main_loop search get fetch 2 st))
  = locals (state_of (main_loop search get fetch 2 st)).
Proof.
  intros search get fetch st.
  apply (checkpoint_follows_the_loop search get fetch 2 ["k0"]
           (Date.mk_date 2024 3 5) None None None tt).
  reflexivity.
Defined.

(** ** How many rows one commit gives *)

(** The number of rows of the commit [sha] among [rows]. *)
Definition rows_of_commit (sha : string) (rows : list (list string)) : nat :=
  length (List.filter (fun r => String.eqb (row_commit_sha r) sha) rows).

(** From [st] to [st'] rows were appended and their commits became
    seen; no commit has more than [FILES_LIMIT] of them, and a commit
    that was seen before has none. *)
Definition commit_bounded {World : Type} (st st' : @process World) : Prop :=
  exists new : list (list string),
    csv_rows st' = csv_rows st ++ new
    /\ seen_commits st'
       = list_to_set (map row_commit_sha new) ∪ seen_commits st
    /\ forall sha : string,
         Z.of_nat (rows_of_commit sha new) <= FILES_LIMIT
         /\ (sha ∈ seen_commits st -> rows_of_commit sha new = 0%nat).

Lemma rows_of_commit_app (sha : string) (a b : list (list string)) :
  rows_of_commit sha (a ++ b)
  = (rows_of_commit sha a + rows_of_commit sha b)%nat.
Proof.
  unfold rows_of_commit. rewrite List.filter_app, length_app. reflexivity.
Qed.

Lemma rows_of_commit_le (sha : string) (rows : list (list string)) :
  (rows_of_commit sha rows <= length rows)%nat.
Proof. unfold rows_of_commit. apply List.filter_length_le. Qed.

Lemma rows_of_commit_seen (sha : string) (rows : list (list string)) :
  rows_of_commit sha rows <> 0%nat ->
  sha ∈ (list_to_set (map row_commit_sha rows) : gset string).
Proof.
  induction rows as [|r rows IH]; intros H; [contradiction H; reflexivity|].
  unfold rows_of_commit in H. cbn [List.filter] in H.
  cbn [map list_to_set].
  destruct (String.eqb (row_commit_sha r) sha) eqn:E.
  - apply String.eqb_eq in E. set_solver.
  - apply elem_of_union_r. apply IH. exact H.
Qed.

Lemma rows_of_other_commit (sha other : string)
    (rows : list (list string)) :
  Forall (fun r => row_commit_sha r = other) rows ->
  sha <> other ->
  rows_of_commit sha rows = 0%nat.
Proof.
  intros H Hne. induction rows as [|r rows IH]; [reflexivity|].
  apply Forall_cons in H. destruct H as [Hr H].
  unfold rows_of_commit. cbn [List.filter]. rewrite Hr.
  destruct (String.eqb other sha) eqn:E.
  - apply String.eqb_eq in E. congruence.
  - apply IH. exact H.
Qed.

Section CommitFacts.

Context {World : Type}.
Variable search_commits_query :
  string -> Z -> World -> option (list item) * World.
Variable get_commit_details :
  string -> string -> World -> option commit * World.
Variable fetch_file :
  string -> string -> string -> World -> option string * World.

Implicit Types st : @process World.

Lemma commit_bounded_refl st : commit_bounded st st.
Proof.
  exists []. rewrite app_nil_r. cbn [map list_to_set].
  split; [reflexivity|]. split; [set_solver|].
  intros sha. split; [vm_compute; discriminate | reflexivity].
Qed.

Lemma commit_bounded_trans st1 st2 st3 :
  commit_bounded st1 st2 -> commit_bounded st2 st3 ->
  commit_bounded st1 st3.
Proof.
  intros (n1 & A1 & A2 & A3) (n2 & B1 & B2 & B3).
  exists (n1 ++ n2). split; [|split].
  - rewrite B1, A1, app_assoc. reflexivity.
  - rewrite B2, A2, map_app, list_to_set_app_L. set_solver.
  - intros sha. rewrite rows_of_commit_app.
    destruct (A3 sha) as [Ha Ha0]. destruct (B3 sha) as [Hb Hb0].
    destruct (Nat.eq_dec (rows_of_commit sha n1) 0%nat) as [E|E].
    + rewrite E. split; [exact Hb|].
      intros Hin. apply Hb0. rewrite A2. set_solver.
    + assert (Hs : sha ∈ seen_commits st2).
      { rewrite A2. apply elem_of_union_l.
        apply rows_of_commit_seen. exact E. }
      rewrite (Hb0 Hs), Nat.add_0_r. split; [exact Ha|].
      intros Hin. exact (Ha0 Hin).
Qed.

Lemma process_item_commit_bounded (it : item) st :
  commit_bounded st
    (state_of (process_item get_commit_details fetch_file it st)).
Proof.
  destruct (decide (item_sha it ∈ seen_commits st)) as [Hin|Hout].
  - unfold process_item.
    destruct (decide (item_sha it ∈ seen_commits st));
      [apply commit_bounded_refl | contradiction].
  - destruct (process_item_effects search_commits_query get_commit_details
                fetch_file it st)
      as (new & reqs & H1 & _ & H3 & _ & H5 & H6 & _).
    pose proof (process_item_collected get_commit_details fetch_file it st)
      as Hc.
    exists new. split; [exact H1|]. split; [exact H3|].
    intros sha.
    assert (Hall : Forall (fun r => row_commit_sha r = item_sha it) new).
    { eapply Forall_impl; [exact H6|]. intros r [Hr _]. exact Hr. }
    destruct (String.eqb_spec sha (item_sha it)) as [-> | Hne].
    + split; [|intros Hin; contradiction].
      pose proof (rows_of_commit_le (item_sha it) new). lia.
    + rewrite (rows_of_other_commit sha (item_sha it) new Hall Hne).
      split; [vm_compute; discriminate | reflexivity].
Qed.

Lemma main_loop_commit_bounded (fuel : nat) st :
  commit_bounded st
    (state_of (main_loop search_commits_query get_commit_details
                 fetch_file fuel st)).
Proof.
  apply (main_loop_lift search_commits_query get_commit_details fetch_file
           commit_bounded (fun _ => True)).
  - apply commit_bounded_refl.
  - apply commit_bounded_trans.
  - intros q pg w s. apply (commit_bounded_refl s).
  - intros l s. apply (commit_bounded_refl s).
  - intros l s. apply (commit_bounded_refl s).
  - intros q pg w items w' _. apply Forall_forall. intros; exact I.
  - apply process_items_lift.
    + apply commit_bounded_refl.
    + apply commit_bounded_trans.
    + intros it s _. apply process_item_commit_bounded.
Qed.

End CommitFacts.

(** X24: one commit gives at most [FILES_LIMIT] rows in a run, however
    often the search returns it, in whatever pages, keywords and
    windows; and a commit that was seen when the run began gives
    none. *)
Theorem commit_gives_at_most_files_limit_rows {World : Type}
    (search_commits_query :
       string -> Z -> World -> option (list item) * World)
    (get_commit_details : string -> string -> World -> option commit * World)
    (fetch_file :
       string -> string -> string -> World -> option string * World)
    (fuel : nat) (st : @process World) :
  exists new : list (list string),
    csv_rows (state_of (main_loop search_commits_query get_commit_details
                          fetch_file fuel st))
    = csv_rows st ++ new
    /\ forall sha : string,
         Z.of_nat (rows_of_commit sha new) <= FILES_LIMIT
         /\ (sha ∈ seen_commits st -> rows_of_commit sha new = 0%nat).
Proof.
  destruct (main_loop_commit_bounded search_commits_query
              get_commit_details fetch_file fuel st)
    as (new & H1 & _ & H3).
  exists new. split; assumption.
Qed.

(** ** The pages of a window *)

Definition is_search (q : request) : bool :=
  match q with
  | ReqSearch _ _ => true
  | _ => false
  end.

(** The calls of [search_commits_query] among [reqs], in order. *)
Definition search_requests (reqs : list request) : list request :=
  List.filter is_search reqs.

Lemma search_requests_none (reqs : list request) :
  Forall (fun q => is_search q = false) reqs -> search_requests reqs = [].
Proof.
  induction reqs as [|q reqs IH]; intros H; [reflexivity|].
  apply Forall_cons in H. destruct H as [Hq H].
  unfold search_requests. cbn [List.filter]. rewrite Hq. apply IH. exact H.
Qed.

Section PageFacts.

Context {World : Type}.
Variable search_commits_query :
  string -> Z -> World -> option (list item) * World.
Variable get_commit_details :
  string -> string -> World -> option commit * World.
Variable fetch_file :
  string -> string -> string -> World -> option string * World.

Implicit Types st : @process World.

(** The loop over the items searches nothing. *)
Lemma process_items_no_search (items : list item) st :
  exists reqs : list request,
    requests (state_of (process_items get_commit_details fetch_file
                          items st))
    = requests st ++ reqs
    /\ search_requests reqs = [].
Proof.
  assert (H : effects (fun _ => True) (fun q => is_search q = false) st
                (state_of (process_items get_commit_details fetch_file
                             items st))).
  { apply (process_items_lift get_commit_details fetch_file
             (effects (fun _ => True) (fun q => is_search q = false))
             (fun _ => True)).
    - intros s. apply effects_refl; assumption.
    - intros s1 s2 s3 H1 H2.
      eapply effects_trans; [assumption..| |]; eassumption.
    - intros it s _.
      eapply effects_weaken; [assumption..| | |].
      3: apply (process_item_effects search_commits_query
                  get_commit_details fetch_file).
      + intros r _. exact I.
      + intros [q pg|repo sha|repo sha path] Hq;
          [destruct Hq | reflexivity | reflexivity].
    - apply Forall_forall. intros; exact I. }
  destruct H as (new & reqs & _ & H2 & _ & _ & _ & _ & H7).
  exists reqs. split; [exact H2 | apply search_requests_none; exact H7].
Qed.

Lemma pages_loop_pages (remaining : nat) (query : string) :
  forall st,
    exists (reqs : list request) (m : nat),
      requests (state_of (pages_loop search_commits_query
                            get_commit_details fetch_file remaining
                            query st))
      = requests st ++ reqs
      /\ (m <= remaining)%nat
      /\ search_requests reqs
         = map (fun j : nat =>
                  ReqSearch query (page (locals st) + Z.of_nat j))
             (seq 0 m)
      /\ page (locals st) + Z.of_nat m - 1
         <= page (locals (state_of (pages_loop search_commits_query
                                      get_commit_details fetch_file
                                      remaining query st)))
         <= page (locals st) + Z.of_nat m.
Proof.
  induction remaining as [|remaining IH]; intros st.
  - exists [], 0%nat. cbn [pages_loop state_of seq map].
    rewrite app_nil_r. repeat split; [lia|lia|lia].
  - cbn [pages_loop].
    destruct (MAX_COMMITS <=? collected st).
    { exists [], 0%nat. cbn [state_of seq map]. rewrite app_nil_r.
      repeat split; lia. }
    unfold call_search.
    destruct (search_commits_query query (page (locals st)) (world st))
      as [res w1].
    set (p := page (locals st)).
    set (st1 := call (ReqSearch query p) w1 st).
    assert (Hone : exists (reqs : list request) (m : nat),
               requests st1 = requests st ++ reqs
               /\ (m <= S remaining)%nat
               /\ search_requests reqs
                  = map (fun j : nat => ReqSearch query (p + Z.of_nat j))
                      (seq 0 m)
               /\ p + Z.of_nat m - 1 <= page (locals st1)
                  <= p + Z.of_nat m).
    { exists [ReqSearch query p], 1%nat. cbn [seq map Z.of_nat].
      rewrite Z.add_0_r. repeat split; [lia | | ]; cbn; fold p; lia. }
    destruct res as [[|it items]|]; [exact Hone| |exact Hone].
    destruct (process_items_no_search (it :: items) st1)
      as (reqs1 & Hr1 & Hs1).
    pose proof (process_items_locals get_commit_details fetch_file
                  (it :: items) st1) as Hl.
    destruct (process_items get_commit_details fetch_file (it :: items) st1)
      as [s|e s]; cbn [and_then state_of] in *.
    + cbv zeta.
      match goal with
      | |- context [pages_loop _ _ _ remaining query ?s2] =>
          destruct (IH s2) as (reqs2 & m & H1 & H2 & H3 & H4);
          set (s' := state_of (pages_loop search_commits_query
                                 get_commit_details fetch_file remaining
                                 query s2)) in *
      end.
      cbn [save_state set_locals requests locals page] in H1, H3, H4.
      rewrite Hl in H3, H4. unfold st1 in H3, H4.
      cbn [call locals] in H3, H4. fold p in H3, H4.
      exists ([ReqSearch query p] ++ reqs1 ++ reqs2), (S m).
      split; [|split; [lia|split]].
      * rewrite H1, Hr1. unfold st1. cbn [call requests].
        rewrite <- !app_assoc. reflexivity.
      * unfold search_requests in *.
        rewrite !List.filter_app, Hs1, H3. cbn [List.filter is_search app].
        cbn [seq map]. rewrite Z.add_0_r. f_equal.
        rewrite <- seq_shift, map_map. apply map_ext. intros j.
        f_equal. lia.
      * lia.
    + exists ([ReqSearch query p] ++ reqs1), 1%nat.
      split; [|split; [lia|split]].
      * rewrite Hr1. unfold st1. cbn [call requests].
        rewrite <- !app_assoc. reflexivity.
      * unfold search_requests in *. rewrite List.filter_app, Hs1.
        cbn [List.filter is_search app seq map]. rewrite Z.add_0_r.
        reflexivity.
      * rewrite Hl. unfold st1. cbn [call locals]. fold p. lia.
Qed.

End PageFacts.

(** X25: the pages of one window.  In one turn of the main loop at most
    [MAX_PAGES_PER_QUERY] searches are made, all with the query of the
    window, and their page numbers are consecutive from the page of the
    checkpoint on, so a run that resumes at page [p] asks for the pages
    [p], [p + 1], ... and none twice. *)
Theorem window_searches_consecutive_pages {World : Type}
    (search_commits_query :
       string -> Z -> World -> option (list item) * World)
    (get_commit_details : string -> string -> World -> option commit * World)
    (fetch_file :
       string -> string -> string -> World -> option string * World)
    (st : @process World) (query : string) :
  window_query (locals st) = Ok query ->
  exists (reqs : list request) (m : nat),
    requests (state_of (window_turn search_commits_query
                          get_commit_details fetch_file st))
    = requests st ++ reqs
    /\ Z.of_nat m <= MAX_PAGES_PER_QUERY
    /\ search_requests reqs
       = map (fun j : nat => ReqSearch query (page (locals st) + Z.of_nat j))
           (seq 0 m).
Proof.
  intros Hq. unfold window_turn. rewrite Hq.
  destruct (pages_loop_pages search_commits_query get_commit_details
              fetch_file (Z.to_nat MAX_PAGES_PER_QUERY) query st)
    as (reqs & m & H1 & H2 & H3 & _).
  exists reqs, m.
  split; [|split; [change MAX_PAGES_PER_QUERY with 10 in *; lia | exact H3]].
  destruct (pages_loop search_commits_query get_commit_details fetch_file
              (Z.to_nat MAX_PAGES_PER_QUERY) query st) as [s|e s];
    cbn [and_then state_of] in *; [|exact H1].
  destruct (advance_date (date_end (locals s)) DAYS_PER_RANGE) as [d|e];
    cbn [state_of]; exact H1.
Qed.

Lemma window_searches_consecutive_pages_witness :
  let search := fun (_ : string) (pg : Z) (w : unit) =>
    (if pg <? 7 then Some [mk_item "o/r" "abc"] else None, w) in
  let get := fun (_ _ : string) (w : unit) => (@None commit, w) in
  let fetch := fun (_ _ _ : string) (w : unit) => (@None string, w) in
  let st := mk_process tt [] (∅ : gset string) "" [HEADER_ROW] 0
              (mk_state 0 "2024-03-05" 5) (mk_state 0 "2024-03-05" 5) in
  let query := "fix+language:Python+committer-date:2024-02-28..2024-03-05" in
  exists (reqs : list request) (m : nat),
    requests (state_of (window_turn search get fetch st)) = [] ++ reqs
    /\ Z.of_nat m <= MAX_PAGES_PER_QUERY
    /\ search_requests reqs
       = map (fun j : nat => ReqSearch query (5 + Z.of_nat j)) (seq 0 m).
Proof.
  intros search get fetch st query.
  apply (window_searches_consecutive_pages search get fetch st query).
  vm_compute. reflexivity.
Defined.

(** ** The run ends *)

Lemma append_nil_l (s : string) : "" +:+ s = s.
Proof. reflexivity. Qed.

(** A year below 1000 is printed with fewer than four digits, and such
    a text is not read back. *)
Lemma strptime_short_year (d : Date.date) :
  1 <= Date.year d < 1000 ->
  Date.strptime (Date.strftime d) = Raise ValueError.
Proof.
  intros Hy.
  assert (HY : Date.group_Y (Date.strftime d) = None).
  { unfold Date.strftime, Date.year_str, Date.pad2.
    set (y := Date.year d) in *.
    assert (H2 : 0 <= y / 100 mod 10 <= 9)
      by (Z.div_mod_to_equations; lia).
    assert (H1 : 0 <= y / 10 mod 10 <= 9)
      by (Z.div_mod_to_equations; lia).
    assert (H0 : 0 <= y mod 10 <= 9) by (Z.div_mod_to_equations; lia).
    destruct (DateFacts.digit_char_spec _ H2) as (A2 & _ & _).
    destruct (DateFacts.digit_char_spec _ H1) as (A1 & _ & _).
    destruct (DateFacts.digit_char_spec _ H0) as (A0 & _ & _).
    set (c2 := Date.digit_char (y / 100 mod 10)) in *.
    set (c1 := Date.digit_char (y / 10 mod 10)) in *.
    set (c0 := Date.digit_char (y mod 10)) in *.
    destruct (Z.ltb_spec y 10) as [L1|L1].
    - repeat (rewrite append_cons || rewrite append_nil_l). unfold Date.group_Y, Date.chars2.
      change (Py.is_digit "-") with false. rewrite andb_false_r.
      reflexivity.
    - destruct (Z.ltb_spec y 100) as [L2|L2].
      + repeat (rewrite append_cons || rewrite append_nil_l). unfold Date.group_Y.
        rewrite (DateFacts.chars2_match _ _ c1 c0 _ A1 A0).
        cbn [mbind option_bind]. reflexivity.
      + destruct (Z.ltb_spec y 1000) as [L3|L3]; [|lia].
        repeat (rewrite append_cons || rewrite append_nil_l). unfold Date.group_Y.
        rewrite (DateFacts.chars2_match _ _ c2 c1 _ A2 A1).
        cbn [mbind option_bind]. unfold Date.chars2.
        change (Py.is_digit "-") with false. rewrite andb_false_r.
        reflexivity. }
  unfold Date.strptime. rewrite HY. reflexivity.
Qed.

(** The day that [date_end] names, as a number; 0 when it names
    none. *)
Definition window_ordinal (l : crawl_state) : Z :=
  match Date.strptime (date_end l) with
  | Ok d => Date.toordinal d
  | Raise _ => 0
  end.

(** A run is over when it has stopped on an exception or has its
    samples. *)
Definition run_finished {World : Type} (r : run (@process World)) : Prop :=
  match r with
  | Crashed _ _ => True
  | Running s => MAX_COMMITS <= collected s
  end.

Lemma window_ordinal_range (l : crawl_state) :
  0 <= window_ordinal l <= Date.MAXORDINAL.
Proof.
  unfold window_ordinal.
  destruct (Date.strptime (date_end l)) as [d|e] eqn:E;
    [|unfold Date.MAXORDINAL; lia].
  pose proof (DateFacts.valid_toordinal_range d (strptime_valid _ _ E)).
  lia.
Qed.

Lemma window_ordinal_reads (l : crawl_state) (d : Date.date) :
  Date.strptime (date_end l) = Ok d ->
  window_ordinal l = Date.toordinal d.
Proof. intros H. unfold window_ordinal. rewrite H. reflexivity. Qed.

Lemma valid_year_positive (d : Date.date) :
  Date.valid d = true -> 1 <= Date.year d.
Proof.
  unfold Date.valid, Date.MINYEAR. intros H.
  destruct (Z.leb_spec 1 (Date.year d)) as [Hy|Hy]; [exact Hy|].
  discriminate H.
Qed.

(** A state whose [date_end] is the text of the date [d] names that
    day or, if the text is not read back, none. *)
Lemma window_ordinal_of_text (d : Date.date) (l : crawl_state) :
  Date.valid d = true ->
  date_end l = Date.strftime d ->
  window_ordinal l <= Date.toordinal d.
Proof.
  intros Hv Hl. unfold window_ordinal. rewrite Hl.
  pose proof (DateFacts.valid_toordinal_range d Hv) as Hr.
  destruct (Z.ltb_spec (Date.year d) 1000) as [Hy|Hy].
  - rewrite strptime_short_year; [lia|].
    split; [apply valid_year_positive; exact Hv | exact Hy].
  - rewrite (DateFacts.strptime_strftime d Hv Hy). lia.
Qed.

Lemma window_query_reads (l : crawl_state) (query : string) :
  window_query l = Ok query ->
  exists d : Date.date, Date.strptime (date_end l) = Ok d.
Proof.
  unfold window_query. intros Eq.
  destruct (Py.index KEYWORDS _) as [kw|x]; [|discriminate Eq].
  cbn [mbind result_bind] in Eq.
  destruct (Date.strptime (date_end l)) as [d|x];
    [exists d; reflexivity | discriminate Eq].
Qed.

(** What a step of [advance_date] that returns has done. *)
Lemma advance_date_back (s text : string) (d : Date.date) (days : Z) :
  Date.strptime s = Ok d ->
  advance_date s days = Ok text ->
  exists d' : Date.date,
    text = Date.strftime d'
    /\ Date.valid d' = true
    /\ Date.toordinal d' = Date.toordinal d - days
    /\ 1 <= Date.toordinal d - days.
Proof.
  intros Hs Ha. rewrite (advance_date_eq s d days Hs) in Ha.
  destruct ((1 <=? Date.toordinal d - days)
            && (Date.toordinal d - days <=? Date.MAXORDINAL)) eqn:Er;
    [|discriminate Ha].
  apply andb_true_iff in Er. destruct Er as [E1 E2].
  apply Z.leb_le in E1, E2.
  destruct (DateFacts.ord2ymd_spec (Date.toordinal d - days)
              (conj E1 E2)) as [Hv Ho].
  exists (Date.ord2ymd (Date.toordinal d - days)).
  injection Ha as <-. repeat split; assumption.
Qed.

Section EndFacts.

Context {World : Type}.
Variable search_commits_query :
  string -> Z -> World -> option (list item) * World.
Variable get_commit_details :
  string -> string -> World -> option commit * World.
Variable fetch_file :
  string -> string -> string -> World -> option string * World.

Implicit Types st : @process World.

(** A turn that does not stop moves the window at least
    [DAYS_PER_RANGE] days back. *)
Lemma window_turn_decreases st s :
  window_turn search_commits_query get_commit_details fetch_file st
  = Running s ->
  DAYS_PER_RANGE < window_ordinal (locals st)
  /\ window_ordinal (locals s)
     <= window_ordinal (locals st) - DAYS_PER_RANGE.
Proof.
  unfold window_turn.
  destruct (window_query (locals st)) as [query|e] eqn:Eq; [|discriminate].
  destruct (window_query_reads _ _ Eq) as [d Hs].
  pose proof (pages_loop_same_window search_commits_query
                get_commit_details fetch_file
                (Z.to_nat MAX_PAGES_PER_QUERY) query st) as [_ Hsame].
  destruct (pages_loop search_commits_query get_commit_details fetch_file
              (Z.to_nat MAX_PAGES_PER_QUERY) query st) as [s1|e s1];
    cbn [and_then state_of] in Hsame |- *; [|discriminate].
  rewrite Hsame.
  destruct (advance_date (date_end (locals st)) DAYS_PER_RANGE)
    as [text|e] eqn:Ea; [|discriminate].
  intros H. injection H as <-.
  destruct (advance_date_back _ _ _ _ Hs Ea) as (d' & -> & Hv & Ho & H1).
  rewrite (window_ordinal_reads _ _ Hs).
  split; [lia|].
  pose proof (window_ordinal_of_text d'
                (mk_state (keyword_index (locals s1) + 1)
                   (Date.strftime d') 1) Hv eq_refl) as Hw.
  change (locals (save_state ?l (set_locals ?l s1))) with l.
  lia.
Qed.

Lemma main_loop_ends (k : nat) :
  forall st,
    window_ordinal (locals st) <= DAYS_PER_RANGE * Z.of_nat k ->
    exists fuel : nat,
      (fuel <= S k)%nat
      /\ run_finished (main_loop search_commits_query get_commit_details
                         fetch_file fuel st).
Proof.
  change DAYS_PER_RANGE with 7.
  induction k as [|k IH]; intros st Hm.
  - destruct (MAX_COMMITS <=? collected st) eqn:Ec.
    + exists 0%nat. split; [lia|]. cbn [main_loop]. rewrite Ec.
      apply Z.leb_le in Ec. exact Ec.
    + exists 1%nat. split; [lia|]. cbn [main_loop]. rewrite Ec.
      destruct (window_turn search_commits_query get_commit_details
                  fetch_file st) as [s|e s] eqn:Et; [|exact I].
      apply window_turn_decreases in Et.
      change DAYS_PER_RANGE with 7 in Et. lia.
  - destruct (MAX_COMMITS <=? collected st) eqn:Ec.
    + exists 0%nat. split; [lia|]. cbn [main_loop]. rewrite Ec.
      apply Z.leb_le in Ec. exact Ec.
    + destruct (window_turn search_commits_query get_commit_details
                  fetch_file st) as [s|e s] eqn:Et.
      * pose proof (window_turn_decreases _ _ Et) as [_ Hd].
        change DAYS_PER_RANGE with 7 in Hd.
        destruct (IH s ltac:(lia)) as (fuel & Hf & Hfin).
        exists (S fuel). split; [lia|].
        cbn [main_loop]. rewrite Ec, Et. exact Hfin.
      * exists 1%nat. split; [lia|]. cbn [main_loop]. rewrite Ec, Et.
        exact I.
Qed.

(** More turns change nothing once the run is over. *)
Lemma main_loop_stable (fuel : nat) :
  forall st (more : nat),
    run_finished (main_loop search_commits_query get_commit_details
                    fetch_file fuel st) ->
    main_loop search_commits_query get_commit_details fetch_file
      (more + fuel) st
    = main_loop search_commits_query get_commit_details fetch_file fuel st.
Proof.
  induction fuel as [|fuel IH]; intros st more Hfin.
  - cbn [main_loop] in Hfin |- *.
    destruct (MAX_COMMITS <=? collected st) eqn:Ec;
      cbn [run_finished] in Hfin;
      [|apply Z.leb_gt in Ec; lia].
    rewrite Nat.add_0_r. destruct more; cbn [main_loop]; rewrite Ec;
      reflexivity.
  - rewrite Nat.add_succ_r. cbn [main_loop] in Hfin |- *.
    destruct (MAX_COMMITS <=? collected st); [reflexivity|].
    destruct (window_turn search_commits_query get_commit_details
                fetch_file st) as [s|e s]; [|reflexivity].
    cbn [and_then] in Hfin |- *. apply IH. exact Hfin.
Qed.

End EndFacts.

(** X26: the run ends.  From every state the main loop is over after
    at most 521724 turns: it has its [MAX_COMMITS] samples or has
    stopped on an exception, because every turn that does not stop
    moves the end of the window [DAYS_PER_RANGE] days back and the
    calendar begins at the year 1; further turns then change
    nothing. *)
Theorem run_ends {World : Type}
    (search_commits_query :
       string -> Z -> World -> option (list item) * World)
    (get_commit_details : string -> string -> World -> option commit * World)
    (fetch_file :
       string -> string -> string -> World -> option string * World)
    (st : @process World) :
  exists fuel : nat,
    Z.of_nat fuel <= 521724
    /\ run_finished (main_loop search_commits_query get_commit_details
                       fetch_file fuel st)
    /\ forall more : nat,
         main_loop search_commits_query get_commit_details fetch_file
           (more + fuel) st
         = main_loop search_commits_query get_commit_details fetch_file
             fuel st.
Proof.
  pose proof (window_ordinal_range (locals st)) as Hr.
  unfold Date.MAXORDINAL in Hr.
  destruct (main_loop_ends search_commits_query get_commit_details
              fetch_file (Z.to_nat 521723) st) as (fuel & Hf & Hfin).
  { change DAYS_PER_RANGE with 7. lia. }
  exists fuel. split; [lia|]. split; [exact Hfin|].
  intros more. apply main_loop_stable. exact Hfin.
Qed.

(** ** Text after a header *)

Lemma expect_append (p s r t : string) :
  Py.expect p s = Some r -> Py.expect p (s +:+ t) = Some (r +:+ t).
Proof.
  revert s. induction p as [|a p IH]; intros s H.
  - injection H as <-. reflexivity.
  - destruct s as [|b s]; [discriminate H|].
    rewrite append_cons. cbn [Py.expect] in H |- *.
    destruct (Ascii.eqb a b); [apply IH; exact H | discriminate H].
Qed.

Lemma span_digits_append (s t : string) :
  snd (Py.span_digits s) <> "" ->
  Py.span_digits (s +:+ t)
  = (fst (Py.span_digits s), snd (Py.span_digits s) +:+ t).
Proof.
  induction s as [|c s IH]; intros H; [contradiction H; reflexivity|].
  rewrite append_cons. cbn [Py.span_digits] in H |- *.
  destruct (Py.is_digit c); [|reflexivity].
  destruct (Py.span_digits s) as [d r]. cbn [fst snd] in *.
  rewrite (IH H). reflexivity.
Qed.

Lemma optional_length_append (s t r' : string) :
  snd (optional_length s) = String " " r' ->
  optional_length (s +:+ t)
  = (fst (optional_length s), snd (optional_length s) +:+ t).
Proof.
  destruct s as [|c s]; [discriminate|].
  rewrite append_cons. cbn [optional_length].
  destruct (Ascii.eqb c ",") eqn:Ec; [|reflexivity].
  pose proof (span_digits_append s t) as Hs.
  destruct (Py.span_digits s) as [d r]. cbn [fst snd] in Hs.
  destruct (Py.truthy d) eqn:Ed; cbn [fst snd].
  - intros Hr. rewrite Hs by (rewrite Hr; discriminate).
    rewrite Ed. reflexivity.
  - intros Hr. injection Hr as Hc _. apply Ascii.eqb_eq in Ec.
    subst c. discriminate Hc.
Qed.

(** X27: text after the closing [@@] of a header, as the context that
    a diff prints there, changes nothing: a line that matches the
    header pattern still matches it with the same four groups when any
    text is appended to it. *)
Theorem header_trailing_text_ignored (l t : string)
    (g : string * option string * string * option string) :
  header_re_match l = Some g ->
  header_re_match (l +:+ t) = Some g.
Proof.
  unfold header_re_match.
  destruct (Py.expect "@@ -" l) as [s1|] eqn:E1; [|discriminate].
  rewrite (expect_append _ _ _ t E1). cbn [mbind option_bind].
  pose proof (span_digits_append s1 t) as H1.
  destruct (Py.span_digits s1) as [a s2]. cbn [fst snd] in H1.
  destruct (negb (Py.truthy a)) eqn:Ea; [discriminate|].
  pose proof (optional_length_append s2 t) as H2.
  destruct (optional_length s2) as [b s3] eqn:E2. cbn [fst snd] in H2.
  destruct (Py.expect " +" s3) as [s4|] eqn:E3; [|discriminate].
  cbn [mbind option_bind].
  pose proof (expect_Some _ _ _ E3) as Hs3.
  change (String.append " +" s4) with (String " " (String "+" s4)) in Hs3.
  assert (Hs2 : s2 <> "").
  { intros ->. cbn in E2. injection E2 as _ <-. discriminate Hs3. }
  rewrite H1 by exact Hs2. rewrite Ea.
  rewrite (H2 _ Hs3). rewrite (expect_append _ _ _ t E3).
  cbn [mbind option_bind].
  pose proof (span_digits_append s4 t) as H4.
  destruct (Py.span_digits s4) as [c s5]. cbn [fst snd] in H4.
  destruct (negb (Py.truthy c)) eqn:Ec; [discriminate|].
  pose proof (optional_length_append s5 t) as H5.
  destruct (optional_length s5) as [d s6] eqn:E5. cbn [fst snd] in H5.
  destruct (Py.expect " @@" s6) as [s7|] eqn:E6; [|discriminate].
  cbn [mbind option_bind].
  pose proof (expect_Some _ _ _ E6) as Hs6.
  change (String.append " @@" s7)
    with (String " " (String "@" (String "@" s7))) in Hs6.
  assert (Hs5 : s5 <> "").
  { intros ->. cbn in E5. injection E5 as _ <-. discriminate Hs6. }
  rewrite H4 by exact Hs5. rewrite Ec.
  rewrite (H5 _ Hs6). rewrite (expect_append _ _ _ t E6).
  cbn [mbind option_bind]. intros H. exact H.
Qed.

Lemma header_trailing_text_ignored_witness :
  header_re_match ("@@ -12,7 +12,8 @@" +:+ " def load_state():")
  = Some ("12", Some "7", "12", Some "8").
Proof.
  apply (header_trailing_text_ignored "@@ -12,7 +12,8 @@"
           " def load_state():" ("12", Some "7", "12", Some "8")).
  reflexivity.
Defined.

(** ** A run that starts from the files of an earlier run *)

Lemma load_seen_empty : load_seen "" = (∅ : gset string).
Proof. reflexivity. Qed.

Lemma rows_in_their_set (rows : list (list string)) :
  Forall (fun r => row_commit_sha r
                   ∈ (list_to_set (map row_commit_sha rows) : gset string))
    rows.
Proof.
  induction rows as [|r rows IH]; [constructor|].
  cbn [map list_to_set]. constructor; [set_solver|].
  eapply Forall_impl; [exact IH|]. intros x Hx. cbv beta in Hx |- *.
  set_solver.
Qed.

(** C4: a run that starts from the files an earlier run left.  The
    search returns identifiers that are non-empty and free of white
    space, and the last line of the seen-commits file was finished when
    the first run began.  Then the set that the second run loads from
    the file is exactly the set the first run ended with; it holds the
    commit of every row the first run wrote and every commit the file
    named before; the second run writes no row for a commit of that
    set and fetches the detail of none; and an entry of a search page
    whose commit is in the set of seen commits is passed over before
    any call and any write. *)
Theorem C4_seen_commits_skipped {World : Type}
    (search_commits_query :
       string -> Z -> World -> option (list item) * World)
    (get_commit_details : string -> string -> World -> option commit * World)
    (fetch_file :
       string -> string -> string -> World -> option string * World)
    (fuel1 fuel2 : nat) (tokens1 tokens2 : list string)
    (today1 today2 : Date.date) (state_file : option crawl_state)
    (seen : option string) (output : option (list (list string)))
    (w1 w2 : World) (r1 r2 : run (@process World)) :
  (forall query pg w items w',
     search_commits_query query pg w = (Some items, w') ->
     Forall (fun it => clean_sha (item_sha it)) items) ->
  closed_text (default "" seen) ->
  main search_commits_query get_commit_details fetch_file fuel1 tokens1
    today1 state_file seen output w1 = Ok r1 ->
  main search_commits_query get_commit_details fetch_file fuel2 tokens2
    today2 (Some (checkpoint (state_of r1)))
    (Some (seen_file (state_of r1))) (Some (csv_rows (state_of r1))) w2
  = Ok r2 ->
  let recorded := load_seen (seen_file (state_of r1)) in
  recorded = seen_commits (state_of r1)
  /\ (forall (it : item) (st : @process World),
        item_sha it ∈ seen_commits st ->
        process_item get_commit_details fetch_file it st = Running st)
  /\ exists (new1 new2 : list (list string)) (reqs2 : list request),
       csv_rows (state_of r1) = default [HEADER_ROW] output ++ new1
       /\ csv_rows (state_of r2) = csv_rows (state_of r1) ++ new2
       /\ requests (state_of r2) = reqs2
       /\ Forall (fun r => row_commit_sha r ∈ recorded) new1
       /\ (forall sha, sha ∈ load_seen (default "" seen) -> sha ∈ recorded)
       /\ Forall (fun r => row_commit_sha r ∉ recorded) new2
       /\ Forall (fun q => forall repo sha,
                    q = ReqCommit repo sha -> sha ∉ recorded) reqs2.
Proof.
  intros Hclean Hclosed Hrun1 Hrun2 recorded.
  unfold main in Hrun1.
  destruct tokens1 as [|t1 ts1]; [discriminate Hrun1|].
  injection Hrun1 as <-.
  set (st0 := mk_process w1 [] _ (default "" seen) _ 0 _ _) in *.
  assert (Hload0 : load_seen (seen_file st0) = seen_commits st0).
  { subst st0. cbn [seen_file seen_commits].
    destruct seen as [content|]; [reflexivity | apply load_seen_empty]. }
  destruct (main_loop_clean_rows search_commits_query get_commit_details
              fetch_file Hclean fuel1 st0)
    as (new1 & reqs1 & A1 & _ & A3 & A4 & _ & A6 & _).
  destruct (load_seen_append_lines new1 (seen_file st0) Hclosed A6)
    as [_ Hl].
  assert (Hrec : recorded
                 = seen_commits
                     (state_of (main_loop search_commits_query
                                  get_commit_details fetch_file fuel1 st0))).
  { unfold recorded. rewrite A4, Hl, Hload0, A3. reflexivity. }
  unfold main in Hrun2.
  destruct tokens2 as [|t2 ts2]; [discriminate Hrun2|].
  injection Hrun2 as <-.
  cbn [load_state default] in *.
  match goal with
  | |- context [main_loop _ _ _ fuel2 ?s] => set (st2 := s) in *
  end.
  destruct (main_loop_fresh search_commits_query get_commit_details
              fetch_file (seen_commits st2) fuel2 st2 (reflexivity _))
    as (new2 & reqs2 & B1 & B2 & _ & _ & _ & B6 & B7).
  split; [exact Hrec|]. split.
  - intros it st Hin. unfold process_item.
    destruct (decide (item_sha it ∈ seen_commits st));
      [reflexivity | contradiction].
  - exists new1, new2, reqs2.
    split; [rewrite A1; subst st0; cbn [csv_rows];
            destruct output; reflexivity|].
    split; [exact B1|]. split; [exact B2|]. split; [|split; [|split]].
    + rewrite Hrec, A3.
      eapply Forall_impl; [apply rows_in_their_set|].
      intros r Hr. cbv beta in Hr |- *. set_solver.
    + intros sha Hin. rewrite Hrec, A3, <- Hload0.
      subst st0. cbn [seen_file]. set_solver.
    + eapply Forall_impl; [exact B6|]. intros r [Hr _]. exact Hr.
    + eapply Forall_impl; [exact B7|].
      intros q Hq repo sha ->. exact Hq.
Qed.

Lemma C4_seen_commits_skipped_witness :
  let search := fun (_ : string) (pg : Z) (w : unit) =>
    (if pg =? 1 then Some [mk_item "o/r" "abc"] else None, w) in
  let get := fun (_ _ : string) (w : unit) =>
    (Some (mk_commit ["p"]
             [mk_file "a.py" (Some (lines_of ["@@ -1 +1 @@"; "-x"; "+y"]))]
             "fix"), w) in
  let fetch := fun (_ sha _ : string) (w : unit) =>
    (Some (if String.eqb sha "p" then "x" else "y"), w) in
  let start := mk_state 0 "2024-03-05" 1 in
  let r1 := main_loop search get fetch 1
              (mk_process tt [] ∅ "" [HEADER_ROW] 0 start start) in
  let r2 := main_loop search get fetch 1
              (mk_process tt [] (load_seen (seen_file (state_of r1)))
                 (seen_file (state_of r1)) (csv_rows (state_of r1)) 0
                 (checkpoint (state_of r1)) (checkpoint (state_of r1))) in
  let recorded := load_seen (seen_file (state_of r1)) in
  recorded = seen_commits (state_of r1)
  /\ (forall (it : item) (st : @process unit),
        item_sha it ∈ seen_commits st ->
        process_item get fetch it st = Running st)
  /\ exists (new1 new2 : list (list string)) (reqs2 : list request),
       csv_rows (state_of r1) = [HEADER_ROW] ++ new1
       /\ csv_rows (state_of r2) = csv_rows (state_of r1) ++ new2
       /\ requests (state_of r2) = reqs2
       /\ Forall (fun r => row_commit_sha r ∈ recorded) new1
       /\ (forall sha, sha ∈ load_seen "" -> sha ∈ recorded)
       /\ Forall (fun r => row_commit_sha r ∉ recorded) new2
       /\ Forall (fun q => forall repo sha,
                    q = ReqCommit repo sha -> sha ∉ recorded) reqs2.
Proof.
  intros search get fetch start r1 r2.
  apply (C4_seen_commits_skipped search get fetch 1 1 ["k0"] ["k0"]
           (Date.mk_date 2024 3 5) (Date.mk_date 2024 3 6)
           (Some start) None None tt tt r1 r2).
  - intros query pg w items w' H. unfold search in H.
    destruct (pg =? 1); [|discriminate H].
    injection H as <- _. constructor; [|constructor].
    split; [discriminate | repeat constructor].
  - left. reflexivity.
  - reflexivity.
  - reflexivity.
Defined.

(** The two runs computed: the first writes the row of the commit and
    its line in the seen-commits file; the second, started from what
    the first left, finds the commit on the same search page and writes
    nothing. *)
Example second_run_writes_nothing :
  let search := fun (_ : string) (pg : Z) (w : unit) =>
    (if pg =? 1 then Some [mk_item "o/r" "abc"] else None, w) in
  let get := fun (_ _ : string) (w : unit) =>
    (Some (mk_commit ["p"]
             [mk_file "a.py" (Some (lines_of ["@@ -1 +1 @@"; "-x"; "+y"]))]
             "fix"), w) in
  let fetch := fun (_ sha _ : string) (w : unit) =>
    (Some (if String.eqb sha "p" then "x" else "y"), w) in
  let start := mk_state 0 "2024-03-05" 1 in
  let r1 := main_loop search get fetch 1
              (mk_process tt [] ∅ "" [HEADER_ROW] 0 start start) in
  let r2 := main_loop search get fetch 1
              (mk_process tt [] (load_seen (seen_file (state_of r1)))
                 (seen_file (state_of r1)) (csv_rows (state_of r1)) 0
                 (checkpoint (state_of r1)) (checkpoint (state_of r1))) in
  seen_file (state_of r1) = "abc" +:+ Py.NL
  /\ csv_rows (state_of r1)
     = [HEADER_ROW;
        ["o/r"; "a.py"; "abc"; "fix"; lines_of ["# x"; "<FILL_ME>"];
         "y"; "x"; "y"]]
  /\ csv_rows (state_of r2) = csv_rows (state_of r1)
  /\ requests (state_of r2)
     = [ReqSearch "bug+language:Python+committer-date:2024-02-21..2024-02-27"
          1;
        ReqSearch "bug+language:Python+committer-date:2024-02-21..2024-02-27"
          2].
Proof.
  intros search get fetch start r1 r2.
  split; [vm_compute; reflexivity|].
  split; [vm_compute; reflexivity|].
  split; vm_compute; reflexivity.
Qed.
